(** * resync.py: the metadata index, the document tree and the cleanup passes

    A shallow embedding of [resync.py] (remarkable-cli-tooling): the four
    module-level dictionaries filled by [retrieve_metadata], the [Node]
    classes with the two tree builders, [curb_tree], and the cleanup passes
    of the [clean] mode, followed by the properties its specification
    states about them.

    Conventions of the embedding.
    - A Python [dict] is a [gmap]; iterating a dict or a set enumerates it
      with [map_to_list] / [elements] (Python's order is the insertion
      order, resp. unspecified; nothing below depends on it).
    - Code that mutates the module globals, reads [input()] or calls
      [ssh] is written in a state-and-exception monad; an exception keeps
      the state reached when it was raised.
    - [fullpath] and [Folder.build], which recurse over the records of the
      device, stop with [RecursionError] at the recursion limit of the
      interpreter, which records that are filed in a circle always reach.
      The recursions over a tree that was built are as deep as the tree,
      which the model takes to fit the stack.
    - Library functions whose definition is not part of the program
      ([re.match], [int], [uuid.uuid4], [pathlib]) are the fields of the
      class [Library]. *)

From Stdlib Require Import ZArith Lia Ascii.
From stdpp Require Import base option list gmap strings sorting pretty.

Local Open Scope Z_scope.
Local Open Scope nat_scope.

(** ** Strings *)

Module Str.

(** [c.lower()] on ASCII letters. *)
Definition lower_ascii (c : ascii) : ascii :=
  let n := nat_of_ascii c in
  if (65 <=? n) && (n <=? 90) then ascii_of_nat (n + 32) else c.

Fixpoint lower (s : string) : string :=
  match s with
  | EmptyString => EmptyString
  | String c s' => String (lower_ascii c) (lower s')
  end.

(** [s.startswith(p)] and [s.endswith(p)]. *)
Fixpoint startswith (p s : string) : bool :=
  match p, s with
  | EmptyString, _ => true
  | String a p', String b s' => bool_decide (a = b) && startswith p' s'
  | String _ _, EmptyString => false
  end.

Definition endswith (p s : string) : bool :=
  startswith (String.rev p) (String.rev s).

(** [s.split(sep)] for a one-character separator: never empty. *)
Fixpoint split_go (sep : ascii) (cur : string) (s : string) : list string :=
  match s with
  | EmptyString => [String.rev cur]
  | String c s' =>
      if bool_decide (c = sep) then String.rev cur :: split_go sep EmptyString s'
      else split_go sep (String c cur) s'
  end.

Definition split (sep : ascii) (s : string) : list string :=
  split_go sep EmptyString s.

(** [sep.join(l)]. *)
Fixpoint join (sep : string) (l : list string) : string :=
  match l with
  | [] => EmptyString
  | [x] => x
  | x :: rest => x +:+ sep +:+ join sep rest
  end.

End Str.

(** ** Exceptions and the state-and-exception monad *)

Inductive exn : Type :=
| KeyError
| ValueError
| IndexError
| EOFError
| RecursionError
| AssertionError
| FileCollision (name path : string)
| LoopBoundExceeded.
(** [LoopBoundExceeded] is not a Python exception: it marks the exhaustion
    of the bound given to the model of a [while] loop, which
    [emptydir_loop_bound_suffices] shows is never reached. *)

Inductive result (A : Type) : Type :=
| Ret (a : A)
| Raise (e : exn).
Arguments Ret {A} a.
Arguments Raise {A} e.

Global Instance result_ret : MRet result := fun A a => Ret a.
Global Instance result_bind : MBind result := fun A B k r =>
  match r with
  | Ret a => k a
  | Raise e => Raise e
  end.

Definition M (S A : Type) : Type := S → result A * S.

Definition ret {S A} (a : A) : M S A := fun s => (Ret a, s).
Definition raise {S A} (e : exn) : M S A := fun s => (Raise e, s).
Definition bind {S A B} (m : M S A) (k : A → M S B) : M S B :=
  fun s => match m s with
           | (Ret a, s') => k a s'
           | (Raise e, s') => (Raise e, s')
           end.
Definition get {S} : M S S := fun s => (Ret s, s).
Definition modify {S} (f : S → S) : M S unit := fun s => (Ret tt, f s).
(** A computation that cannot touch the state. *)
Definition pure_result {S A} (r : result A) : M S A := fun s => (r, s).

(** The monad is used through stdpp's [x ← m; k] and [m;; k]. *)
Global Instance M_ret {S} : MRet (M S) := fun A a => ret a.
Global Instance M_bind {S} : MBind (M S) := fun A B k m => bind m k.

(** [for x in l: body x] *)
Fixpoint for_each {S A} (l : list A) (body : A → M S unit) : M S unit :=
  match l with
  | [] => ret tt
  | x :: rest => body x ;; for_each rest body
  end.

(** ** Metadata records and the four indices *)

(** One parsed [.metadata] file. The keys the program tests with [in]
    before reading them ([parent], [deleted]) are optional; the others are
    read unguarded. *)
Record Metadata : Type := mkMetadata {
  visibleName : string;
  parent : option string;
  lastModified : string;
  type_ : string;
  deleted : option bool }.

Record Index : Type := mkIndex {
  metadata_by_uuid : gmap string Metadata;
  metadata_by_name : gmap string (gmap string Metadata);
  metadata_by_parent : gmap string (gmap string Metadata);
  metadata_by_name_and_parent : gmap (string * string) (string * Metadata) }.

Definition empty_index : Index := mkIndex ∅ ∅ ∅ ∅.

Definition set_by_uuid (f : gmap string Metadata → gmap string Metadata) (ix : Index) : Index :=
  mkIndex (f (metadata_by_uuid ix)) (metadata_by_name ix)
          (metadata_by_parent ix) (metadata_by_name_and_parent ix).
Definition set_by_name (f : gmap string (gmap string Metadata) → gmap string (gmap string Metadata))
    (ix : Index) : Index :=
  mkIndex (metadata_by_uuid ix) (f (metadata_by_name ix))
          (metadata_by_parent ix) (metadata_by_name_and_parent ix).
Definition set_by_parent (f : gmap string (gmap string Metadata) → gmap string (gmap string Metadata))
    (ix : Index) : Index :=
  mkIndex (metadata_by_uuid ix) (metadata_by_name ix)
          (f (metadata_by_parent ix)) (metadata_by_name_and_parent ix).
Definition set_by_name_and_parent
    (f : gmap (string * string) (string * Metadata) → gmap (string * string) (string * Metadata))
    (ix : Index) : Index :=
  mkIndex (metadata_by_uuid ix) (metadata_by_name ix)
          (metadata_by_parent ix) (f (metadata_by_name_and_parent ix)).

(** [d[k]], raising [KeyError] on a missing key. *)
Definition getitem {K V} `{Countable K} (d : gmap K V) (k : K) : result V :=
  match d !! k with
  | Some v => Ret v
  | None => Raise KeyError
  end.

(** [d.setdefault(k, dict())[u] = v], the idiom of lines 216-222. *)
Definition insert_nested (k u : string) (v : Metadata)
    (d : gmap string (gmap string Metadata)) : gmap string (gmap string Metadata) :=
  <[k := <[u := v]> (default ∅ (d !! k))]> d.

(** *** [fullpath] *)

Fixpoint fullpath_rec (fuel : nat) (by_uuid : gmap string Metadata)
    (metadata : Metadata) : result string :=
  match parent metadata with
  | None => Ret ("/" +:+ visibleName metadata)
  | Some parent_uuid =>
      if bool_decide (parent_uuid = "") then Ret ("/" +:+ visibleName metadata)
      else
        match fuel with
        | O => Raise RecursionError
        | S fuel' =>
            match getitem by_uuid parent_uuid with
            | Raise e => Raise e
            | Ret parent_md =>
                match fullpath_rec fuel' by_uuid parent_md with
                | Raise e => Raise e
                | Ret p => Ret (p +:+ "/" +:+ visibleName metadata)
                end
            end
        end
  end.

(** [sys.getrecursionlimit()] as the interpreter starts; the program does
    not change it. *)
Definition recursion_limit : nat := 1000.

(** [fullpath] is called by [retrieve_metadata] and by the cleanup
    passes, which the module calls: two frames are on the stack when it is
    entered. Its calls nest [recursion_limit - 2] deep at most, so it
    follows [recursion_limit - 3] parents, and raises [RecursionError] at
    the next. *)
Definition fullpath (ix : Index) (metadata : Metadata) : result string :=
  fullpath_rec (recursion_limit - 3) (metadata_by_uuid ix) metadata.

(** *** [retrieve_metadata] *)

(** The test of lines 209-210. *)
Definition skipped (metadata : Metadata) : bool :=
  default false (deleted metadata) || bool_decide (parent metadata = Some "trash").

(** The body of the loop of [retrieve_metadata] for one
    [(path.stem, metadata)] pair. *)
Definition load_record (entry : string * Metadata) : M Index unit :=
  let '(uuid, metadata) := entry in
  if skipped metadata then ret tt
  else
    modify (set_by_uuid <[uuid := metadata]>);;
    modify (set_by_name (insert_nested (visibleName metadata) uuid metadata));;
    match parent metadata with
    | None => raise KeyError
    | Some p =>
        modify (set_by_parent (insert_nested p uuid metadata));;
        ix ← get;
        match metadata_by_name_and_parent ix !! (visibleName metadata, p) with
        | Some _ =>
            path ← pure_result (fullpath ix metadata);
            raise (FileCollision (visibleName metadata) path)
        | None =>
            modify (set_by_name_and_parent <[(visibleName metadata, p) := (uuid, metadata)]>)
        end
    end.

Definition retrieve_metadata (records : list (string * Metadata)) : M Index unit :=
  for_each records load_record.

(** *** Lookups *)

Definition get_metadata_by_uuid (ix : Index) (u : string) : option Metadata :=
  metadata_by_uuid ix !! u.

Definition get_metadata_by_name (ix : Index) (name : string) : option (gmap string Metadata) :=
  metadata_by_name ix !! name.

Definition get_metadata_by_parent (ix : Index) (p : option string) : gmap string Metadata :=
  match p with
  | Some p' => default ∅ (metadata_by_parent ix !! p')
  | None => ∅
  end.

Definition get_metadata_by_name_and_parent (ix : Index) (name : string) (p : option string)
    : option (string * Metadata) :=
  match p with
  | Some p' => metadata_by_name_and_parent ix !! (name, p')
  | None => None
  end.

(** *** [remove_uuid] *)

Definition remove_uuid (u : string) : M Index unit :=
  ix ← get;
  metadata ← pure_result (getitem (metadata_by_uuid ix) u);
  modify (set_by_uuid (delete u));;
  match parent metadata with
  | None => ret tt
  | Some p =>
      if bool_decide (p = "") then ret tt
      else
        siblings ← pure_result (getitem (metadata_by_parent ix) p);
        _ ← pure_result (getitem siblings u);
        let siblings' := delete u siblings in
        if bool_decide (siblings' = ∅)
        then modify (set_by_parent (delete p))
        else modify (set_by_parent <[p := siblings']>)
  end.

(** ** Library functions, command line, devices *)

(** The library functions the program calls and does not define. *)
Class Library : Type := {
  (** [re.match(pattern, s) is not None], for a pattern that compiles *)
  re_match : string → string → bool;
  (** [int(s)]; [None] when it raises [ValueError] *)
  int_of_str : string → option Z;
  (** [str(uuid.uuid4())], at the n-th call *)
  uuid4 : nat → string;
  (** [pathlib.Path(s).name] and [pathlib.Path(s).suffix] *)
  path_name : string → string;
  path_suffix : string → string }.

(** [--if-exists] *)
Inductive IfExists : Type := duplicate | overwrite | skip | doconly.

(** The parsed command line ([args]); verbosity only changes what is
    printed and is left out. *)
Record Args : Type := mkArgs {
  dryrun : bool;
  yes : bool;
  if_exists : IfExists;
  exclude_patterns : list string;
  destination : option string }.

(** *** The document tree *)

Inductive NodeClass : Type := FolderClass | DocumentClass.

(** A [Node] object. The back-reference [self.parent] is not a field:
    a function that reads through it ([parent.id], [parent.get_full_path()])
    receives what it reads as an argument. [render_doc_only] records that
    [node.render] was replaced (line 633). *)
#[warnings="-register-all"]
Inductive Node : Type := mkNode {
  name : string;
  node_id : option string;
  node_exists : bool;
  gets_modified : bool;
  node_class : NodeClass;
  filetype : string;
  render_doc_only : bool;
  children : list Node }.

(** What a node reads through [self.parent]. *)
Record Parent : Type := mkParent {
  parent_id : option string;
  parent_full_path : string }.

Definition set_children (n : Node) (chs : list Node) : Node :=
  mkNode (name n) (node_id n) (node_exists n) (gets_modified n)
         (node_class n) (filetype n) (render_doc_only n) chs.
Definition set_id (n : Node) (i : option string) : Node :=
  mkNode (name n) i (node_exists n) (gets_modified n)
         (node_class n) (filetype n) (render_doc_only n) (children n).
Definition set_exists (n : Node) (b : bool) : Node :=
  mkNode (name n) (node_id n) b (gets_modified n)
         (node_class n) (filetype n) (render_doc_only n) (children n).
Definition set_gets_modified (n : Node) (b : bool) : Node :=
  mkNode (name n) (node_id n) (node_exists n) b
         (node_class n) (filetype n) (render_doc_only n) (children n).
Definition set_render_doc_only (n : Node) (b : bool) : Node :=
  mkNode (name n) (node_id n) (node_exists n) (gets_modified n)
         (node_class n) (filetype n) b (children n).

(** [node.get_full_path()], given the full path of [node.parent]. *)
Definition get_full_path (up : option string) (node : Node) : string :=
  match up with
  | None => name node
  | Some p => p +:+ "/" +:+ name node
  end.

Definition as_parent (up : option string) (node : Node) : Parent :=
  mkParent (node_id node) (get_full_path up node).

(** [Node.__init__]: identity resolution against by-name-and-parent. *)
Definition Node_init (ix : Index) (cls : NodeClass) (ftype : string)
    (nm : string) (parent : option Parent) : Node :=
  let metadata :=
    match parent with
    | None => get_metadata_by_name_and_parent ix nm (Some "")
    | Some p => get_metadata_by_name_and_parent ix nm (parent_id p)
    end in
  match metadata with
  | Some (uuid, _) => mkNode nm (Some uuid) true false cls ftype false []
  | None => mkNode nm None false false cls ftype false []
  end.

Definition Folder (ix : Index) (nm : string) (parent : option Parent) : Node :=
  Node_init ix FolderClass "folder" nm parent.

(** [Document.__init__], given [doc.name] and [doc.suffix]. *)
Definition Document (ix : Index) (doc_name doc_suffix : string)
    (parent : option Parent) : Node :=
  let ftype :=
    match doc_suffix with
    | String "." rest => rest
    | _ => doc_suffix
    end in
  Node_init ix DocumentClass ftype doc_name parent.

(** *** What the program prints, runs and reads *)

(** Lines written to standard output, by message. *)
Inductive Output : Type :=
| PrintEmptyDirectoryIgnored (path : string)
| PrintUnsupportedIgnored (path : string)
| PrintCannotFind (doc : string)
| PrintRemovingTrash
| PrintNoDeleted
| PrintRemovingOrphans
| PrintNoOrphans
| PrintComputingMd5sum
| PrintLine (line : string)
| PrintGroup (j total members : nat) (md5 : string)
| PrintMetadataMissing (u : string)
| PrintLastModifiedError (path : string)
| PrintCandidate (newest : bool) (i : nat) (u : string) (lastmodified : Z) (path : string)
| PrintShouldNotHappen
| PrintOnlyOneCandidate
| PrintInputParsingError (s : string)
| PrintEnterNumber (upper : Z)
| PrintSkippingFile
| PrintCleanupStopped
| PrintRemoved (n : nat)
| PrintRemovedTotal (n : nat)
| PrintIteration (n : nat)
| PrintEmpty (path : string)
| PrintNoEmptyDirectories.

(** Commands that reached the device through [ssh] (a dry call does not). *)
Inductive SshCommand : Type :=
| RmBatch (uuids : list string)      (* rm -r xochitl/{u1,...,un}* *)
| RmOrphans                          (* the removing loop of line 801 *)
| RmTree (u : string)                (* rm -rv xochitl/u* *)
| ListOrphans                        (* the listing loop of line 790 *)
| Md5sums                            (* the md5sum loop of lines 808-813 *)
| RestartXochitl.                    (* systemctl restart xochitl *)

Record World : Type := mkWorld {
  index : Index;
  stdin : list string;
  stdout : list Output;
  ssh_log : list SshCommand;
  uuid_count : nat;
  downloaded : list Node }.

Definition set_index (f : Index → Index) (w : World) : World :=
  mkWorld (f (index w)) (stdin w) (stdout w) (ssh_log w) (uuid_count w) (downloaded w).
Definition set_stdin (f : list string → list string) (w : World) : World :=
  mkWorld (index w) (f (stdin w)) (stdout w) (ssh_log w) (uuid_count w) (downloaded w).
Definition set_stdout (f : list Output → list Output) (w : World) : World :=
  mkWorld (index w) (stdin w) (f (stdout w)) (ssh_log w) (uuid_count w) (downloaded w).
Definition set_ssh_log (f : list SshCommand → list SshCommand) (w : World) : World :=
  mkWorld (index w) (stdin w) (stdout w) (f (ssh_log w)) (uuid_count w) (downloaded w).
Definition set_uuid_count (f : nat → nat) (w : World) : World :=
  mkWorld (index w) (stdin w) (stdout w) (ssh_log w) (f (uuid_count w)) (downloaded w).
Definition set_downloaded (f : list Node → list Node) (w : World) : World :=
  mkWorld (index w) (stdin w) (stdout w) (ssh_log w) (uuid_count w) (f (downloaded w)).

(** An operation on the indices, run inside the world. *)
Definition on_index {A} (m : M Index A) : M World A := fun w =>
  let '(r, ix) := m (index w) in (r, set_index (fun _ => ix) w).

Definition print (o : Output) : M World unit := modify (set_stdout (fun out => out ++ [o])).

(** [input(...)]: the next line of standard input. *)
Definition input : M World string := fun w =>
  match stdin w with
  | [] => (Raise EOFError, w)
  | s :: rest => (Ret s, set_stdin (fun _ => rest) w)
  end.

(** [ssh(arg, dry=dry)]; the output of a command, where the program reads
    it, is an argument of the function that does. *)
Definition ssh (cmd : SshCommand) (dry : bool) : M World unit :=
  if dry then ret tt else modify (set_ssh_log (fun l => l ++ [cmd])).

(** [gen_did()] *)
Definition gen_did `{Library} : M World string := fun w =>
  (Ret (uuid4 (uuid_count w)), set_uuid_count S w).

(** The local source hierarchy, as [os.listdir], [is_dir] and [is_file]
    show it. *)
#[warnings="-register-all"]
Inductive FsEntry : Type :=
| FsDir (nm : string) (entries : list FsEntry)
| FsFile (nm : string)
| FsOther (nm : string).

Definition entry_name (e : FsEntry) : string :=
  match e with
  | FsDir nm _ | FsFile nm | FsOther nm => nm
  end.

(** ** The program *)

Section Program.

Context `{Library}.
Variable args : Args.

(** *** [curb_tree] *)

(** The [for exc in excludelist] loop of lines 288-291. *)
Definition excluded (excludelist : list string) (path : string) : bool :=
  existsb (fun exc => re_match exc path) excludelist.

(** [curb_tree(node, excludelist)]. The node is updated in place in the
    program and returned here. The first component lists, in order, the
    full paths of the nodes the function was called on, i.e. the paths
    tested against the patterns. *)
Fixpoint curb_tree (up : option string) (node : Node) (excludelist : list string)
    : list string * (bool * Node) :=
  let path := get_full_path up node in
  if excluded excludelist path then ([path], (true, node))
  else
    let fix curb_children (chs : list Node) : list string * list Node :=
      match chs with
      | [] => ([], [])
      | ch :: rest =>
          let '(v1, (curbed, ch')) := curb_tree (Some path) ch excludelist in
          let '(v2, uncurbed_children) := curb_children rest in
          (v1 ++ v2, if curbed then uncurbed_children else ch' :: uncurbed_children)
      end in
    let '(v, uncurbed_children) := curb_children (children node) in
    (path :: v, (false, set_children node uncurbed_children)).

(** *** Push: the tree of what is on disk *)

(** Lines 616-641: what [--if-exists] does to a document that resolved. *)
Definition apply_if_exists (node : Node) : M World Node :=
  if node_exists node then
    match if_exists args with
    | skip => mret node
    | overwrite => mret (set_gets_modified (set_exists node false) true)
    | doconly =>
        mret (set_render_doc_only (set_gets_modified (set_exists node false) true) true)
    | duplicate =>
        did ← gen_did;
        mret (set_exists (set_id node (Some did)) false)
    end
  else mret node.

Definition supported_suffix (suffix : string) : bool :=
  bool_decide (Str.lower suffix ∈ [".pdf"; ".epub"]).

Fixpoint construct_node_tree_from_disk (path : string) (entry : FsEntry)
    (parent : option Parent) : M World (option Node) :=
  match entry with
  | FsDir nm entries =>
      w ← get;
      let node := Folder (index w) nm parent in
      let me := as_parent (parent_full_path <$> parent) node in
      let fix listdir (fs : list FsEntry) (chs : list Node) : M World (list Node) :=
        match fs with
        | [] => mret chs
        | f :: rest =>
            child ← construct_node_tree_from_disk (path +:+ "/" +:+ entry_name f) f (Some me);
            match child with
            | Some c => listdir rest (chs ++ [c])
            | None => listdir rest chs
            end
        end in
      chs ← listdir entries [];
      match chs with
      | [] => print (PrintEmptyDirectoryIgnored path);; mret None
      | _ => mret (Some (set_children node chs))
      end
  | FsFile nm =>
      if supported_suffix (path_suffix nm) then
        w ← get;
        node ← apply_if_exists (Document (index w) nm (path_suffix nm) parent);
        mret (Some node)
      else print (PrintUnsupportedIgnored path);; mret None
  | FsOther nm => print (PrintUnsupportedIgnored path);; mret None
  end.

(** [for doc in args.documents: node = construct...(doc, parent); ...] *)
Fixpoint construct_documents (documents : list (string * FsEntry))
    (parent : option Parent) : M World (list Node) :=
  match documents with
  | [] => mret []
  | (path, entry) :: rest =>
      node ← construct_node_tree_from_disk path entry parent;
      nodes ← construct_documents rest parent;
      mret (match node with Some n => n :: nodes | None => nodes end)
  end.

(** Lines 661-671: the chain of folders of [-o a/b/c], the documents
    hanging under the last one. *)
Fixpoint construct_destination (ix : Index) (folder : string) (folders : list string)
    (parent : option Parent) (documents : list (string * FsEntry)) : M World Node :=
  let node := Folder ix folder parent in
  let me := as_parent (parent_full_path <$> parent) node in
  match folders with
  | [] =>
      nodes ← construct_documents documents (Some me);
      mret (set_children node nodes)
  | folder' :: folders' =>
      ch ← construct_destination ix folder' folders' (Some me) documents;
      mret (set_children node [ch])
  end.

(** Lines 684-689. *)
Definition apply_excludes (root : list Node) : list Node :=
  flat_map (fun r =>
              let '(_, (curbed, r')) := curb_tree None r (exclude_patterns args) in
              if curbed then [] else [r']) root.

(** [push_to_remarkable] up to line 689: the roots that are then printed,
    rendered and copied. *)
Definition push_to_remarkable (documents : list (string * FsEntry)) : M World (list Node) :=
  w ← get;
  root ← match destination args with
         | None | Some EmptyString => construct_documents documents None
         | Some dest =>
             match Str.split "/" dest with
             | [] => mret []
             | folder :: folders =>
                 r ← construct_destination (index w) folder folders None documents;
                 mret [r]
             end
         end;
  mret (apply_excludes root).

(** *** Pull: the tree of what is in the index *)

(** [Folder.build] is called by [pull_from_remarkable], which the module
    calls, and each nested call takes a frame; the constructors of a
    child, [pathlib] included, need some more on top of the deepest. The
    model lets the calls nest [recursion_limit - 16] deep, leaving sixteen
    for those: the interpreter allows this depth, and less than sixteen
    more. *)
Definition build_depth : nat := recursion_limit - 16.

(** [Folder.build] (and [Document.build], which returns at once); [fuel]
    is the number of nested calls that are left. *)
Fixpoint Folder_build (fuel : nat) (ix : Index) (up : option string) (self : Node)
    : result Node :=
  match fuel with
  | O => Raise RecursionError
  | S fuel' =>
      let me := as_parent up self in
      chs ← mapM (fun '(uuid, metadata) =>
               let ch :=
                 if bool_decide (type_ metadata = "CollectionType")
                 then Folder ix (visibleName metadata) (Some me)
                 else
                   let nm := visibleName metadata in
                   let nm := if Str.endswith ".pdf" nm then nm else nm +:+ ".pdf" in
                   Document ix (path_name nm) (path_suffix nm) (Some me) in
               let ch := set_id ch (Some uuid) in
               match node_class ch with
               | FolderClass => Folder_build fuel' ix (Some (parent_full_path me)) ch
               | DocumentClass => Ret ch
               end)
             (map_to_list (get_metadata_by_parent ix (node_id self)));
      Ret (set_children self (children self ++ chs))
  end.

Definition build (ix : Index) (up : option string) (self : Node) : result Node :=
  match node_class self with
  | FolderClass => Folder_build build_depth ix up self
  | DocumentClass => Ret self
  end.

(** [m == 'DocumentType'] where [m] is a metadata dict: never equal. *)
Definition dict_eq_str (m : Metadata) (s : string) : bool := false.

(** Lines 745-749: the folders named before the last [/]. *)
Definition local_anchor (ix : Index) (parents : list string) : option Parent :=
  fold_left (fun up par =>
               Some (as_parent (parent_full_path <$> up) (Folder ix par up)))
            parents None.

(** Lines 741-759, one document. [get_metadata_by_name] returns the dict
    of the records of that name, keyed by uuid, and line 753 reads its
    key ['type']. *)
Definition pull_anchor (doc : string) : M World (option (option Parent * Node)) :=
  w ← get;
  let ix := index w in
  let parts := Str.split "/" doc in
  let parents := removelast parts in
  let target := List.last parts EmptyString in
  let up := local_anchor ix parents in
  match get_metadata_by_name ix target with
  | Some metadata =>
      ty ← pure_result (getitem metadata "type");
      let new_node :=
        if dict_eq_str ty "DocumentType"
        then Document ix (path_name target) (path_suffix target) up
        else Folder ix target up in
      mret (Some (up, new_node))
  | None => print (PrintCannotFind doc);; mret None
  end.

Fixpoint pull_anchors (documents : list string) : M World (list (option Parent * Node)) :=
  match documents with
  | [] => mret []
  | doc :: rest =>
      a ← pull_anchor doc;
      anchors ← pull_anchors rest;
      mret (match a with Some x => x :: anchors | None => anchors end)
  end.

(** Lines 762-765; [download] is recorded, not performed. *)
Definition pull_download (a : option Parent * Node) : M World unit :=
  let '(up, node) := a in
  w ← get;
  node' ← pure_result (build (index w) (parent_full_path <$> up) node);
  let '(_, (curbed, node'')) :=
    curb_tree (parent_full_path <$> up) node' (exclude_patterns args) in
  if curbed then mret tt
  else modify (set_downloaded (fun l => l ++ [node''])).

Definition pull_from_remarkable (documents : list string) : M World unit :=
  match if_exists args with
  | skip | overwrite =>
      anchors ← pull_anchors documents;
      for_each anchors pull_download
  | _ => raise AssertionError
  end.

(** *** The cleanup passes *)

(** [try: body except KeyError: handler] *)
Definition try_except_KeyError {S A} (body handler : M S A) : M S A := fun s =>
  match body s with
  | (Raise KeyError, s') => handler s'
  | r => r
  end.

Definition ask : M World bool :=
  if yes args then mret true
  else s ← input; mret (bool_decide (s ∈ [""; "y"; "Y"])).

(** Lines 773-775. *)
Fixpoint scan_deleted (items : list (string * Metadata)) : result (list string) :=
  match items with
  | [] => Ret []
  | (u, metadata) :: rest =>
      d ← match deleted metadata with Some d => Ret d | None => Raise KeyError end;
      found ← scan_deleted rest;
      Ret (if d : bool then u :: found else found)
  end.

Definition cleanup_deleted : M World bool :=
  print PrintRemovingTrash;;
  w ← get;
  deleted_uuids ← pure_result (scan_deleted (map_to_list (metadata_by_uuid (index w))));
  match deleted_uuids with
  | [] => print PrintNoDeleted;; mret false
  | _ =>
      ok ← ask;
      if ok : bool then ssh (RmBatch deleted_uuids) (dryrun args);; mret true
      else mret false
  end.

(** [files] is the output of the listing command. The function has no
    [return]. *)
Definition cleanup_orphaned (files : string) : M World unit :=
  print PrintRemovingOrphans;;
  ssh ListOrphans false;;
  let l := length (Str.split "010" files) in
  if l =? 1 then print PrintNoOrphans
  else if dryrun args then mret tt
  else
    ok ← ask;
    if ok : bool then ssh RmOrphans false else mret tt.

(** A line of the listing of fingerprints: [Md5Entry md5 u] when
    [line.split()] has two fields, the second a file of stem [u];
    [Md5Unreadable line] when it has not. The listing is the output of the
    command split at the newlines, so it has at least one line: without
    any fingerprint it is the one unreadable empty line. *)
Inductive Md5Line : Type :=
| Md5Entry (md5 u : string)
| Md5Unreadable (line : string).

(** Lines 816-827. *)
Fixpoint read_md5sums (results : list Md5Line)
    (database : gmap string (list string)) (duplicates : gset string)
    : M World (gmap string (list string) * gset string) :=
  match results with
  | [] => mret (database, duplicates)
  | Md5Unreadable line :: _ => print (PrintLine line);; raise ValueError
  | Md5Entry md5 u :: rest =>
      let members := default [] (database !! md5) ++ [u] in
      read_md5sums rest (<[md5 := members]> database)
        (if 2 <=? length members then {[md5]} ∪ duplicates else duplicates)
  end.

Definition Candidate : Type := Z * string * Metadata.

(** The order of [sorted(tmp, reverse=True)]: later first, then the
    larger uuid first (two candidates of one uuid are the same tuple). *)
Definition sorts_before (a b : Candidate) : Prop :=
  (a.1.1 > b.1.1)%Z ∨ (a.1.1 = b.1.1 ∧ String.le b.1.2 a.1.2).

Global Instance sorts_before_dec : RelDecision sorts_before.
Proof. intros a b. unfold sorts_before. apply _. Defined.

(** Lines 836-847. *)
Fixpoint collect_candidates (members : list string) : M World (list Candidate) :=
  match members with
  | [] => mret []
  | u :: rest =>
      w ← get;
      match get_metadata_by_uuid (index w) u with
      | None => print (PrintMetadataMissing u);; collect_candidates rest
      | Some metadata =>
          match int_of_str (lastModified metadata) with
          | None =>
              path ← pure_result (fullpath (index w) metadata);
              print (PrintLastModifiedError path);;
              raise ValueError
          | Some lastmodified =>
              tmp ← collect_candidates rest;
              mret ((lastmodified, u, metadata) :: tmp)
          end
      end
  end.

(** Lines 851-857. The date shown with a candidate is left out: the
    timestamp is taken to be one [datetime.fromtimestamp] accepts. *)
Fixpoint present_candidates (i : nat) (tmp : list Candidate) : M World unit :=
  match tmp with
  | [] => mret tt
  | (lastmodified, u, metadata) :: rest =>
      w ← get;
      path ← pure_result (fullpath (index w) metadata);
      print (PrintCandidate (bool_decide (i = 0)) i u lastmodified path);;
      present_candidates (S i) rest
  end.

(** Lines 863-888: one turn of [while True] reads one line. *)
Fixpoint select_candidate (len : nat) (lines : list string) : M World Z :=
  if len =? 1 then print PrintOnlyOneCandidate;; mret 0%Z
  else
    match lines with
    | [] => raise EOFError
    | s :: lines' =>
        modify (set_stdin (fun _ => lines'));;
        if bool_decide (s = "") then mret 0%Z
        else if bool_decide (s = "n") then mret (-1)%Z
        else if bool_decide (s = "N") then mret (-2)%Z
        else
          match int_of_str s with
          | None => print (PrintInputParsingError s);; select_candidate len lines'
          | Some i =>
              if bool_decide (0 ≤ i < Z.of_nat len)%Z then mret i
              else print (PrintEnterNumber (Z.of_nat len - 1));;
                   select_candidate len lines'
          end
    end.

(** Lines 899-904. *)
Fixpoint remove_others (keep : string) (tmp : list Candidate) : M World (list string) :=
  match tmp with
  | [] => mret []
  | (_, u, _) :: rest =>
      if bool_decide (u = keep) then remove_others keep rest
      else
        on_index (remove_uuid u);;
        ssh (RmTree u) (dryrun args);;
        removed ← remove_others keep rest;
        mret (u :: removed)
  end.

(** The body of the loop of line 831 for one fingerprint: whether the
    loop goes on ([false] after [break]) and the uuids removed. *)
Definition resolve_group (j total : nat) (md5 : string) (members : list string)
    : M World (bool * list string) :=
  print (PrintGroup j total (length members) md5);;
  presented ← try_except_KeyError
    (tmp ← collect_candidates members;
     let tmp := merge_sort sorts_before tmp in
     present_candidates 0 tmp;;
     mret (Some tmp))
    (print PrintShouldNotHappen;; mret None);
  match presented with
  | None => mret (true, [])
  | Some tmp =>
      w ← get;
      i ← select_candidate (length tmp) (stdin w);
      if bool_decide (i = -1)%Z then print PrintSkippingFile;; mret (true, [])
      else if bool_decide (i = -2)%Z then print PrintCleanupStopped;; mret (false, [])
      else
        match tmp !! Z.to_nat i with
        | None => raise IndexError
        | Some (_, keep, _) =>
            removed ← remove_others keep tmp;
            print (PrintRemoved (length tmp - 1));;
            mret (true, removed)
        end
  end.

Fixpoint resolve_groups (j total : nat) (database : gmap string (list string))
    (duplicates : list string) (deleted_uuids : list string) : M World (list string) :=
  match duplicates with
  | [] => mret deleted_uuids
  | md5 :: rest =>
      '(go_on, removed) ← resolve_group j total md5 (default [] (database !! md5));
      if go_on : bool
      then resolve_groups (S j) total database rest (deleted_uuids ++ removed)
      else mret (deleted_uuids ++ removed)
  end.

Definition cleanup_duplicates (results : list Md5Line) : M World bool :=
  print PrintComputingMd5sum;;
  ssh Md5sums false;;
  '(database, duplicates) ← read_md5sums results ∅ ∅;
  deleted_uuids ← resolve_groups 0 (size duplicates) database (elements duplicates) [];
  print (PrintRemovedTotal (length deleted_uuids));;
  mret (bool_decide (0 < length deleted_uuids)).

(** Lines 923-929: one scan of by-id, over its items in the order the
    caller enumerates them. *)
Fixpoint scan_empty (items : list (string * Metadata)) : M World (list string) :=
  match items with
  | [] => mret []
  | (u, metadata) :: rest =>
      if bool_decide (type_ metadata ≠ "CollectionType") then scan_empty rest
      else
        w ← get;
        match metadata_by_parent (index w) !! u with
        | Some _ => scan_empty rest
        | None =>
            path ← pure_result (fullpath (index w) metadata);
            print (PrintEmpty path);;
            found ← scan_empty rest;
            mret (u :: found)
        end
  end.

(** Lines 918-933: the [while empty_found] loop, at most [fuel] turns. *)
Fixpoint emptydir_loop (fuel iteration : nat) (deleted_uuids : list string)
    : M World (list string) :=
  match fuel with
  | O => raise LoopBoundExceeded
  | S fuel' =>
      print (PrintIteration iteration);;
      w ← get;
      _deleted_uuids ← scan_empty (map_to_list (metadata_by_uuid (index w)));
      for_each _deleted_uuids (fun u => on_index (remove_uuid u));;
      match _deleted_uuids with
      | [] => mret deleted_uuids
      | _ => emptydir_loop fuel' (S iteration) (deleted_uuids ++ _deleted_uuids)
      end
  end.

Definition cleanup_emptydir : M World bool :=
  w ← get;
  deleted_uuids ← emptydir_loop (S (size (metadata_by_uuid (index w)))) 1 [];
  match deleted_uuids with
  | [] => print PrintNoEmptyDirectories;; mret false
  | _ =>
      ok ← ask;
      if ok : bool then ssh (RmBatch deleted_uuids) (dryrun args);; mret true
      else mret false
  end.

(** Lines 966-972: the [clean] mode. *)
Definition clean (files : string) (results : list Md5Line)
    : M World unit :=
  r1 ← cleanup_deleted;
  cleanup_orphaned files;;
  r2 ← cleanup_duplicates results;
  r3 ← cleanup_emptydir;
  if negb (dryrun args) && (r1 || r2 || r3) then ssh RestartXochitl false
  else mret tt.

End Program.

(** * Vocabulary of the properties *)

(** Every entry of the four indices is a record [P] accepts, filed under
    its own name and parent. *)
Record index_from (P : string → Metadata → Prop) (ix : Index) : Prop := {
  from_by_uuid : ∀ u m, metadata_by_uuid ix !! u = Some m → P u m;
  from_by_name : ∀ n d u m,
    metadata_by_name ix !! n = Some d → d !! u = Some m → P u m ∧ visibleName m = n;
  from_by_parent : ∀ p d u m,
    metadata_by_parent ix !! p = Some d → d !! u = Some m → P u m ∧ parent m = Some p;
  from_by_name_and_parent : ∀ n p u m,
    metadata_by_name_and_parent ix !! (n, p) = Some (u, m) →
    P u m ∧ visibleName m = n ∧ parent m = Some p }.


(** [u] occurs somewhere in the four indices. *)
Definition indexed (ix : Index) (u : string) : Prop :=
  is_Some (metadata_by_uuid ix !! u) ∨
  (∃ n d, metadata_by_name ix !! n = Some d ∧ is_Some (d !! u)) ∨
  (∃ p d, metadata_by_parent ix !! p = Some d ∧ is_Some (d !! u)) ∨
  (∃ k m, metadata_by_name_and_parent ix !! k = Some (u, m)).

(** The nodes of a tree, the root first. *)
Fixpoint subnodes (n : Node) : list Node :=
  n :: flat_map subnodes (children n).

(** Every identity carried in the tree satisfies [P]. *)
Definition ids_in (P : string → Prop) (n : Node) : Prop :=
  Forall (fun m => ∀ v, node_id m = Some v → P v) (subnodes n).

(** The index [retrieve_metadata] leaves, from the empty dictionaries the
    module starts with. *)
Definition loaded (records : list (string * Metadata)) : Index :=
  (retrieve_metadata records empty_index).2.

(** What the specification says of [remove_uuid]: the by-id entry goes,
    the id leaves the set of its parent, by-name and by-name-and-parent
    stay. *)
Definition remove_as_stated (ix : Index) (u : string) : Prop :=
  ∀ m, metadata_by_uuid ix !! u = Some m →
  ∃ ix', remove_uuid u ix = (Ret tt, ix') ∧
    metadata_by_uuid ix' !! u = None ∧
    (∀ p d, parent m = Some p → metadata_by_parent ix' !! p = Some d → d !! u = None) ∧
    metadata_by_name ix' = metadata_by_name ix ∧
    metadata_by_name_and_parent ix' = metadata_by_name_and_parent ix.

(** The index [remove_uuid] leaves for a record filed under parent [p]
    with siblings [sib]. *)
Definition removed_from_parent (ix : Index) (u p : string) (sib : gmap string Metadata) : Index :=
  mkIndex (delete u (metadata_by_uuid ix)) (metadata_by_name ix)
          (if decide (delete u sib = ∅) then delete p (metadata_by_parent ix)
           else <[p := delete u sib]> (metadata_by_parent ix))
          (metadata_by_name_and_parent ix).

(** Sample records. *)
Definition document_md (nm p : string) : Metadata :=
  mkMetadata nm (Some p) "1700000000000" "DocumentType" (Some false).
Definition collection_md (nm p : string) : Metadata :=
  mkMetadata nm (Some p) "1700000000000" "CollectionType" (Some false).

(** *** Pruning *)

(** [curb_tree] over the children of a node of full path [up], as the
    loop of lines 293-296 runs it. *)
Fixpoint curb_list `{Library} (up : string) (chs : list Node) (excludelist : list string)
    : list string * list Node :=
  match chs with
  | [] => ([], [])
  | ch :: rest =>
      let '(v1, (curbed, ch')) := curb_tree (Some up) ch excludelist in
      let '(v2, uncurbed_children) := curb_list up rest excludelist in
      (v1 ++ v2, if curbed then uncurbed_children else ch' :: uncurbed_children)
  end.

(** The occurrences of nodes in a tree, the root first: each with the full
    paths of the nodes from the root of the pass down to it (after those
    in [above]), and the node itself without its children. *)
Fixpoint occurrences (up : option string) (above : list string) (n : Node)
    : list (list string * Node) :=
  let path := get_full_path up n in
  (above ++ [path], set_children n [])
    :: flat_map (occurrences (Some path) (above ++ [path])) (children n).

(** No pattern matches any of the paths. *)
Definition unmatched `{Library} (excludelist : list string) (paths : list string) : bool :=
  forallb (fun p => negb (excluded excludelist p)) paths.

(** An occurrence outside the matched subtrees: neither the node nor a
    node above it matches. *)
Definition outside_matched `{Library} (excludelist : list string)
    (o : list string * Node) : bool :=
  unmatched excludelist o.1.

(** An occurrence strictly below no matched node: no node above it
    matches. *)
Definition below_no_match `{Library} (excludelist : list string)
    (o : list string * Node) : bool :=
  unmatched excludelist (removelast o.1).

(** What the callers of [curb_tree] see of a pass over [node]. *)
Record curb_result : Type := mkCurbResult {
  curb_visited : list string;
  curb_excluded : bool;
  curb_node : Node }.

Definition curb `{Library} (up : option string) (node : Node) (excludelist : list string)
    : curb_result :=
  let '(v, (b, n)) := curb_tree up node excludelist in mkCurbResult v b n.

(** The full path of the node of an occurrence. *)
Definition occurrence_path (o : list string * Node) : string :=
  default "" (last o.1).

(** *** A library for the examples *)

Fixpoint decimal_go (s : string) (acc : Z) : option Z :=
  match s with
  | EmptyString => Some acc
  | String c s' =>
      match Ascii.is_nat c with
      | Some d => decimal_go s' (10 * acc + Z.of_nat d)%Z
      | None => None
      end
  end.

(** [int(s)] on the strings of decimal digits. *)
Definition decimal (s : string) : option Z :=
  match s with
  | EmptyString => None
  | _ => decimal_go s 0%Z
  end.

Fixpoint extension_go (reversed : string) (acc : string) : string :=
  match reversed with
  | EmptyString => EmptyString
  | String c rest =>
      if bool_decide (c = "."%char)
      then match rest with EmptyString => EmptyString | _ => String "." acc end
      else extension_go rest (String c acc)
  end.

(** The library on the inputs of the examples: patterns without
    metacharacters, which [re.match] finds exactly at the start of the
    text; numerals in decimal digits; names without [/]. *)
Definition example_library : Library := {|
  re_match := Str.startswith;
  int_of_str := decimal;
  uuid4 := fun n => "generated-" +:+ pretty n;
  path_name := fun s => List.last (Str.split "/" s) EmptyString;
  path_suffix := fun s => extension_go (String.rev s) EmptyString |}.

Definition world_of (ix : Index) (lines : list string) : World :=
  mkWorld ix lines [] [] 0 [].

(** *** Push policies *)

(** The record [Node.__init__] resolves a name to. *)
Definition resolves_to (ix : Index) (nm : string) (parent : option Parent)
    : option (string * Metadata) :=
  match parent with
  | None => get_metadata_by_name_and_parent ix nm (Some "")
  | Some p => get_metadata_by_name_and_parent ix nm (parent_id p)
  end.

(** The triple (identity, pendingModification, existsRemotely). *)
Definition triple (n : Node) : option string * bool * bool :=
  (node_id n, gets_modified n, node_exists n).

(** What the specification says each policy gives a document that
    resolves: under [overwrite] and [doconly] the identity is discarded. *)
Definition policy_as_stated `{Library} (args : Args) (w : World) (path nm : string)
    (parent : option Parent) : Prop :=
  ∀ uuid md,
    resolves_to (index w) nm parent = Some (uuid, md) →
    supported_suffix (path_suffix nm) = true →
    ∃ node w',
      construct_node_tree_from_disk args path (FsFile nm) parent w = (Ret (Some node), w') ∧
      match if_exists args with
      | skip => triple node = (Some uuid, false, true)
      | overwrite | doconly => triple node = (None, true, false)
      | duplicate => ∃ d, triple node = (Some d, false, false) ∧ ¬ indexed (index w) d
      end.

(** *** Removal *)

(** [u] is listed among the children of [p]. *)
Definition listed_under (ix : Index) (p u : string) : Prop :=
  ∃ d, metadata_by_parent ix !! p = Some d ∧ is_Some (d !! u).

(** [ix'] holds nothing in by-id and by-parent that [ix] does not. *)
Record index_shrinks (ix ix' : Index) : Prop := {
  shrinks_by_uuid : ∀ u m,
    metadata_by_uuid ix' !! u = Some m → metadata_by_uuid ix !! u = Some m;
  shrinks_by_parent : ∀ p u, listed_under ix' p u → listed_under ix p u;
  shrinks_by_parent_key : ∀ p,
    is_Some (metadata_by_parent ix' !! p) → is_Some (metadata_by_parent ix !! p) }.

(** *** Effects of the cleanup passes *)

(** From [w] to [w'] the program printed [out], sent [cmds] to the
    device and read [lines]; it generated no identifier and downloaded
    nothing, and the indices only lost entries. *)
Record effects (w w' : World) (out : list Output) (cmds : list SshCommand)
    (lines : list string) : Prop := {
  eff_stdout : stdout w' = stdout w ++ out;
  eff_ssh : ssh_log w' = ssh_log w ++ cmds;
  eff_stdin : stdin w = lines ++ stdin w';
  eff_uuid_count : uuid_count w' = uuid_count w;
  eff_downloaded : downloaded w' = downloaded w;
  eff_index : index_shrinks (index w) (index w') }.

(** The test of lines 924-926 on one entry of by-id. *)
Definition is_empty_collection (ix : Index) (e : string * Metadata) : bool :=
  bool_decide (type_ e.2 = "CollectionType") &&
  bool_decide (metadata_by_parent ix !! e.1 = None).

(** The empty collections of an index, as a scan enumerates them. *)
Definition empty_collections (ix : Index) : list (string * Metadata) :=
  List.filter (is_empty_collection ix) (map_to_list (metadata_by_uuid ix)).

(** A command that removes files from the device. *)
Definition is_removal (c : SshCommand) : bool :=
  match c with
  | RmBatch _ | RmOrphans | RmTree _ => true
  | ListOrphans | Md5sums | RestartXochitl => false
  end.

(** What the specification's reading of the declined confirmation says:
    the pass answers [False], sends nothing, and the uuids the loop
    collected are gone from by-id and from by-parent. *)
Definition declined_as_stated (args : Args) (w : World) : Prop :=
  ∀ deleted_uuids w1 s rest,
    yes args = false →
    emptydir_loop (S (size (metadata_by_uuid (index w)))) 1 [] w = (Ret deleted_uuids, w1) →
    deleted_uuids ≠ [] →
    stdin w1 = s :: rest → s ∉ [""; "y"; "Y"] →
    ∃ w', cleanup_emptydir args w = (Ret false, w') ∧
      ssh_log w' = ssh_log w ∧
      ∀ u, u ∈ deleted_uuids →
        metadata_by_uuid (index w') !! u = None ∧
        ∀ p, ¬ listed_under (index w') p u.

(** *** Duplicates *)

(** The candidates lines 836-847 gather when no timestamp fails to parse:
    the members found in by-id, in the order of the listing. *)
Fixpoint candidates_of `{Library} (ix : Index) (members : list string) : list Candidate :=
  match members with
  | [] => []
  | u :: rest =>
      match get_metadata_by_uuid ix u with
      | Some metadata =>
          match int_of_str (lastModified metadata) with
          | Some lastmodified => (lastmodified, u, metadata) :: candidates_of ix rest
          | None => candidates_of ix rest
          end
      | None => candidates_of ix rest
      end
  end.

(** What the specification says of the restart in [clean] mode: it is
    sent exactly when some pass of the four removed something. *)
Definition restart_as_stated `{Library} (args : Args) (files : string)
    (results : list Md5Line) (w : World) : Prop :=
  ∀ w' cmds,
    clean args files results w = (Ret tt, w') →
    dryrun args = false →
    ssh_log w' = ssh_log w ++ cmds →
    (RestartXochitl ∈ cmds ↔ existsb is_removal cmds = true).

(** Lines 833-861 of the loop body: gathering, sorting and presenting the
    candidates of one fingerprint; [None] when the group is given up. *)
Definition present_group `{Library} (members : list string)
    : M World (option (list Candidate)) :=
  try_except_KeyError
    (tmp ← collect_candidates members;
     let tmp := merge_sort sorts_before tmp in
     present_candidates 0 tmp;;
     mret (Some tmp))
    (print PrintShouldNotHappen;; mret None).

(** The listing of two files without metadata, one per line. *)
Definition two_orphans : string :=
  "0a1b.pdf" +:+ String "010"%char "0a1b.thumbnails".

(** Sample records with a given timestamp. *)
Definition document_at (nm p lastmodified : string) : Metadata :=
  mkMetadata nm (Some p) lastmodified "DocumentType" (Some false).
Definition trashed_md (nm : string) : Metadata :=
  mkMetadata nm (Some "trash") "1700000000000" "DocumentType" (Some false).

(** *** A chain of nested collections *)

(** Collection [i] (from 1) of the chain: collection 1 is at the root and
    collection [i + 1] is the only child of collection [i]. *)
Definition chain_uuid (i : nat) : string := "c" +:+ pretty i.
Definition chain_name (i : nat) : string := "folder" +:+ pretty i.
Definition chain_parent (i : nat) : string :=
  match i with
  | 0 | 1 => EmptyString
  | S i' => chain_uuid i'
  end.
Definition chain_md (i : nat) : Metadata :=
  collection_md (chain_name i) (chain_parent i).
Definition chain_records (n : nat) : list (string * Metadata) :=
  (fun i => (chain_uuid i, chain_md i)) <$> seq 1 n.
Arguments chain_uuid : simpl never.
Arguments chain_name : simpl never.
Arguments chain_parent : simpl never.
Arguments chain_md : simpl never.

(** The full path of collection [k]. *)
Fixpoint chain_path (k : nat) : string :=
  match k with
  | 0 => EmptyString
  | S k' => chain_path k' +:+ "/" +:+ chain_name k
  end.

(** The uuids of collections [k], [k - 1], ..., 1. *)
Fixpoint chain_innermost_first (k : nat) : list string :=
  match k with
  | 0 => []
  | S k' => chain_uuid k :: chain_innermost_first k'
  end.

(** What the loop prints from iteration [iteration] on when [k]
    collections are left: one empty collection per turn, and the last
    turn, which finds none. *)
Fixpoint chain_trace (iteration k : nat) : list Output :=
  match k with
  | 0 => [PrintIteration iteration]
  | S k' =>
      PrintIteration iteration :: PrintEmpty (chain_path k)
        :: chain_trace (S iteration) k'
  end.

(** By-id of the chain of [k] collections. *)
Fixpoint chain_by_uuid (k : nat) : gmap string Metadata :=
  match k with
  | 0 => ∅
  | S k' => <[chain_uuid k := chain_md k]> (chain_by_uuid k')
  end.

(** The index holds the chain of [k] collections, as far as the pass
    reads it: by-id, and the by-parent entries of the collections. *)
Record chain_left (k : nat) (ix : Index) : Prop := {
  chain_left_by_uuid : metadata_by_uuid ix = chain_by_uuid k;
  chain_left_by_parent : ∀ i, 1 ≤ i →
    metadata_by_parent ix !! chain_uuid i =
    if decide (i < k) then Some {[ chain_uuid (S i) := chain_md (S i) ]} else None }.

Definition is_iteration_line (o : Output) : bool :=
  match o with
  | PrintIteration _ => true
  | _ => false
  end.

Definition is_empty_line (o : Output) : bool :=
  match o with
  | PrintEmpty _ => true
  | _ => false
  end.

(** What the specification says of the chain of [n] collections: the
    loop removes [n] collections in [n] turns, a turn being a line
    [iteration i] of the output. *)
Definition turns_as_stated (n : nat) : Prop :=
  ∀ lines deleted_uuids w',
    let w := world_of (loaded (chain_records n)) lines in
    emptydir_loop (S (size (metadata_by_uuid (index w)))) 1 [] w
      = (Ret deleted_uuids, w') →
    length deleted_uuids = n ∧
    length (List.filter is_iteration_line (stdout w')) = n.

(** *** Identities in the trees *)

(** The loop of lines 604-607 over the entries of a directory. *)
Definition construct_listdir `{Library} (args : Args) (path : string) (me : Parent)
    : list FsEntry → list Node → M World (list Node) :=
  fix listdir (fs : list FsEntry) (chs : list Node) : M World (list Node) :=
    match fs with
    | [] => mret chs
    | f :: rest =>
        child ← construct_node_tree_from_disk args (path +:+ "/" +:+ entry_name f) f (Some me);
        match child with
        | Some c => listdir rest (chs ++ [c])
        | None => listdir rest chs
        end
    end.

(** An identity that is in the index or that [uuid4] returned. *)
Definition known `{Library} (ix : Index) (v : string) : Prop :=
  indexed ix v ∨ ∃ k, v = uuid4 k.
(** * The rest of the program

    The functions the passes above leave out: writing the transfer
    directory ([construct_metadata], [render_common], [Document.render],
    [Folder.render]), the listing [print_tree], [get_toplevel_files] with
    the [backup] mode, and [download]. *)

(** ** Exceptions and outcomes *)

(** The exceptions above, and those only the functions below raise. *)
Inductive exception : Type :=
| Exn (e : exn)
| TypeError
| NameError
| FileExistsError
| IsADirectoryError
| SystemExit (status : Z)
| Exception (msg : string).

Inductive outcome (A : Type) : Type :=
| Done (a : A)
| Failed (e : exception).
Arguments Done {A} a.
Arguments Failed {A} e.

Definition outcome_of_result {A} (r : result A) : outcome A :=
  match r with
  | Ret a => Done a
  | Raise e => Failed (Exn e)
  end.

(** The state-and-exception monad over these exceptions. *)
Definition MX (S A : Type) : Type := S → outcome A * S.

Global Instance MX_ret {S} : MRet (MX S) := fun A a s => (Done a, s).
Global Instance MX_bind {S} : MBind (MX S) := fun A B k m s =>
  match m s with
  | (Done a, s') => k a s'
  | (Failed e, s') => (Failed e, s')
  end.

Definition failure {S A} (e : exception) : MX S A := fun s => (Failed e, s).

(** A computation that reads the state and may fail. *)
Definition reading {S A} (f : S → outcome A) : MX S A := fun s => (f s, s).

(** A computation of the passes above, run as it is. *)
Definition earlier {S A} (m : M S A) : MX S A := fun s =>
  let '(r, s') := m s in (outcome_of_result r, s').

(** ** [get_toplevel_files] and the [backup] mode *)

(** [u, md = key] for a string [key]: its two characters, when it has
    exactly two. *)
Definition unpack_pair (key : string) : outcome (string * string) :=
  match key with
  | String u (String md EmptyString) => Done (String u EmptyString, String md EmptyString)
  | _ => Failed (Exn ValueError)
  end.

(** [md[key]] for two strings: a string is not indexed by a string. *)
Definition str_getitem (md key : string) : outcome string := Failed TypeError.

(** The loop of lines 543-544: iterating the dict returned by
    [get_metadata_by_parent] yields its keys. *)
Fixpoint toplevel_loop (keys : list string) (toplevel_files : list string)
    : outcome (list string) :=
  match keys with
  | [] => Done toplevel_files
  | key :: rest =>
      match unpack_pair key with
      | Failed e => Failed e
      | Done (u, md) =>
          match str_getitem md "visibleName" with
          | Failed e => Failed e
          | Done visible_name => toplevel_loop rest (toplevel_files ++ [visible_name])
          end
      end
  end.

Definition get_toplevel_files (ix : Index) : outcome (list string) :=
  toplevel_loop (map_to_list (get_metadata_by_parent ix (Some ""))).*1 [].

(** Lines 962-964. *)
Definition backup `{Library} (args : Args) : MX World unit :=
  documents ← reading (fun w => get_toplevel_files (index w));
  earlier (pull_from_remarkable args documents).

(** ** The transfer directory *)

(** A JSON value, as far as [construct_metadata] writes one. *)
Inductive Json : Type :=
| JNull
| JBool (b : bool)
| JInt (z : Z)
| JStr (s : string).

(** A dict with string keys, in insertion order. *)
Definition JsonObject : Type := list (string * Json).

(** [d[k]] when [k in d]. *)
Fixpoint dict_get (k : string) (d : JsonObject) : option Json :=
  match d with
  | [] => None
  | (k', v) :: rest => if decide (k = k') then Some v else dict_get k rest
  end.

(** [d[k] = v]: a key that is there keeps its place. *)
Fixpoint dict_set (k : string) (v : Json) (d : JsonObject) : JsonObject :=
  match d with
  | [] => [(k, v)]
  | (k', v') :: rest =>
      if decide (k = k') then (k, v) :: rest else (k', v') :: dict_set k v rest
  end.

(** [construct_metadata(filetype, name, parent_id)]; [now] is
    [int(time.time()*1000)], and [parent_id] is [None] when the caller
    passes a [parent.id] that is [None]. *)
Definition construct_metadata (now : Z) (filetype name : string)
    (parent_id : option string) : JsonObject :=
  let last_modified := JStr (pretty now) in
  let meta := [
    ("visibleName", JStr name);
    ("parent", match parent_id with Some p => JStr p | None => JNull end);
    ("lastModified", last_modified);
    ("metadatamodified", JBool false);
    ("modified", JBool false);
    ("pinned", JBool false);
    ("synced", JBool false);
    ("type", JStr "CollectionType");
    ("version", JInt 0);
    ("deleted", JBool false) ] in
  if bool_decide (filetype ∈ ["pdf"; "epub"]) then
    let meta := dict_set "type" (JStr "DocumentType") meta in
    let meta := dict_set "lastOpened" last_modified meta in
    dict_set "lastOpenedPage" (JInt 0) meta
  else meta.

(** What the program reads of a [.metadata] file once it is parsed: the
    record of the keys it looks up, when their values have the types the
    program compares them with. *)
Definition read_metadata (d : JsonObject) : option Metadata :=
  match dict_get "visibleName" d, dict_get "lastModified" d, dict_get "type" d with
  | Some (JStr visible_name), Some (JStr last_modified), Some (JStr ty) =>
      match dict_get "parent" d, dict_get "deleted" d with
      | (None | Some (JStr _)) as p, (None | Some (JBool _)) as del =>
          Some (mkMetadata visible_name
                  (match p with Some (JStr s) => Some s | _ => None end)
                  last_modified ty
                  (match del with Some (JBool b) => Some b | _ => None end))
      | _, _ => None
      end
  | _, _, _ => None
  end.

(** A step that changes the transfer directory [prepdir], by the name of
    the entry inside it. *)
Inductive PrepOp : Type :=
| MetadataFile (id : string) (metadata : JsonObject)  (* json.dump to {id}.metadata *)
| ContentFile (id : string)                           (* json.dump({}) to {id}.content *)
| Directory (name : string)                           (* os.makedirs *)
| CopyOf (id filetype : string).                      (* shutil.copy(self.doc, {id}.{filetype}) *)

(** The state [render] works on: the world (for [gen_did]), the steps
    taken in the transfer directory, in order, and the number of times the
    clock was read. The directory holds what the steps made, those of an
    earlier run included when [--transfer-dir] names a directory that was
    used before. The documents are taken to be readable and the disk to
    have room. *)
Record Transfer : Type := mkTransfer {
  world : World;
  prepdir : list PrepOp;
  clock : nat }.

(** The name of the entry of the transfer directory a step makes or
    writes. *)
Definition op_name (op : PrepOp) : string :=
  match op with
  | MetadataFile id _ => id +:+ ".metadata"
  | ContentFile id => id +:+ ".content"
  | Directory name => name
  | CopyOf id filetype => id +:+ "." +:+ filetype
  end.

(** The names of the directories among the entries. *)
Definition directories (ops : list PrepOp) : list string :=
  omap (fun op => match op with
                  | Directory name => Some name
                  | _ => None
                  end) ops.

(** Whether the transfer directory has an entry, and a directory, of that
    name. [new] tells that the name is made from the identifier [gen_did]
    returned in this very call: a random UUID, taken to name nothing that
    is there. *)
Definition path_exists (new : bool) (name : string) (t : Transfer) : bool :=
  negb new && bool_decide (name ∈ op_name <$> prepdir t).
Definition path_isdir (new : bool) (name : string) (t : Transfer) : bool :=
  negb new && bool_decide (name ∈ directories (prepdir t)).

Definition on_world {A} (m : M World A) : MX Transfer A := fun t =>
  let '(r, w) := m (world t) in
  (outcome_of_result r, mkTransfer w (prepdir t) (clock t)).

Definition record_op (op : PrepOp) : MX Transfer unit := fun t =>
  (Done tt, mkTransfer (world t) (prepdir t ++ [op]) (clock t)).

(** [open(name, 'w')]: a file that is there is written anew, a directory
    is refused. *)
Definition open_for_writing (new : bool) (name : string) : MX Transfer unit := fun t =>
  if path_isdir new name t then (Failed IsADirectoryError, t) else (Done tt, t).

(** [os.makedirs(name)], without [exist_ok]: a name that is there is
    refused. *)
Definition makedirs (new : bool) (name : string) : MX Transfer unit := fun t =>
  if path_exists new name t then (Failed FileExistsError, t)
  else record_op (Directory name) t.

Section Render.

Context `{Library}.

(** [int(time.time()*1000)] at the n-th reading of the clock. *)
Variable time_ms : nat → Z.

Definition read_clock : MX Transfer Z := fun t =>
  (Done (time_ms (clock t)), mkTransfer (world t) (prepdir t) (S (clock t))).

(** [Node.render_common]. [parent] is [None] when [self.parent] is, and
    holds [self.parent.id] otherwise. The identifier the node has
    afterwards is returned. *)
Definition render_common (parent : option (option string)) (self : Node)
    : MX Transfer string :=
  let new := bool_decide (node_id self = None) in
  id ← match node_id self with
       | None => on_world gen_did
       | Some id => mret id
       end;
  open_for_writing new (id +:+ ".metadata");;
  now ← read_clock;
  let metadata :=
    match parent with
    | Some parent_id => construct_metadata now (filetype self) (name self) parent_id
    | None => construct_metadata now (filetype self) (name self) (Some "")
    end in
  record_op (MetadataFile id metadata);;
  open_for_writing new (id +:+ ".content");;
  record_op (ContentFile id);;
  mret id.

(** [Document.render]. [shutil.copy] writes the file anew when it is
    there. *)
Definition Document_render (parent : option (option string)) (self : Node)
    : MX Transfer Node :=
  if node_exists self then mret self
  else
    let new := bool_decide (node_id self = None) in
    id ← render_common parent self;
    makedirs new id;;
    makedirs new (id +:+ ".thumbnails");;
    record_op (CopyOf id (filetype self));;
    mret (set_id self (Some id)).

(** [node.render(prepdir)]: [Folder.render] and [Document.render]. Where
    line 633 replaced [node.render] by a function of two arguments stored
    on the instance, the call passes one, [prepdir]. The node is updated
    in place in the program and returned here. *)
Fixpoint render (parent : option (option string)) (self : Node) : MX Transfer Node :=
  if render_doc_only self then failure TypeError
  else
    match node_class self with
    | DocumentClass => Document_render parent self
    | FolderClass =>
        self' ← (if node_exists self then mret self
                 else id ← render_common parent self; mret (set_id self (Some id)));
        let fix render_children (chs : list Node) : MX Transfer (list Node) :=
          match chs with
          | [] => mret []
          | ch :: rest =>
              ch' ← render (Some (node_id self')) ch;
              rest' ← render_children rest;
              mret (ch' :: rest')
          end in
        chs ← render_children (children self);
        mret (set_children self' chs)
    end.

(** Lines 699-700: [for r in root: r.render(args.prepdir)]. *)
Fixpoint render_roots (root : list Node) : MX Transfer (list Node) :=
  match root with
  | [] => mret []
  | r :: rest =>
      r' ← render None r;
      rest' ← render_roots rest;
      mret (r' :: rest')
  end.

End Render.

(** The loop of lines 490-491 over the children of a folder whose
    identifier is [parent_id]. *)
Fixpoint render_list `{Library} (time_ms : nat → Z) (parent_id : option string)
    (chs : list Node) : MX Transfer (list Node) :=
  match chs with
  | [] => mret []
  | ch :: rest =>
      ch' ← render time_ms (Some parent_id) ch;
      rest' ← render_list time_ms parent_id rest;
      mret (ch' :: rest')
  end.

(** ** [print_tree] *)

Fixpoint spaces (n : nat) : string :=
  match n with
  | 0 => EmptyString
  | S n' => String " " (spaces n')
  end.

(** [s.ljust(width)] *)
Definition ljust (s : string) (width : Z) : string :=
  s +:+ spaces (Z.to_nat (width - Z.of_nat (String.length s))).

Fixpoint str_take (n : nat) (s : string) : string :=
  match n, s with
  | S n', String c s' => String c (str_take n' s')
  | _, _ => EmptyString
  end.

(** [s[:k]]: a negative [k] counts from the end. *)
Definition slice_to (s : string) (k : Z) : string :=
  if (k <? 0)%Z then str_take (Z.to_nat (Z.of_nat (String.length s) + k)) s
  else str_take (Z.to_nat k) s.

Section PrintTree.

(** [shutil.get_terminal_size().columns] and [termcolor.colored] (the
    identity when the module is missing). *)
Variable columns : Z.
Variable colored : string → string → string.

(** The note of a node, as printed, and its length before colouring. *)
Definition tree_note (node : Node) : string * Z :=
  if gets_modified node then
    let note := " | !!! gets modified !!!" in
    (colored note "red", Z.of_nat (String.length note))
  else if node_exists node then
    let note := " | exists already" in
    (colored note "green", Z.of_nat (String.length note))
  else
    let note := " | upload" in
    (note, Z.of_nat (String.length note)).

(** The lines [print_tree(node, padding)] prints, in order. *)
Fixpoint print_tree (node : Node) (padding : string) : list string :=
  let '(note, notelen) := tree_note node in
  let line := padding +:+ name node in
  let line :=
    if (columns - notelen <? Z.of_nat (String.length line))%Z
    then slice_to line (columns - notelen - 3) +:+ "..."
    else line in
  let line := ljust line (columns - notelen) in
  (line +:+ note)
    :: flat_map (fun ch => print_tree ch (padding +:+ "  ")) (children node).

End PrintTree.

(** ** [download] *)

(** What [download] does, step by step. A step that asks the local file
    system or the device goes on according to the answer; a step that the
    file system refuses ends the program there. *)
Inductive Download : Type :=
| Returns
| Raises (e : exception)
| PrintDownloadingTo (path : string) (next : Download)
| PrintCreatingDirectory (path : string) (next : Download)
| PrintAlreadyExists (filename : string) (next : Download)
| PrintUrlError (next : Download)
| Chdir (targetdir : string) (next : Download)
| Makedirs (name : string) (next : Download)       (* exist_ok=True *)
| PathExists (filename : string) (next : bool → Download)
| UrlOpen (id : option string) (next : bool → Download)  (* [false]: URLError *)
| SaveAs (filename : string) (next : Download).

(** The module binds no global [if_exists] (the option is
    [args.if_exists]), so reading the name at line 464 raises. *)
Definition global_if_exists : option string := None.

Section DownloadOf.

Variable args : Args.

(** [targetdir / name] *)
Variable joinpath : string → string → string.

(** [node.download(targetdir)] followed by [next]: [Document.download]
    and [Folder.download]. *)
Fixpoint download (self : Node) (targetdir : string) (next : Download) : Download :=
  match node_class self with
  | DocumentClass =>
      if dryrun args then PrintDownloadingTo (joinpath targetdir (name self)) next
      else
        Chdir targetdir
          (let filename :=
             if Str.endswith ".pdf" (Str.lower (name self)) then name self
             else name self +:+ ".pdf" in
           PathExists filename (fun found =>
             if found : bool then
               match global_if_exists with
               | None => Raises NameError
               | Some if_exists =>
                   if bool_decide (if_exists = "skip")
                   then PrintAlreadyExists filename next
                   else if bool_decide (if_exists = "overwrite")
                   then UrlOpen (node_id self) (fun answered =>
                          if answered : bool then SaveAs filename next
                          else PrintUrlError (Raises (SystemExit 2)))
                   else Raises (Exception "huh?")
               end
             else next))
  | FolderClass =>
      let fix download_children (chs : list Node) : Download :=
        match chs with
        | [] => next
        | ch :: rest =>
            download ch (joinpath targetdir (name self)) (download_children rest)
        end in
      if dryrun args
      then PrintCreatingDirectory (joinpath targetdir (name self))
             (download_children (children self))
      else Chdir targetdir (Makedirs (name self) (download_children (children self)))
  end.

End DownloadOf.

(** * Vocabulary of the further properties *)

(** Some run of the steps requests a document from the device or saves
    one. *)
Fixpoint fetches (d : Download) : Prop :=
  match d with
  | Returns | Raises _ => False
  | PrintDownloadingTo _ next | PrintCreatingDirectory _ next
  | PrintAlreadyExists _ next | PrintUrlError next
  | Chdir _ next | Makedirs _ next => fetches next
  | PathExists _ next => fetches (next true) ∨ fetches (next false)
  | UrlOpen _ _ | SaveAs _ _ => True
  end.

(** Some run of the steps, in which no step is refused, ends by [r]:
    [os.path.exists] and the device may answer either way each time. *)
Fixpoint may_end (d : Download) (r : outcome unit) : Prop :=
  match d with
  | Returns => r = Done tt
  | Raises e => r = Failed e
  | PrintDownloadingTo _ next | PrintCreatingDirectory _ next
  | PrintAlreadyExists _ next | PrintUrlError next
  | Chdir _ next | Makedirs _ next | SaveAs _ next => may_end next r
  | PathExists _ next | UrlOpen _ next => may_end (next true) r ∨ may_end (next false) r
  end.

(** The keys of by-name-and-parent the records ask for, in order: one per
    record that is not skipped and has a parent. *)
Definition filing_keys (records : list (string * Metadata)) : list (string * string) :=
  omap (fun e : string * Metadata =>
          if skipped e.2 then None
          else (fun p => (visibleName e.2, p)) <$> parent e.2) records.

(** The four lookups find the record [m] of identifier [u] and parent [p]. *)
Record found_everywhere (ix : Index) (u : string) (m : Metadata) (p : string) : Prop := {
  found_by_uuid : get_metadata_by_uuid ix u = Some m;
  found_by_name :
    ∃ d, get_metadata_by_name ix (visibleName m) = Some d ∧ d !! u = Some m;
  found_by_parent : get_metadata_by_parent ix (Some p) !! u = Some m;
  found_by_name_and_parent :
    get_metadata_by_name_and_parent ix (visibleName m) (Some p) = Some (u, m) }.

(** The number of occurrences of a character in a string. *)
Fixpoint str_count (c : ascii) (s : string) : nat :=
  match s with
  | EmptyString => 0
  | String c' s' => (if bool_decide (c' = c) then 1 else 0) + str_count c s'
  end.

(** The files of fingerprint [md5] in a listing of (fingerprint, file)
    pairs, in the order of the listing. *)
Definition files_of (entries : list (string * string)) (md5 : string) : list string :=
  (List.filter (fun e : string * string => bool_decide (e.1 = md5)) entries).*2.

(** The listing as [read_md5sums] gets it when every line is readable. *)
Definition readable (entries : list (string * string)) : list Md5Line :=
  (fun e : string * string => Md5Entry e.1 e.2) <$> entries.

(** An entry of the disk that holds a file the push accepts. *)
Fixpoint uploadable `{Library} (entry : FsEntry) : bool :=
  match entry with
  | FsDir _ entries => existsb uploadable entries
  | FsFile nm => supported_suffix (path_suffix nm)
  | FsOther _ => false
  end.

(** Every folder of the tree has a child, and no document has one. *)
Definition no_empty_folder (n : Node) : Prop :=
  Forall (fun m => match node_class m with
                   | FolderClass => children m ≠ []
                   | DocumentClass => children m = []
                   end) (subnodes n).

(** A node the device does not have yet: no identifier, to be uploaded. *)
Definition new_node (m : Node) : Prop :=
  node_id m = None ∧ node_exists m = false ∧ gets_modified m = false ∧
  render_doc_only m = false.

(** Below a node without identifier, every node is new. *)
Definition new_below_new (n : Node) : Prop :=
  Forall (fun m => node_id m = None → Forall new_node (subnodes m)) (subnodes n).

(** From [w] to [w'] the program may have printed and generated
    identifiers, the latter only under [--if-exists duplicate]; the index,
    standard input, the commands sent and the downloads are as they
    were. *)
Record building (args : Args) (w w' : World) : Prop := {
  building_index : index w' = index w;
  building_stdin : stdin w' = stdin w;
  building_ssh_log : ssh_log w' = ssh_log w;
  building_downloaded : downloaded w' = downloaded w;
  building_uuid_count : uuid_count w ≤ uuid_count w';
  building_no_uuid : if_exists args ≠ duplicate → uuid_count w' = uuid_count w }.

(** The node [Folder.build] makes for the record [e] filed under a
    folder: a folder of the record's name, or a document named after the
    record, with [.pdf] appended when the name does not end so; in both
    cases with the identifier of the record. *)
Definition node_of_record `{Library} (e : string * Metadata) (ch : Node) : Prop :=
  node_id ch = Some e.1 ∧
  if bool_decide (type_ e.2 = "CollectionType")
  then node_class ch = FolderClass ∧ name ch = visibleName e.2
  else node_class ch = DocumentClass ∧ children ch = [] ∧
       name ch = path_name (if Str.endswith ".pdf" (visibleName e.2)
                            then visibleName e.2 else visibleName e.2 +:+ ".pdf").

(** The children [chs] are the nodes of the records filed under the
    identifier [id], one for each, in some order. *)
Definition filed_under `{Library} (ix : Index) (id : option string) (chs : list Node)
    : Prop :=
  ∃ records, records ≡ₚ map_to_list (get_metadata_by_parent ix id) ∧
             Forall2 node_of_record records chs.

(** The node is as the index has it: under a folder, the records filed
    under its identifier; under a document, nothing. *)
Definition mirrors `{Library} (ix : Index) (m : Node) : Prop :=
  match node_class m with
  | FolderClass => filed_under ix (node_id m) (children m)
  | DocumentClass => children m = []
  end.

(** Below the identifier [id], collections are filed in collections at
    most [d] deep: none for [d = 0]. *)
Fixpoint nests_within (ix : Index) (d : nat) (id : option string) : Prop :=
  ∀ u m, get_metadata_by_parent ix id !! u = Some m → type_ m = "CollectionType" →
    match d with
    | 0 => False
    | S d' => nests_within ix d' (Some u)
    end.

(** What a pull leaves as it was. *)
Definition pull_keeps (w w' : World) : Prop :=
  index w' = index w ∧ stdin w' = stdin w ∧ ssh_log w' = ssh_log w ∧
  uuid_count w' = uuid_count w.

(** The value [render_common] writes under the key [parent]. *)
Definition parent_written (parent : option (option string)) : option string :=
  match parent with
  | Some parent_id => parent_id
  | None => Some ""
  end.

(** The nodes [render] visits, the root first: a folder and the nodes
    visited from its children, a document alone. *)
Fixpoint visited (n : Node) : list Node :=
  n :: match node_class n with
       | FolderClass => flat_map visited (children n)
       | DocumentClass => []
       end.

(** The visited nodes, each with what it reads through [self.parent]:
    [None] without a parent, the identifier of the parent otherwise. *)
Fixpoint placed (parent : option (option string)) (n : Node)
    : list (option (option string) * Node) :=
  (parent, n) :: match node_class n with
                 | FolderClass => flat_map (placed (Some (node_id n))) (children n)
                 | DocumentClass => []
                 end.

Definition is_metadata_file (op : PrepOp) : bool :=
  match op with
  | MetadataFile _ _ => true
  | _ => false
  end.

(** The step [op] writes the metadata of the node [pm.2], placed under
    [pm.1]: under the identifier of the node, with its name, with the type
    its file type gives, and with the identifier of its parent. *)
Definition writes_metadata_of (op : PrepOp) (pm : option (option string) * Node) : Prop :=
  ∃ id now,
    node_id pm.2 = Some id ∧
    op = MetadataFile id
           (construct_metadata now (filetype pm.2) (name pm.2) (parent_written pm.1)).

(** The nodes [render] has to write: those that do not exist. *)
Definition to_upload (parent : option (option string)) (n : Node)
    : list (option (option string) * Node) :=
  List.filter (fun pm : option (option string) * Node => negb (node_exists pm.2))
    (placed parent n).

(** What [render] leaves of a node, and the metadata files it writes:
    the node keeps its name, class, file type and existence flag, and the
    identifier it had; a node that does not exist has an identifier
    afterwards; the metadata files written are, in order, those of the
    visited nodes that do not exist. *)
Definition render_result (parent : option (option string)) (n : Node) (t : Transfer)
    (n' : Node) (t' : Transfer) : Prop :=
  node_exists n' = node_exists n ∧ node_class n' = node_class n ∧
  name n' = name n ∧ filetype n' = filetype n ∧
  (node_exists n = false → is_Some (node_id n')) ∧
  (is_Some (node_id n) → node_id n' = node_id n) ∧
  index (world t') = index (world t) ∧
  ∃ ops, prepdir t' = prepdir t ++ ops ∧
    Forall2 writes_metadata_of (List.filter is_metadata_file ops) (to_upload parent n').





(** The steps [Document.render] takes for a document of identifier [id]
    and file type [ft], with [metadata] as its metadata. *)
Definition document_steps (id ft : string) (metadata : JsonObject) : list PrepOp :=
  [MetadataFile id metadata; ContentFile id; Directory id;
   Directory (id +:+ ".thumbnails"); CopyOf id ft].


(** The loop of lines 525-526 and 535-536 over the children of a folder
    that downloads into [dir]. *)
Fixpoint download_list (args : Args) (joinpath : string → string → string)
    (dir : string) (chs : list Node) (next : Download) : Download :=
  match chs with
  | [] => next
  | ch :: rest => download args joinpath ch dir (download_list args joinpath dir rest next)
  end.



(** Records that load from [ix] without collision: distinct identifiers,
    a parent key on every record that is not skipped, and distinct keys of
    by-name-and-parent that [ix] does not hold yet. *)
Record loadable (records : list (string * Metadata)) (ix : Index) : Prop := {
  loadable_uuids : NoDup records.*1;
  loadable_parents : ∀ u m, (u, m) ∈ records → skipped m = false → is_Some (parent m);
  loadable_keys : NoDup (filing_keys records);
  loadable_free : ∀ k, k ∈ filing_keys records → metadata_by_name_and_parent ix !! k = None }.

(** The steps are those of a dry run: nothing but printing. *)
Fixpoint only_prints (d : Download) : Prop :=
  match d with
  | Returns => True
  | PrintDownloadingTo _ next | PrintCreatingDirectory _ next => only_prints next
  | _ => False
  end.

(** The lines a run of printing steps prints: the paths, in order. *)
Fixpoint printed_paths (d : Download) : list string :=
  match d with
  | PrintDownloadingTo path next | PrintCreatingDirectory path next =>
      path :: printed_paths next
  | _ => []
  end.
(** * Properties *)

(** ** The monad *)

Ltac munfold :=
  unfold mbind, M_bind, result_bind, bind, mret, M_ret, result_ret, ret,
    modify, get, pure_result, raise in *.

(** A property kept by every turn of a [for] loop is kept by the loop,
    whether it ends or raises. *)
Lemma for_each_invariant {S A} (I : S → Prop) (body : A → M S unit) (l : list A) :
  (∀ x s, x ∈ l → I s → I (body x s).2) →
  ∀ s, I s → I (for_each l body s).2.
Proof.
  induction l as [|x l IH]; intros Hbody s Hs; simpl; [done|].
  munfold. pose proof (Hbody x s ltac:(left) Hs) as Hx.
  destruct (body x s) as [[[]|e] s']; simpl in *; [|done].
  apply IH; [|done]. intros y s0 Hy. apply Hbody. by right.
Qed.

(** ** Loading: what the indices hold *)

Lemma index_from_empty P : index_from P empty_index.
Proof. split; simpl; intros *; by rewrite lookup_empty. Qed.

Lemma insert_nested_lookup k u v d k' d' u' m' :
  insert_nested k u v d !! k' = Some d' → d' !! u' = Some m' →
  (k' = k ∧ u' = u ∧ m' = v) ∨ (d !! k' = Some d' ∧ k' ≠ k) ∨
  (k' = k ∧ u' ≠ u ∧ ∃ d0, d !! k = Some d0 ∧ d0 !! u' = Some m').
Proof.
  unfold insert_nested. intros Hk Hu.
  destruct (decide (k = k')) as [->|Hne].
  - rewrite lookup_insert_eq in Hk. injection Hk as <-.
    destruct (decide (u = u')) as [->|Hne'].
    + rewrite lookup_insert_eq in Hu. left. naive_solver.
    + rewrite lookup_insert_ne in Hu by done. right; right.
      split_and!; [done|done|].
      destruct (d !! k') as [d0|]; simpl in Hu; [eauto|].
      by rewrite lookup_empty in Hu.
  - rewrite lookup_insert_ne in Hk by done. right; left. done.
Qed.

Lemma load_record_from P u m ix :
  (skipped m = false → P u m) →
  index_from P ix → index_from P (load_record (u, m) ix).2.
Proof.
  intros HP Hix. unfold load_record.
  destruct (skipped m) eqn:Hskip; [done|]. specialize (HP eq_refl).
  munfold. simpl.
  assert (index_from P (set_by_name (insert_nested (visibleName m) u m)
                          (set_by_uuid <[u:=m]> ix))) as H1.
  { destruct Hix as [Hu Hn Hp Hnp]. split; simpl; [|  |done..].
    - intros u' m' Hl. destruct (decide (u = u')) as [->|];
        [rewrite lookup_insert_eq in Hl; naive_solver
        |rewrite lookup_insert_ne in Hl by done; eauto].
    - intros n d u' m' Hd Hl.
      destruct (insert_nested_lookup _ _ _ _ _ _ _ _ Hd Hl)
        as [(-> & -> & ->)|[[Hd' _]|(-> & _ & d0 & Hd0 & Hl0)]]; eauto. }
  destruct (parent m) as [p|] eqn:Hparent; simpl; [|done].
  assert (index_from P (set_by_parent (insert_nested p u m)
            (set_by_name (insert_nested (visibleName m) u m)
               (set_by_uuid <[u:=m]> ix)))) as H2.
  { destruct H1 as [Hu Hn Hp Hnp]. split; simpl; [done|done| |done].
    intros p' d u' m' Hd Hl.
    destruct (insert_nested_lookup _ _ _ _ _ _ _ _ Hd Hl)
      as [(-> & -> & ->)|[[Hd' _]|(-> & _ & d0 & Hd0 & Hl0)]]; eauto. }
  destruct (metadata_by_name_and_parent ix !! (visibleName m, p)) eqn:Hnp; simpl.
  - by destruct (fullpath _ m).
  - destruct H2 as [Hu Hn Hp Hnp']. split; simpl; [done..|].
    intros n p' u' m' Hl.
    destruct (decide ((visibleName m, p) = (n, p'))) as [[= <- <-]|Hne].
    + rewrite lookup_insert_eq in Hl. naive_solver.
    + rewrite lookup_insert_ne in Hl by done. eauto.
Qed.

(** Whatever [retrieve_metadata] does, every index entry is a record of
    the input that was not skipped. *)
Lemma retrieve_metadata_from (records : list (string * Metadata)) :
  index_from (fun u m => (u, m) ∈ records ∧ skipped m = false)
             (retrieve_metadata records empty_index).2.
Proof.
  unfold retrieve_metadata.
  apply (for_each_invariant
           (index_from (fun u m => (u, m) ∈ records ∧ skipped m = false))).
  - intros [u m] ix Hin Hix. apply load_record_from; auto.
  - apply index_from_empty.
Qed.

Lemma NoDup_fst_unique {A B} (l : list (A * B)) x y1 y2 :
  NoDup l.*1 → (x, y1) ∈ l → (x, y2) ∈ l → y1 = y2.
Proof.
  induction l as [|[a b] l IH]; simpl; intros Hnd H1 H2.
  - by apply elem_of_nil in H1.
  - apply NoDup_cons in Hnd as [Hnotin Hnd].
    apply elem_of_cons in H1 as [H1|H1], H2 as [H2|H2]; simplify_eq; auto.
    + destruct Hnotin. apply list_elem_of_fmap. by exists (a, y2).
    + destruct Hnotin. apply list_elem_of_fmap. by exists (a, y1).
Qed.

Lemma loaded_from (records : list (string * Metadata)) :
  index_from (fun u m => (u, m) ∈ records ∧ skipped m = false) (loaded records).
Proof. apply retrieve_metadata_from. Qed.

(** With distinct identifiers, the identifier of a skipped record is in
    no index. *)
Lemma loaded_not_indexed records u m :
  NoDup records.*1 → (u, m) ∈ records → skipped m = true →
  ¬ indexed (loaded records) u.
Proof.
  intros Hnd Hin Hskip.
  assert (∀ m', (u, m') ∈ records → skipped m' = false → False) as Hno.
  { intros m' Hin' Hs'.
    assert (m' = m) as ->; [|congruence].
    eapply NoDup_fst_unique; eauto. }
  destruct (loaded_from records) as [Hu Hn Hp Hnp].
  intros [[m' Hl]|[(n & d & Hd & [m' Hl])|[(p & d & Hd & [m' Hl])|([n p] & m' & Hl)]]].
  - apply Hu in Hl as []. eauto.
  - destruct (Hn _ _ _ _ Hd Hl) as [[] _]. eauto.
  - destruct (Hp _ _ _ _ Hd Hl) as [[] _]. eauto.
  - apply Hnp in Hl as [[] _]. eauto.
Qed.

(** ** Identity resolution *)

Lemma Node_init_indexed ix cls ft nm parent v :
  node_id (Node_init ix cls ft nm parent) = Some v → indexed ix v.
Proof.
  unfold Node_init.
  set (md := match parent with
             | Some p => get_metadata_by_name_and_parent ix nm (parent_id p)
             | None => get_metadata_by_name_and_parent ix nm (Some "")
             end).
  assert (∀ u m, md = Some (u, m) → indexed ix u) as Hmd.
  { intros u m. subst md. unfold get_metadata_by_name_and_parent.
    destruct parent as [[[p|] ?]|]; simpl; try done;
      intros Hl; do 3 right; eauto. }
  destruct md as [[u m]|]; simpl; [|done].
  intros [= <-]. eauto.
Qed.

Lemma Node_init_children ix cls ft nm parent :
  children (Node_init ix cls ft nm parent) = [].
Proof. unfold Node_init. by repeat case_match. Qed.

(** ** [remove_uuid] *)

Lemma remove_uuid_cases (ix : Index) (u : string) (m : Metadata) :
  metadata_by_uuid ix !! u = Some m →
  match parent m with
  | Some p =>
      if decide (p = "")
      then remove_uuid u ix = (Ret tt, set_by_uuid (delete u) ix)
      else ∀ sib, metadata_by_parent ix !! p = Some sib → is_Some (sib !! u) →
           remove_uuid u ix = (Ret tt, removed_from_parent ix u p sib)
  | None => remove_uuid u ix = (Ret tt, set_by_uuid (delete u) ix)
  end.
Proof.
  intros Hu. unfold remove_uuid. munfold. unfold getitem. rewrite Hu. simpl.
  destruct (parent m) as [p|]; [|done].
  destruct (decide (p = "")) as [->|Hp].
  - by rewrite bool_decide_eq_true_2.
  - rewrite bool_decide_eq_false_2 by done.
    intros sib Hsib [m' Hm']. rewrite Hsib, Hm'. unfold removed_from_parent.
    destruct (decide (delete u sib = ∅)) as [He|He].
    + by rewrite bool_decide_eq_true_2.
    + by rewrite bool_decide_eq_false_2.
Qed.

(** C7, as the code has it: a record under a non-empty parent leaves by-id
    and its parent's set (the set itself when it empties); a record at the
    root (empty or absent parent) leaves by-id only and stays listed under
    the empty parent; by-name and by-name-and-parent never change. *)
Theorem remove_uuid_frame (ix : Index) (u : string) (m : Metadata) :
  metadata_by_uuid ix !! u = Some m →
  match parent m with
  | Some p =>
      if decide (p = "")
      then remove_uuid u ix = (Ret tt, set_by_uuid (delete u) ix)
      else ∀ sib, metadata_by_parent ix !! p = Some sib → is_Some (sib !! u) →
           remove_uuid u ix = (Ret tt, removed_from_parent ix u p sib)
  | None => remove_uuid u ix = (Ret tt, set_by_uuid (delete u) ix)
  end.
Proof. apply remove_uuid_cases. Qed.

Lemma remove_uuid_frame_witness :
  remove_uuid "d" (loaded [("f", collection_md "F" ""); ("d", document_md "x.pdf" "f")])
  = (Ret tt, removed_from_parent
               (loaded [("f", collection_md "F" ""); ("d", document_md "x.pdf" "f")])
               "d" "f" {[ "d" := document_md "x.pdf" "f" ]}).
Proof.
  apply (remove_uuid_frame
           (loaded [("f", collection_md "F" ""); ("d", document_md "x.pdf" "f")])
           "d" (document_md "x.pdf" "f")).
  - vm_compute. reflexivity.
  - vm_compute. reflexivity.
  - vm_compute. eauto.
Defined.

(** C7 as stated fails for a record of the root: after [remove_uuid] its
    id is still listed under the empty parent. *)
Lemma remove_as_stated_fails_at_root :
  ¬ remove_as_stated (loaded [("a", document_md "x.pdf" "")]) "a".
Proof.
  intros Hst.
  destruct (Hst (document_md "x.pdf" "")) as (ix' & Hrm & _ & Hpar & _).
  { vm_compute. reflexivity. }
  vm_compute in Hrm. injection Hrm as <-.
  specialize (Hpar "" {[ "a" := document_md "x.pdf" "" ]} eq_refl).
  discriminate Hpar. vm_compute. reflexivity.
Qed.

(** ** Loading: the collision check *)

Lemma for_each_app {S A} (body : A → M S unit) (l1 l2 : list A) (s : S) :
  for_each (l1 ++ l2) body s =
  match for_each l1 body s with
  | (Ret _, s') => for_each l2 body s'
  | (Raise e, s') => (Raise e, s')
  end.
Proof.
  revert s. induction l1 as [|x l1 IH]; intros s; simpl; [done|].
  munfold. destruct (body x s) as [[[]|e] s']; [apply IH|done].
Qed.

Lemma for_each_cons {S A} (body : A → M S unit) (x : A) (l : list A) (s : S) :
  for_each (x :: l) body s =
  match body x s with
  | (Ret _, s') => for_each l body s'
  | (Raise e, s') => (Raise e, s')
  end.
Proof. simpl. munfold. by destruct (body x s) as [[[]|e] s']. Qed.

(** The step of the loader on a record that is not skipped and has a
    parent: the state after lines 214-222, then the test of line 224. *)
Lemma load_record_unfold u m p ix :
  skipped m = false → parent m = Some p →
  let ix3 := set_by_parent (insert_nested p u m)
               (set_by_name (insert_nested (visibleName m) u m)
                  (set_by_uuid <[u:=m]> ix)) in
  load_record (u, m) ix =
  match metadata_by_name_and_parent ix !! (visibleName m, p) with
  | Some _ =>
      (match fullpath ix3 m with
       | Ret path => Raise (FileCollision (visibleName m) path)
       | Raise e => Raise e
       end, ix3)
  | None =>
      (Ret tt, set_by_name_and_parent <[(visibleName m, p) := (u, m)]> ix3)
  end.
Proof.
  intros Hs Hp. unfold load_record. rewrite Hs, Hp. munfold. simpl.
  destruct (metadata_by_name_and_parent ix !! (visibleName m, p)); [|done].
  by destruct (fullpath _ m).
Qed.

Lemma load_record_keeps_key e ix ix' k :
  is_Some (metadata_by_name_and_parent ix !! k) →
  load_record e ix = (Ret tt, ix') →
  is_Some (metadata_by_name_and_parent ix' !! k).
Proof.
  destruct e as [u m]. intros Hk.
  destruct (skipped m) eqn:Hs.
  { unfold load_record. rewrite Hs. by intros [= <-]. }
  destruct (parent m) as [p|] eqn:Hp.
  - rewrite (load_record_unfold u m p) by done.
    destruct (metadata_by_name_and_parent ix !! (visibleName m, p)).
    + by destruct (fullpath _ m).
    + intros [= <-]. simpl. rewrite lookup_insert. by case_decide.
  - unfold load_record. rewrite Hs, Hp. by munfold.
Qed.

Lemma retrieve_metadata_keeps_key l ix ix' k :
  is_Some (metadata_by_name_and_parent ix !! k) →
  retrieve_metadata l ix = (Ret tt, ix') →
  is_Some (metadata_by_name_and_parent ix' !! k).
Proof.
  unfold retrieve_metadata. revert ix.
  induction l as [|e l IH]; intros ix Hk; simpl.
  - by intros [= <-].
  - munfold. destruct (load_record e ix) as [[[]|?] ix1] eqn:He; [|done].
    apply IH. eapply load_record_keeps_key; eauto.
Qed.

Lemma load_record_files_key u m p ix ix' :
  skipped m = false → parent m = Some p →
  load_record (u, m) ix = (Ret tt, ix') →
  is_Some (metadata_by_name_and_parent ix' !! (visibleName m, p)).
Proof.
  intros Hs Hp. rewrite (load_record_unfold u m p) by done.
  destruct (metadata_by_name_and_parent ix !! (visibleName m, p)).
  - by destruct (fullpath _ m).
  - intros [= <-]. simpl. rewrite lookup_insert_eq. eauto.
Qed.

(** Two records of one name under one parent never load: whatever their
    order and whatever lies between them, the loader raises. *)
Lemma retrieve_metadata_rejects_duplicates l1 l2 l3 u1 m1 u2 m2 p ix :
  skipped m1 = false → skipped m2 = false →
  parent m1 = Some p → parent m2 = Some p →
  visibleName m1 = visibleName m2 →
  ∃ e, (retrieve_metadata (l1 ++ (u1, m1) :: l2 ++ (u2, m2) :: l3) ix).1 = Raise e.
Proof.
  intros Hs1 Hs2 Hp1 Hp2 Hn. unfold retrieve_metadata.
  rewrite for_each_app.
  destruct (for_each l1 load_record ix) as [[[]|e] ix1]; [|eauto].
  rewrite for_each_cons.
  destruct (load_record (u1, m1) ix1) as [[[]|e] ix2] eqn:H1; [|eauto].
  rewrite for_each_app.
  destruct (for_each l2 load_record ix2) as [[[]|e] ix3] eqn:H2; [|eauto].
  rewrite for_each_cons.
  assert (is_Some (metadata_by_name_and_parent ix3 !! (visibleName m2, p))) as [v Hv].
  { eapply (retrieve_metadata_keeps_key l2); [|exact H2].
    rewrite <- Hn. eapply load_record_files_key; eauto. }
  rewrite (load_record_unfold u2 m2 p) by done. rewrite Hv.
  destruct (fullpath _ m2); eauto.
Qed.

(** The exception is the collision error when the path of the second
    record resolves at that moment, e.g. at the root. *)
Lemma load_record_collision_at_root u m ix :
  skipped m = false → parent m = Some "" →
  is_Some (metadata_by_name_and_parent ix !! (visibleName m, "")) →
  (load_record (u, m) ix).1 = Raise (FileCollision (visibleName m) ("/" +:+ visibleName m)).
Proof.
  intros Hs Hp [v Hv]. rewrite (load_record_unfold u m "") by done. rewrite Hv.
  unfold fullpath. destruct (recursion_limit - 3); simpl; by rewrite Hp.
Qed.

(** C1, at the records where it fails: two documents of one name in a
    folder whose own record comes later in the listing. The lookup of the
    folder inside [fullpath], called to build the message of
    [FileCollision], raises [KeyError]; with the folder first the same
    records raise [FileCollision]. *)
Theorem collision_before_parent_is_KeyError :
  (retrieve_metadata [("a1", document_md "notes.pdf" "p9");
                      ("a2", document_md "notes.pdf" "p9");
                      ("p9", collection_md "Papers" "")] empty_index).1
  = Raise KeyError ∧
  (retrieve_metadata [("p9", collection_md "Papers" "");
                      ("a1", document_md "notes.pdf" "p9");
                      ("a2", document_md "notes.pdf" "p9")] empty_index).1
  = Raise (FileCollision "notes.pdf" "/Papers/notes.pdf").
Proof. split; vm_compute; reflexivity. Qed.

(** ** Trees *)

Lemma Node_ind_children (P : Node → Prop) :
  (∀ n, Forall P (children n) → P n) → ∀ n, P n.
Proof.
  intros Hstep. fix IH 1. intros n. apply Hstep.
  destruct n as [nm i e g c f r chs]. simpl.
  induction chs as [|ch chs IHchs]; constructor; [apply IH|apply IHchs].
Qed.

Lemma get_full_path_set_children up n chs :
  get_full_path up (set_children n chs) = get_full_path up n.
Proof. by destruct up. Qed.

Lemma children_set_children n chs : children (set_children n chs) = chs.
Proof. done. Qed.

Lemma set_children_set_children n chs chs' :
  set_children (set_children n chs) chs' = set_children n chs'.
Proof. done. Qed.

Lemma subnodes_unfold n : subnodes n = n :: flat_map subnodes (children n).
Proof. by destruct n. Qed.

Lemma occurrences_unfold up above n :
  occurrences up above n =
  (above ++ [get_full_path up n], set_children n [])
    :: flat_map (occurrences (Some (get_full_path up n)) (above ++ [get_full_path up n]))
         (children n).
Proof. by destruct n. Qed.

(** ** Pruning *)

Section Curb.

Context `{Library}.
Variable excludelist : list string.

Lemma curb_tree_unfold up node :
  curb_tree up node excludelist =
  let path := get_full_path up node in
  if excluded excludelist path then ([path], (true, node))
  else
    let '(v, uncurbed_children) := curb_list path (children node) excludelist in
    (path :: v, (false, set_children node uncurbed_children)).
Proof.
  destruct node as [nm i e g c f r chs]. cbn [curb_tree children].
  cbv zeta. destruct (excluded excludelist _); [done|].
  match goal with
  | |- (let '(_, _) := ?F chs in _) = _ =>
      assert (∀ l, F l = curb_list (get_full_path up (mkNode nm i e g c f r chs)) l excludelist)
        as ->; [|done]
  end.
  induction l as [|ch l IHl]; [done|]. cbn [curb_list]. by rewrite <- IHl.
Qed.

Lemma unmatched_app l1 l2 :
  unmatched excludelist (l1 ++ l2) = unmatched excludelist l1 && unmatched excludelist l2.
Proof. apply forallb_app. Qed.

Lemma unmatched_snoc l p :
  unmatched excludelist (l ++ [p]) = unmatched excludelist l && negb (excluded excludelist p).
Proof. rewrite unmatched_app. simpl. by rewrite andb_true_r. Qed.

(** Every occurrence in a tree lies under the path of its root. *)
Lemma occurrences_prefix up above n o :
  o ∈ occurrences up above n → ∃ tail, o.1 = (above ++ [get_full_path up n]) ++ tail.
Proof.
  revert up above. induction n as [n IH] using Node_ind_children.
  intros up above. rewrite occurrences_unfold. intros [->|Hin]%elem_of_cons.
  - exists []. simpl. by rewrite app_nil_r.
  - apply list_elem_of_In, in_flat_map in Hin as (ch & Hch & Ho).
    apply list_elem_of_In in Hch, Ho.
    rewrite Forall_forall in IH.
    destruct (IH ch Hch _ _ Ho) as [tail Htail].
    exists (get_full_path (Some (get_full_path up n)) ch :: tail).
    rewrite Htail. by rewrite <- !app_assoc.
Qed.

Lemma removelast_snoc_app {A} (l : list A) x tail y :
  removelast ((l ++ [x]) ++ y :: tail) = (l ++ [x]) ++ removelast (y :: tail).
Proof. by rewrite removelast_app. Qed.

Lemma filter_none {A} (f : A → bool) (l : list A) :
  (∀ x, x ∈ l → f x = false) → List.filter f l = [].
Proof.
  induction l as [|x l IH]; intros Hf; simpl; [done|].
  rewrite (Hf x) by left. apply IH. intros y Hy. apply Hf. by right.
Qed.

Lemma filter_flat_map {A B} (f : B → bool) (g : A → list B) (l : list A) :
  List.filter f (flat_map g l) = flat_map (fun x => List.filter f (g x)) l.
Proof.
  induction l as [|x l IH]; simpl; [done|]. by rewrite List.filter_app, IH.
Qed.

(** Under a matched node nothing is outside the matched subtrees, and
    nothing strictly below it is reached. *)
Lemma under_matched_not_outside up above n :
  excluded excludelist (get_full_path up n) = true →
  List.filter (outside_matched excludelist) (occurrences up above n) = [].
Proof.
  intros Hex. apply filter_none. intros o [tail Ho]%occurrences_prefix.
  unfold outside_matched. rewrite Ho, unmatched_app, unmatched_snoc, Hex.
  by rewrite andb_false_r.
Qed.

Lemma below_matched_not_reached up above n ch :
  excluded excludelist (get_full_path up n) = true →
  List.filter (below_no_match excludelist)
    (occurrences (Some (get_full_path up n)) (above ++ [get_full_path up n]) ch) = [].
Proof.
  intros Hex. apply filter_none. intros o [tail Ho]%occurrences_prefix.
  unfold below_no_match. rewrite Ho, <- app_assoc. simpl.
  rewrite removelast_snoc_app, unmatched_app, unmatched_snoc, Hex.
  by rewrite andb_false_r.
Qed.

Lemma below_matched_children_not_reached up above n chs :
  excluded excludelist (get_full_path up n) = true →
  List.filter (below_no_match excludelist)
    (flat_map (occurrences (Some (get_full_path up n)) (above ++ [get_full_path up n])) chs)
  = [].
Proof.
  intros Hex. induction chs as [|ch chs IHchs]; simpl; [done|].
  by rewrite List.filter_app, below_matched_not_reached, IHchs.
Qed.

(** What one pass does to the tree and which paths it tests. *)
Lemma curb_tree_occurrences up above node :
  unmatched excludelist above = true →
  let r := curb up node excludelist in
  curb_excluded r = excluded excludelist (get_full_path up node) ∧
  (if curb_excluded r then curb_node r = node
   else occurrences up above (curb_node r)
        = List.filter (outside_matched excludelist) (occurrences up above node)) ∧
  curb_visited r
  = occurrence_path <$> List.filter (below_no_match excludelist) (occurrences up above node).
Proof.
  revert up above. induction node as [node IH] using Node_ind_children.
  intros up above Habove. unfold curb. rewrite curb_tree_unfold. cbv zeta.
  set (path := get_full_path up node).
  assert (below_no_match excludelist (above ++ [path], set_children node []) = true) as Hroot.
  { unfold below_no_match. simpl. by rewrite removelast_last. }
  destruct (excluded excludelist path) eqn:Hex; simpl.
  - split_and!; [done..|].
    rewrite occurrences_unfold. fold path. cbn [List.filter]. rewrite Hroot. simpl.
    subst path. rewrite below_matched_children_not_reached by done.
    unfold occurrence_path. simpl. by rewrite last_snoc.
  - assert (unmatched excludelist (above ++ [path]) = true) as Habove'.
    { by rewrite unmatched_snoc, Habove, Hex. }
    assert (let '(v, unc) := curb_list path (children node) excludelist in
            flat_map (occurrences (Some path) (above ++ [path])) unc
            = List.filter (outside_matched excludelist)
                (flat_map (occurrences (Some path) (above ++ [path])) (children node)) ∧
            v = occurrence_path <$>
                List.filter (below_no_match excludelist)
                  (flat_map (occurrences (Some path) (above ++ [path])) (children node)))
      as Hchs.
    { induction (children node) as [|ch chs IHchs]; [done|].
      apply Forall_cons in IH as [IHch IH]. specialize (IHchs IH).
      cbn [curb_list flat_map].
      specialize (IHch (Some path) (above ++ [path]) Habove').
      unfold curb in IHch.
      destruct (curb_tree (Some path) ch excludelist) as [v1 [b1 ch']].
      destruct (curb_list path chs excludelist) as [v2 unc].
      simpl in IHch. destruct IHch as (Hb1 & Hch' & Hv1), IHchs as [Hunc Hv2].
      rewrite !List.filter_app, fmap_app, <- Hv1, <- Hv2. split; [|done].
      destruct b1.
      + subst ch'. by rewrite under_matched_not_outside.
      + simpl. by rewrite Hch', Hunc. }
    destruct (curb_list path (children node) excludelist) as [v unc].
    destruct Hchs as [Hunc Hv]. cbn [curb_excluded curb_node curb_visited].
    rewrite (occurrences_unfold up above (set_children node unc)),
      (occurrences_unfold up above node).
    rewrite get_full_path_set_children, children_set_children, set_children_set_children.
    fold path. cbn [List.filter]. rewrite Hroot.
    split_and!; [done| |].
    + unfold outside_matched at 1. cbn [fst]. rewrite Habove'. by rewrite Hunc.
    + rewrite fmap_cons, <- Hv.
      unfold occurrence_path at 1. cbn [fst]. by rewrite last_snoc.
Qed.


End Curb.


(** ** Push: the policy on documents that exist *)

(** C4, as the code has it: a document that resolves keeps its triple
    under [skip]; under [overwrite] and [doconly] it keeps the resolved
    identity and is marked modified and not existing; under [duplicate]
    it takes the identity [gen_did] returns and is marked not existing. *)
Theorem if_exists_policy `{Library} (args : Args) (w : World) (path nm : string)
    (parent : option Parent) (uuid : string) (md : Metadata) :
  resolves_to (index w) nm parent = Some (uuid, md) →
  supported_suffix (path_suffix nm) = true →
  ∃ node w',
    construct_node_tree_from_disk args path (FsFile nm) parent w = (Ret (Some node), w') ∧
    name node = nm ∧ children node = [] ∧
    match if_exists args with
    | skip =>
        triple node = (Some uuid, false, true) ∧ render_doc_only node = false ∧ w' = w
    | overwrite =>
        triple node = (Some uuid, true, false) ∧ render_doc_only node = false ∧ w' = w
    | doconly =>
        triple node = (Some uuid, true, false) ∧ render_doc_only node = true ∧ w' = w
    | duplicate =>
        triple node = (Some (uuid4 (uuid_count w)), false, false) ∧
        render_doc_only node = false ∧ w' = set_uuid_count S w
    end.
Proof.
  intros Hres Hsup. cbn [construct_node_tree_from_disk]. rewrite Hsup.
  munfold. unfold Document, Node_init. fold (resolves_to (index w) nm parent).
  rewrite Hres. unfold apply_if_exists. cbn [node_exists].
  destruct (if_exists args); munfold; unfold gen_did; eauto 10.
Qed.

Lemma if_exists_policy_witness :
  ∃ node w',
    construct_node_tree_from_disk (H := example_library)
      (mkArgs false false duplicate [] None) "notes.pdf" (FsFile "notes.pdf") None
      (world_of (loaded [("a1", document_md "notes.pdf" "")]) [])
    = (Ret (Some node), w') ∧
    triple node = (Some "generated-0", false, false).
Proof.
  destruct (if_exists_policy (H := example_library)
              (mkArgs false false duplicate [] None)
              (world_of (loaded [("a1", document_md "notes.pdf" "")]) [])
              "notes.pdf" "notes.pdf" None "a1" (document_md "notes.pdf" ""))
    as (node & w' & Hrun & _ & _ & Htriple & _).
  - vm_compute. reflexivity.
  - vm_compute. reflexivity.
  - exists node, w'. split; [exact Hrun|exact Htriple].
Defined.

(** C4 as stated fails under [overwrite]: the node keeps the identity of
    the record it resolved to. *)
Lemma overwrite_keeps_identity :
  ¬ policy_as_stated (H := example_library) (mkArgs false false overwrite [] None)
      (world_of (loaded [("a1", document_md "notes.pdf" "")]) [])
      "notes.pdf" "notes.pdf" None.
Proof.
  intros Hst.
  destruct (Hst "a1" (document_md "notes.pdf" "")) as (node & w' & Hrun & Htriple).
  - vm_compute. reflexivity.
  - vm_compute. reflexivity.
  - vm_compute in Hrun. injection Hrun as <- _. discriminate Htriple.
Qed.

(** ** [remove_uuid], in general *)

Lemma index_shrinks_refl ix : index_shrinks ix ix.
Proof. by split. Qed.

Lemma index_shrinks_trans ix1 ix2 ix3 :
  index_shrinks ix1 ix2 → index_shrinks ix2 ix3 → index_shrinks ix1 ix3.
Proof. intros [] []. split; eauto. Qed.

Lemma removed_from_parent_not_listed ix u p sib :
  ¬ listed_under (removed_from_parent ix u p sib) p u.
Proof.
  unfold listed_under, removed_from_parent. simpl. intros (d & Hd & [m Hm]).
  case_decide.
  - by rewrite lookup_delete_eq in Hd.
  - rewrite lookup_insert_eq in Hd. injection Hd as <-.
    by rewrite lookup_delete_eq in Hm.
Qed.

Lemma removed_from_parent_shrinks ix u p sib :
  metadata_by_parent ix !! p = Some sib →
  index_shrinks ix (removed_from_parent ix u p sib).
Proof.
  intros Hsib. unfold removed_from_parent. split; unfold listed_under; simpl.
  - intros u' m'. rewrite lookup_delete. case_decide; naive_solver.
  - intros p' u' (d & Hd & [m Hm]).
    case_decide.
    + rewrite lookup_delete in Hd. case_decide; [done|]. eauto.
    + rewrite lookup_insert in Hd. case_decide; [|eauto].
      simplify_eq. rewrite lookup_delete in Hm. case_decide; [done|]. eauto.
  - intros p'. case_decide.
    + rewrite lookup_delete. case_decide; [by intros []|done].
    + rewrite lookup_insert. case_decide; [subst; eauto|done].
Qed.

Lemma delete_by_uuid_shrinks ix u : index_shrinks ix (set_by_uuid (delete u) ix).
Proof.
  split; simpl; [|done..].
  intros u' m'. rewrite lookup_delete. case_decide; naive_solver.
Qed.

(** Every way [remove_uuid] can end. *)
Lemma remove_uuid_inv u ix r ix' :
  remove_uuid u ix = (r, ix') →
  match r with
  | Ret _ =>
      ∃ m, metadata_by_uuid ix !! u = Some m ∧
        match parent m with
        | Some p =>
            if decide (p = "") then ix' = set_by_uuid (delete u) ix
            else ∃ sib, metadata_by_parent ix !! p = Some sib ∧ is_Some (sib !! u) ∧
                        ix' = removed_from_parent ix u p sib
        | None => ix' = set_by_uuid (delete u) ix
        end
  | Raise e =>
      e = KeyError ∧
      (ix' = ix ∧ metadata_by_uuid ix !! u = None ∨ ix' = set_by_uuid (delete u) ix)
  end.
Proof.
  unfold remove_uuid. munfold. unfold getitem.
  destruct (metadata_by_uuid ix !! u) as [m|] eqn:Hu; simpl.
  2:{ intros [= <- <-]. auto. }
  destruct (parent m) as [p|] eqn:Hp; simpl.
  2:{ intros [= <- <-]. exists m. by rewrite Hp. }
  case_bool_decide as Hroot.
  { intros [= <- <-]. exists m. rewrite Hp. by rewrite decide_True. }
  destruct (metadata_by_parent ix !! p) as [sib|] eqn:Hsib; simpl.
  2:{ intros [= <- <-]. auto. }
  destruct (sib !! u) as [m'|] eqn:Hm'; simpl.
  2:{ intros [= <- <-]. auto. }
  intros Hrun. assert (r = Ret tt ∧ ix' = removed_from_parent ix u p sib) as [-> ->].
  { unfold removed_from_parent. case_bool_decide; case_decide; try done;
      by injection Hrun as <- <-. }
  exists m. rewrite Hp, decide_False by done. eauto.
Qed.

Lemma remove_uuid_shrinks u ix r ix' :
  remove_uuid u ix = (r, ix') → index_shrinks ix ix'.
Proof.
  intros Hrun. apply remove_uuid_inv in Hrun. destruct r as [[]|e].
  - destruct Hrun as (m & Hm & Hcase). destruct (parent m) as [p|].
    + case_decide; [subst; apply delete_by_uuid_shrinks|].
      destruct Hcase as (sib & Hsib & _ & ->). by apply removed_from_parent_shrinks.
    + subst. apply delete_by_uuid_shrinks.
  - destruct Hrun as [_ [[-> _]| ->]];
      [apply index_shrinks_refl|apply delete_by_uuid_shrinks].
Qed.

(** After a removal that did not raise, the id is out of by-id and, for a
    record under a non-empty parent, out of the set of that parent. *)
Lemma remove_uuid_gone u ix ix' :
  remove_uuid u ix = (Ret tt, ix') →
  ∃ m, metadata_by_uuid ix !! u = Some m ∧
       metadata_by_uuid ix' !! u = None ∧
       (∀ p, parent m = Some p → p ≠ "" → ¬ listed_under ix' p u).
Proof.
  intros Hrun. apply remove_uuid_inv in Hrun as (m & Hm & Hcase).
  exists m. split; [done|].
  destruct (parent m) as [p|].
  - case_decide as Hroot.
    + subst. simpl. rewrite lookup_delete_eq. split; [done|]. by intros ? [= <-].
    + destruct Hcase as (sib & Hsib & _ & ->). split.
      * simpl. apply lookup_delete_eq.
      * intros ? [= <-] _. apply removed_from_parent_not_listed.
  - subst. simpl. rewrite lookup_delete_eq. done.
Qed.

(** However it ends, [remove_uuid] leaves the entry of the empty parent
    as it was: the records of the root stay listed there. *)
Lemma remove_uuid_root_entry u ix r ix' :
  remove_uuid u ix = (r, ix') →
  metadata_by_parent ix' !! "" = metadata_by_parent ix !! "".
Proof.
  intros Hrun. apply remove_uuid_inv in Hrun.
  assert (∀ p sib, p ≠ "" →
            metadata_by_parent (removed_from_parent ix u p sib) !! ""
            = metadata_by_parent ix !! "") as Hrem.
  { intros p sib Hp. unfold removed_from_parent. simpl.
    case_decide; [by rewrite lookup_delete_ne|by rewrite lookup_insert_ne]. }
  destruct r as [[]|e].
  - destruct Hrun as (m & Hm & Hcase). destruct (parent m) as [p|].
    + case_decide; [by subst|].
      destruct Hcase as (sib & _ & _ & ->). by apply Hrem.
    + by subst.
  - by destruct Hrun as [_ [[-> _]| ->]].
Qed.

(** ** Effects *)

Lemma effects_refl w : effects w w [] [] [].
Proof. split; rewrite ?app_nil_r; auto using index_shrinks_refl. Qed.

Lemma effects_trans w1 w2 w3 o1 o2 c1 c2 l1 l2 :
  effects w1 w2 o1 c1 l1 → effects w2 w3 o2 c2 l2 →
  effects w1 w3 (o1 ++ o2) (c1 ++ c2) (l1 ++ l2).
Proof.
  intros [Ho1 Hc1 Hl1 Hn1 Hd1 Hi1] [Ho2 Hc2 Hl2 Hn2 Hd2 Hi2].
  split; rewrite ?app_assoc; try congruence.
  - rewrite Hl1, Hl2. by rewrite app_assoc.
  - eauto using index_shrinks_trans.
Qed.

Lemma effects_print o w : effects w (print o w).2 [o] [] [].
Proof. split; simpl; rewrite ?app_nil_r; auto using index_shrinks_refl. Qed.

Lemma effects_ssh cmd dry w :
  effects w (ssh cmd dry w).2 [] (if dry then [] else [cmd]) [].
Proof.
  unfold ssh. destruct dry; split; simpl; rewrite ?app_nil_r;
    auto using index_shrinks_refl.
Qed.

Lemma effects_remove_uuid u w :
  effects w (on_index (remove_uuid u) w).2 [] [] [].
Proof.
  unfold on_index. destruct (remove_uuid u (index w)) as [r ix'] eqn:Hrun.
  split; simpl; rewrite ?app_nil_r; auto. eapply remove_uuid_shrinks; eauto.
Qed.

Lemma effects_input w s w' :
  input w = (Ret s, w') → effects w w' [] [] [s].
Proof.
  unfold input. destruct (stdin w) as [|s' rest] eqn:Hin; [done|].
  intros [= <- <-]. split; simpl; rewrite ?app_nil_r; auto using index_shrinks_refl.
Qed.

(** ** [fullpath] *)

Lemma fullpath_rec_raises fuel by_uuid m e :
  fullpath_rec fuel by_uuid m = Raise e → e = KeyError ∨ e = RecursionError.
Proof.
  revert m. induction fuel as [|fuel IH]; intros m; simpl.
  - destruct (parent m); [|done]. case_bool_decide; [done|]. intros [= <-]. auto.
  - destruct (parent m) as [p|]; [|done]. case_bool_decide; [done|].
    unfold getitem. destruct (by_uuid !! p) as [pm|]; [|intros [= <-]; auto].
    destruct (fullpath_rec fuel by_uuid pm) eqn:Hp; [done|].
    intros [= <-]. eauto.
Qed.

Lemma fullpath_raises ix m e :
  fullpath ix m = Raise e → e = KeyError ∨ e = RecursionError.
Proof. apply fullpath_rec_raises. Qed.

(** ** The empty-collection pass *)

(** A scan changes nothing but the output; when it ends, it has found the
    empty collections among the entries it went through, and printed the
    path of each. *)
Lemma scan_empty_inv items w r w' :
  scan_empty items w = (r, w') →
  index w' = index w ∧
  (∃ out, effects w w' out [] []) ∧
  match r with
  | Ret found =>
      found = (List.filter (is_empty_collection (index w)) items).*1 ∧
      ∃ paths,
        stdout w' = stdout w ++ (PrintEmpty <$> paths) ∧
        Forall2 (fun e path => fullpath (index w) e.2 = Ret path)
                (List.filter (is_empty_collection (index w)) items) paths
  | Raise e => e = KeyError ∨ e = RecursionError
  end.
Proof.
  revert w r w'. induction items as [|[u m] items IH]; intros w r w'; simpl.
  { intros [= <- <-]. split_and!; [done|exists []; apply effects_refl|done|].
    exists []. by rewrite app_nil_r. }
  cbn [List.filter].
  destruct (decide (type_ m = "CollectionType")) as [Hty|Hty].
  2:{ rewrite bool_decide_eq_true_2 by done.
      assert (is_empty_collection (index w) (u, m) = false) as ->; [|apply IH].
      unfold is_empty_collection. simpl. by rewrite bool_decide_eq_false_2. }
  rewrite bool_decide_eq_false_2 by (by intros ?).
  munfold. cbn [fst snd].
  destruct (metadata_by_parent (index w) !! u) as [d|] eqn:Hd.
  { assert (is_empty_collection (index w) (u, m) = false) as ->; [|apply IH].
    unfold is_empty_collection. simpl. rewrite Hd.
    rewrite (bool_decide_eq_false_2 (Some d = None)) by done. apply andb_false_r. }
  assert (is_empty_collection (index w) (u, m) = true) as ->.
  { unfold is_empty_collection. simpl. rewrite Hd.
    by rewrite !bool_decide_eq_true_2. }
  destruct (fullpath (index w) m) as [path|e] eqn:Hpath.
  2:{ intros [= <- <-]. split_and!; [done|exists []; apply effects_refl|].
      eapply fullpath_raises; eauto. }
  unfold print. munfold.
  destruct (scan_empty items _) as [[found|e] w1] eqn:Hrest;
    intros [= <- <-]; apply IH in Hrest as (Hix & [out Heff] & Hr); simpl in *.
  - destruct Hr as (-> & paths & Hout & Hpaths).
    split_and!; [done| |done|].
    + exists ([PrintEmpty path] ++ out).
      replace (@nil SshCommand) with (@nil SshCommand ++ []) by done.
      replace (@nil string) with (@nil string ++ []) by done.
      eapply effects_trans; [apply effects_print|exact Heff].
    + exists (path :: paths). rewrite Hout, <- app_assoc. split; [done|].
      by constructor.
  - split_and!; [done| |done].
    exists ([PrintEmpty path] ++ out).
    replace (@nil SshCommand) with (@nil SshCommand ++ []) by done.
    replace (@nil string) with (@nil string ++ []) by done.
    eapply effects_trans; [apply effects_print|exact Heff].
Qed.

Lemma scan_empty_ok items w :
  Forall (fun e => ∃ path, fullpath (index w) e.2 = Ret path)
         (List.filter (is_empty_collection (index w)) items) →
  ∃ found w', scan_empty items w = (Ret found, w').
Proof.
  revert w. induction items as [|[u m] items IH]; intros w; simpl; [eauto|].
  destruct (is_empty_collection (index w) (u, m)) eqn:Hem.
  - intros [[path Hpath] Hrest]%Forall_cons.
    unfold is_empty_collection in Hem. simpl in Hem.
    apply andb_true_iff in Hem as [Hty%bool_decide_eq_true Hd%bool_decide_eq_true].
    rewrite bool_decide_eq_false_2 by (by intros ?).
    simpl in Hpath. munfold. rewrite Hd, Hpath. unfold print. munfold.
    destruct (IH (set_stdout (fun out => out ++ [PrintEmpty path]) w) Hrest)
      as (found & w' & ->). eauto.
  - intros Hrest. unfold is_empty_collection in Hem. simpl in Hem.
    destruct (decide (type_ m = "CollectionType")) as [Hty|Hty].
    2:{ rewrite bool_decide_eq_true_2 by done. apply IH, Hrest. }
    rewrite bool_decide_eq_false_2 by (by intros ?).
    munfold. destruct (metadata_by_parent (index w) !! u) eqn:Hd; [apply IH, Hrest|].
    apply andb_false_iff in Hem as [Hem|Hem]; apply bool_decide_eq_false in Hem; tauto.
Qed.

(** The removals of line 931-932. *)
Lemma for_each_remove_inv l w r w' :
  for_each l (fun u => on_index (remove_uuid u)) w = (r, w') →
  effects w w' [] [] [] ∧
  match r with
  | Ret _ =>
      ∀ u, u ∈ l →
        ∃ m, metadata_by_uuid (index w) !! u = Some m ∧
             metadata_by_uuid (index w') !! u = None ∧
             (∀ p, parent m = Some p → p ≠ "" → ¬ listed_under (index w') p u)
  | Raise e => e = KeyError
  end.
Proof.
  revert w. induction l as [|u l IH]; intros w.
  { intros [= <- <-]. split; [apply effects_refl|]. by intros u ?%elem_of_nil. }
  rewrite for_each_cons.
  pose proof (effects_remove_uuid u w) as Heff1.
  unfold on_index in *.
  destruct (remove_uuid u (index w)) as [r1 ix1] eqn:Hrm. simpl in Heff1.
  destruct r1 as [[]|e1].
  2:{ intros [= <- <-]. split; [done|].
      by apply remove_uuid_inv in Hrm as [-> _]. }
  intros Hrest. apply IH in Hrest as [Heff2 Hr]. split.
  { apply (effects_trans _ _ _ [] [] [] [] [] [] Heff1 Heff2). }
  destruct r as [[]|e]; [|done].
  destruct Heff2 as [_ _ _ _ _ [Hsu Hsp _]]. simpl in *.
  intros u' [->|Hin]%elem_of_cons.
  - apply remove_uuid_gone in Hrm as (m & Hm & Hgone & Hpar).
    exists m. split_and!; [done| |].
    + destruct (metadata_by_uuid (index w') !! u) eqn:Hu'; [|done].
      apply Hsu in Hu'. congruence.
    + intros p Hp Hne Hl. eapply Hpar; eauto.
  - destruct (Hr u' Hin) as (m & Hm & Hgone & Hpar).
    exists m. split_and!; [|done..].
    apply remove_uuid_shrinks in Hrm as [Hsu1 _ _]. by apply Hsu1.
Qed.

Lemma elem_of_filter_fst {A B} (f : A * B → bool) (l : list (A * B)) a :
  a ∈ (List.filter f l).*1 ↔ ∃ b, (a, b) ∈ l ∧ f (a, b) = true.
Proof.
  rewrite list_elem_of_fmap. split.
  - intros ([a' b] & -> & Hin). apply list_elem_of_In, List.filter_In in Hin as [Hin Hf].
    apply list_elem_of_In in Hin. eauto.
  - intros (b & Hin & Hf). exists (a, b). split; [done|].
    apply list_elem_of_In, List.filter_In. split; [|done]. by apply list_elem_of_In.
Qed.

Lemma elem_of_empty_collections ix u m :
  (u, m) ∈ empty_collections ix ↔
  metadata_by_uuid ix !! u = Some m ∧ type_ m = "CollectionType" ∧
  metadata_by_parent ix !! u = None.
Proof.
  unfold empty_collections.
  rewrite list_elem_of_In, List.filter_In, <- list_elem_of_In, elem_of_map_to_list.
  unfold is_empty_collection. simpl.
  rewrite andb_true_iff, !bool_decide_eq_true. done.
Qed.

(** What the [while] loop of the pass leaves when it ends: the uuids it
    adds were collections of by-id, are gone from by-id and from the set
    of their non-empty parent, and no empty collection is left. *)
Lemma emptydir_loop_inv fuel it acc w r w1 :
  emptydir_loop fuel it acc w = (r, w1) →
  (∃ out, effects w w1 out [] []) ∧
  match r with
  | Ret deleted_uuids =>
      ∃ new, deleted_uuids = acc ++ new ∧
        (∀ u, u ∈ new →
           ∃ m, metadata_by_uuid (index w) !! u = Some m ∧
                type_ m = "CollectionType" ∧
                metadata_by_uuid (index w1) !! u = None ∧
                (∀ p, parent m = Some p → p ≠ "" → ¬ listed_under (index w1) p u)) ∧
        empty_collections (index w1) = []
  | Raise e =>
      e = KeyError ∨ e = RecursionError ∨
      (e = LoopBoundExceeded ∧ fuel ≤ size (metadata_by_uuid (index w)))
  end.
Proof.
  revert it acc w. induction fuel as [|fuel IH]; intros it acc w.
  { intros [= <- <-]. split; [exists []; apply effects_refl|]. right; right. split; [done|lia]. }
  cbn [emptydir_loop]. unfold print at 1. munfold.
  set (w0 := set_stdout (fun out => out ++ [PrintIteration it]) w).
  assert (effects w w0 [PrintIteration it] [] []) as Heff0 by apply (effects_print _ w).
  destruct (scan_empty (map_to_list (metadata_by_uuid (index w0))) w0)
    as [[found|e] ws] eqn:Hscan;
    apply scan_empty_inv in Hscan as (Hixs & [outs Heffs] & Hfound).
  2:{ intros [= <- <-]. split; [|tauto].
      exists ([PrintIteration it] ++ outs).
      apply (effects_trans _ _ _ _ _ [] [] [] [] Heff0 Heffs). }
  destruct Hfound as [Hfound _]. fold (empty_collections (index w0)) in Hfound.
  change (index w0) with (index w) in *.
  destruct (for_each found (fun u => on_index (remove_uuid u)) ws)
    as [[[]|e] wr] eqn:Hrm0; pose proof (for_each_remove_inv _ _ _ _ Hrm0) as [Heffr Hgone].
  2:{ intros [= <- <-]. split; [|tauto].
      exists (([PrintIteration it] ++ outs) ++ []).
      apply (effects_trans _ _ _ _ _ [] [] [] [] (effects_trans _ _ _ _ _ [] [] [] [] Heff0 Heffs) Heffr). }
  assert (effects w wr ([PrintIteration it] ++ outs) [] []) as Heff.
  { rewrite <- (app_nil_r (_ ++ outs)).
    apply (effects_trans _ _ _ _ _ [] [] [] [] (effects_trans _ _ _ _ _ [] [] [] [] Heff0 Heffs) Heffr). }
  assert (∀ u, u ∈ found →
     ∃ m, metadata_by_uuid (index w) !! u = Some m ∧ type_ m = "CollectionType" ∧
          metadata_by_uuid (index wr) !! u = None ∧
          (∀ p, parent m = Some p → p ≠ "" → ¬ listed_under (index wr) p u)) as Hnew.
  { intros u Hu. destruct (Hgone u Hu) as (m & Hm & Hnone & Hpar).
    rewrite Hixs in Hm. exists m. split_and!; [done| |done..].
    rewrite Hfound in Hu. apply elem_of_filter_fst in Hu as (m' & Hin & Hem).
    apply elem_of_map_to_list in Hin.
    apply andb_true_iff in Hem as [Hty%bool_decide_eq_true _]. simpl in Hty.
    congruence. }
  destruct found as [|u0 found'] eqn:Hfoundeq.
  - intros [= <- <-]. split; [eauto|].
    exists []. rewrite app_nil_r. split_and!; [done|by intros ? ?%elem_of_nil|].
    destruct Heffr as [_ _ _ _ _ Hshr].
    assert (empty_collections (index w) = []) as Hnone.
    { symmetry in Hfound. apply fmap_nil_inv in Hfound. done. }
    (* no removal was made: the index is the one scanned *)
    assert (index wr = index ws) as ->; [|by rewrite Hixs].
    clear -Hrm0. cbn in Hrm0. injection Hrm0 as <-. done.
  - rewrite <- Hfoundeq in *. intros Hrec. apply IH in Hrec as [[outr Heffrec] Hr].
    split.
    { exists (([PrintIteration it] ++ outs) ++ outr).
      apply (effects_trans _ _ _ _ _ [] [] [] [] Heff Heffrec). }
    destruct Heffrec as [_ _ _ _ _ [Hsu Hsp _]].
    destruct r as [deleted|e].
    + destruct Hr as (new & -> & Hnew' & Hfinal).
      exists (found ++ new). rewrite app_assoc. split_and!; [done| |done].
      intros u [Hu|Hu]%elem_of_app.
      * destruct (Hnew u Hu) as (m & Hm & Hty & Hnone & Hpar).
        exists m. split_and!; [done..| |].
        -- destruct (metadata_by_uuid (index w1) !! u) eqn:Hu1; [|done].
           apply Hsu in Hu1. congruence.
        -- intros p Hp Hne Hl. eapply Hpar; eauto.
      * destruct (Hnew' u Hu) as (m & Hm & Hrest).
        exists m. split; [|done].
        destruct Heff as [_ _ _ _ _ [Hsu0 _ _]]. by apply Hsu0.
    + destruct Hr as [?|[?|[-> Hle]]]; [tauto..|].
      right; right. split; [done|].
      assert (size (metadata_by_uuid (index wr)) < size (metadata_by_uuid (index w))); [|lia].
      apply map_subset_size. apply map_subset_alt. split.
      * apply map_subseteq_spec. intros u m.
        destruct Heff as [_ _ _ _ _ [Hsu0 _ _]]. apply Hsu0.
      * destruct (Hnew u0) as (m & Hm & _ & Hnone & _); [rewrite Hfoundeq; left|].
        exists u0. rewrite Hm. split; [eauto|done].
Qed.

(** The loop leaves the entry of the empty parent as it was. *)
Lemma for_each_remove_root_entry l w r w' :
  for_each l (fun u => on_index (remove_uuid u)) w = (r, w') →
  metadata_by_parent (index w') !! "" = metadata_by_parent (index w) !! "".
Proof.
  revert w. induction l as [|u l IH]; intros w.
  { by intros [= <- <-]. }
  rewrite for_each_cons. unfold on_index.
  destruct (remove_uuid u (index w)) as [r1 ix1] eqn:Hrm.
  apply remove_uuid_root_entry in Hrm. destruct r1 as [[]|e1].
  - intros Hrest%IH. by rewrite Hrest.
  - by intros [= <- <-].
Qed.

Lemma emptydir_loop_root_entry fuel it acc w r w1 :
  emptydir_loop fuel it acc w = (r, w1) →
  metadata_by_parent (index w1) !! "" = metadata_by_parent (index w) !! "".
Proof.
  revert it acc w. induction fuel as [|fuel IH]; intros it acc w.
  { by intros [= <- <-]. }
  cbn [emptydir_loop]. unfold print at 1. munfold.
  set (w0 := set_stdout (fun out => out ++ [PrintIteration it]) w).
  change (index w) with (index w0).
  destruct (scan_empty (map_to_list (metadata_by_uuid (index w0))) w0)
    as [[found|e] ws] eqn:Hscan; apply scan_empty_inv in Hscan as (Hixs & _).
  2:{ intros [= <- <-]. by rewrite Hixs. }
  destruct (for_each found (fun u => on_index (remove_uuid u)) ws)
    as [[[]|e] wr] eqn:Hrm; apply for_each_remove_root_entry in Hrm.
  2:{ intros [= <- <-]. by rewrite Hrm, Hixs. }
  destruct found as [|u0 found'].
  - intros [= <- <-]. by rewrite Hrm, Hixs.
  - intros Hrec%IH. by rewrite Hrec, Hrm, Hixs.
Qed.

(** The bound given to the loop is never reached. *)
Lemma emptydir_loop_bound_suffices (args : Args) (w : World) :
  (cleanup_emptydir args w).1 ≠ Raise LoopBoundExceeded.
Proof.
  unfold cleanup_emptydir. munfold.
  destruct (emptydir_loop _ 1 [] w) as [[deleted|e] w1] eqn:Hloop.
  - destruct deleted; simpl; [done|].
    unfold ask. destruct (yes args); munfold; simpl.
    + unfold ssh. by destruct (dryrun args).
    + unfold input. destruct (stdin w1); [done|]. simpl.
      case_bool_decide; [|done]. unfold ssh. by destruct (dryrun args).
  - simpl. apply emptydir_loop_inv in Hloop as [_ [->|[->|[_ Hle]]]]; [done..|lia].
Qed.

(** C10, as the code has it: the uuids the loop collected are removed from
    the indices before the question is asked. When the operator declines,
    the pass answers [False] and sends nothing to the device, while every
    collected uuid is gone from by-id and, when its parent is not the
    root, from the set of its parent. The entry of the empty parent is as
    it was before the pass: a collected uuid that was listed at the root is
    still listed there. *)
Theorem declined_after_index_removals (args : Args) (w w1 : World)
    (deleted_uuids : list string) (s : string) (rest : list string) :
  yes args = false →
  emptydir_loop (S (size (metadata_by_uuid (index w)))) 1 [] w = (Ret deleted_uuids, w1) →
  deleted_uuids ≠ [] →
  stdin w1 = s :: rest → s ∉ [""; "y"; "Y"] →
  cleanup_emptydir args w = (Ret false, set_stdin (fun _ => rest) w1) ∧
  ssh_log w1 = ssh_log w ∧
  metadata_by_parent (index w1) !! "" = metadata_by_parent (index w) !! "" ∧
  ∀ u, u ∈ deleted_uuids →
    ∃ m, metadata_by_uuid (index w) !! u = Some m ∧
         type_ m = "CollectionType" ∧
         metadata_by_uuid (index w1) !! u = None ∧
         (∀ p, parent m = Some p → p ≠ "" → ¬ listed_under (index w1) p u) ∧
         (listed_under (index w) "" u → listed_under (index w1) "" u).
Proof.
  intros Hyes Hloop Hne Hin Hs.
  pose proof (emptydir_loop_root_entry _ _ _ _ _ _ Hloop) as Hroot.
  split_and!.
  - unfold cleanup_emptydir. munfold. rewrite Hloop.
    destruct deleted_uuids; [done|].
    unfold ask, input. rewrite Hyes. munfold. rewrite Hin.
    by rewrite bool_decide_eq_false_2.
  - apply emptydir_loop_inv in Hloop as [[out [_ Hssh _ _ _ _]] _].
    by rewrite Hssh, app_nil_r.
  - done.
  - apply emptydir_loop_inv in Hloop as [_ (new & Hnew & Hu & _)].
    simpl in Hnew. subst new. intros u Hin'.
    destruct (Hu u Hin') as (m & Hm & Hty & Hgone & Hpar).
    exists m. split_and!; [done..|].
    unfold listed_under. by rewrite Hroot.
Qed.

Lemma declined_after_index_removals_witness :
  cleanup_emptydir (mkArgs false false skip [] None)
    (world_of (loaded [("f", collection_md "Papers" "");
                       ("e", collection_md "Drafts" "f")]) ["n"]) = 
  (Ret false,
   set_stdin (fun _ => [])
     (emptydir_loop 3 1 []
        (world_of (loaded [("f", collection_md "Papers" "");
                           ("e", collection_md "Drafts" "f")]) ["n"])).2).
Proof.
  refine (proj1 (declined_after_index_removals (mkArgs false false skip [] None)
           (world_of (loaded [("f", collection_md "Papers" "");
                              ("e", collection_md "Drafts" "f")]) ["n"])
           _ ["e"; "f"] "n" [] eq_refl _ _ _ _)).
  - vm_compute. reflexivity.
  - discriminate.
  - vm_compute. reflexivity.
  - intros Hin. repeat (apply elem_of_cons in Hin as [Hin|Hin]; [discriminate|]).
    by apply elem_of_nil in Hin.
Defined.

(** C10 as stated fails for an empty collection of the root: declined or
    not, its id stays listed under the empty parent. *)
Lemma declined_root_collection_still_listed :
  ¬ declined_as_stated (mkArgs false false skip [] None)
      (world_of (loaded [("f", collection_md "Papers" "")]) ["n"]).
Proof.
  intros Hst.
  destruct (Hst ["f"]
              (emptydir_loop 2 1 []
                 (world_of (loaded [("f", collection_md "Papers" "")]) ["n"])).2
              "n" []) as (w' & Hrun & _ & Hgone).
  - reflexivity.
  - vm_compute. reflexivity.
  - discriminate.
  - vm_compute. reflexivity.
  - intros Hin. repeat (apply elem_of_cons in Hin as [Hin|Hin]; [discriminate|]).
    by apply elem_of_nil in Hin.
  - destruct (Hgone "f") as [_ Hpar]; [left|].
    apply (Hpar ""). vm_compute in Hrun. injection Hrun as <-.
    exists {[ "f" := collection_md "Papers" "" ]}. split; [|eauto].
    vm_compute. reflexivity.
Qed.

(** ** The duplicates pass *)

Section Duplicates.

Context `{Library}.
Variable args : Args.

Lemma effects_out_app w1 w2 w3 o1 o2 c l :
  effects w1 w2 o1 [] [] → effects w2 w3 o2 c l → effects w1 w3 (o1 ++ o2) c l.
Proof. intros H1 H2. apply (effects_trans _ _ _ _ _ [] _ [] _ H1 H2). Qed.

Lemma collect_candidates_inv members w r w' :
  collect_candidates members w = (r, w') →
  index w' = index w ∧
  (∃ out, effects w w' out [] []) ∧
  match r with
  | Ret tmp => tmp = candidates_of (index w) members
  | Raise e => e = ValueError ∨ e = KeyError ∨ e = RecursionError
  end.
Proof.
  revert w r w'. induction members as [|u members IH]; intros w r w'.
  { intros [= <- <-]. split_and!; [done|exists []; apply effects_refl|done]. }
  cbn [collect_candidates candidates_of]. munfold.
  destruct (get_metadata_by_uuid (index w) u) as [m|] eqn:Hm.
  2:{ unfold print. munfold. intros Hrest. apply IH in Hrest as (Hix & [out Heff] & Hr).
      split_and!; [done| |done].
      exists ([PrintMetadataMissing u] ++ out).
      eapply effects_out_app; [apply (effects_print _ w)|exact Heff]. }
  destruct (int_of_str (lastModified m)) as [lm|] eqn:Hlm.
  - destruct (collect_candidates members w) as [[tmp|e] w1] eqn:Hrest;
      intros [= <- <-]; apply IH in Hrest as (Hix & Heff & Hr);
      split_and!; try done. by subst.
  - destruct (fullpath (index w) m) as [path|e] eqn:Hpath.
    + intros [= <- <-]. split_and!; [done| |tauto].
      exists [PrintLastModifiedError path]. apply (effects_print _ w).
    + intros [= <- <-]. split_and!; [done|exists []; apply effects_refl|].
      apply fullpath_raises in Hpath. tauto.
Qed.

Lemma present_candidates_inv i tmp w r w' :
  present_candidates i tmp w = (r, w') →
  index w' = index w ∧
  (∃ out, effects w w' out [] []) ∧
  match r with
  | Ret _ => True
  | Raise e => e = KeyError ∨ e = RecursionError
  end.
Proof.
  revert i w r w'. induction tmp as [|[[lm u] m] tmp IH]; intros i w r w'.
  { intros [= <- <-]. split_and!; [done|exists []; apply effects_refl|done]. }
  cbn [present_candidates]. munfold.
  destruct (fullpath (index w) m) as [path|e] eqn:Hpath.
  - unfold print. munfold. intros Hrest. apply IH in Hrest as (Hix & [out Heff] & Hr).
    split_and!; [done| |done].
    eexists (_ :: out).
    eapply (effects_out_app _ _ _ [_]); [apply (effects_print _ w)|exact Heff].
  - intros [= <- <-]. split_and!; [done|exists []; apply effects_refl|].
    by apply fullpath_raises in Hpath.
Qed.

Lemma select_candidate_inv len lines w r w' :
  select_candidate len lines w = (r, w') →
  stdin w = lines →
  index w' = index w ∧
  (∃ out consumed, effects w w' out [] consumed) ∧
  match r with
  | Ret i => (i = 0 ∨ i = -1 ∨ i = -2 ∨ 0 ≤ i < Z.of_nat len)%Z
  | Raise e => e = EOFError
  end.
Proof.
  revert w r w'. induction lines as [|s lines IH]; intros w r w'.
  - cbn [select_candidate]. destruct (len =? 1); munfold.
    + intros [= <- <-] _. split_and!; [done| |tauto].
      exists [PrintOnlyOneCandidate], []. apply (effects_print _ w).
    + intros [= <- <-] _. split_and!; [done| |done].
      exists [], []. apply effects_refl.
  - cbn [select_candidate]. destruct (len =? 1); munfold.
    { intros [= <- <-] _. split_and!; [done| |tauto].
      exists [PrintOnlyOneCandidate], []. apply (effects_print _ w). }
    intros Hrun Hin.
    set (w0 := set_stdin (fun _ => lines) w) in *.
    assert (effects w w0 [] [] [s]) as Heff0.
    { split; simpl; rewrite ?app_nil_r; auto using index_shrinks_refl. }
    assert (∀ i, (Ret i, w0) = (r, w') →
              (i = 0 ∨ i = -1 ∨ i = -2 ∨ 0 ≤ i < Z.of_nat len)%Z →
              index w' = index w ∧ (∃ out consumed, effects w w' out [] consumed) ∧
              match r with
              | Ret i => (i = 0 ∨ i = -1 ∨ i = -2 ∨ 0 ≤ i < Z.of_nat len)%Z
              | Raise e => e = EOFError
              end) as Hdone.
    { intros i [= <- <-] Hi. split_and!; [done|eauto|done]. }
    assert (∀ o, select_candidate len lines (print o w0).2 = (r, w') →
              index w' = index w ∧ (∃ out consumed, effects w w' out [] consumed) ∧
              match r with
              | Ret i => (i = 0 ∨ i = -1 ∨ i = -2 ∨ 0 ≤ i < Z.of_nat len)%Z
              | Raise e => e = EOFError
              end) as Hagain.
    { intros o Hrest. apply IH in Hrest as (Hix & (out & consumed & Heff) & Hr); [|done].
      split_and!; [done| |done].
      exists ([o] ++ out), ([s] ++ consumed).
      apply (effects_trans _ _ _ [] ([o] ++ out) [] [] [s] consumed Heff0).
      apply (effects_out_app _ _ _ [o] out _ _ (effects_print o w0) Heff). }
    repeat case_bool_decide; try (eapply Hdone; [exact Hrun|tauto]).
    destruct (int_of_str s) as [i|].
    + case_bool_decide; [eapply Hdone; [exact Hrun|tauto]|].
      eapply Hagain. exact Hrun.
    + eapply Hagain. exact Hrun.
Qed.

Lemma remove_uuid_by_uuid u ix ix' :
  remove_uuid u ix = (Ret tt, ix') →
  metadata_by_uuid ix' = delete u (metadata_by_uuid ix).
Proof.
  intros Hrun. apply remove_uuid_inv in Hrun as (m & Hm & Hcase).
  destruct (parent m) as [p|]; [case_decide|]; try by subst.
  by destruct Hcase as (sib & _ & _ & ->).
Qed.

(** The removals of lines 899-904, when none raises. *)
Lemma remove_others_inv keep tmp w removed w' :
  remove_others args keep tmp w = (Ret removed, w') →
  effects w w' [] (if dryrun args then [] else RmTree <$> removed) [] ∧
  removed = List.filter (fun u => negb (bool_decide (u = keep))) tmp.*1.*2 ∧
  (∀ u, metadata_by_uuid (index w') !! u =
        if bool_decide (u ∈ removed) then None else metadata_by_uuid (index w) !! u).
Proof.
  revert w removed w'. induction tmp as [|[[lm u] m] tmp IH]; intros w removed w'.
  { intros [= <- <-]. destruct (dryrun args); split_and!; try done; apply effects_refl. }
  cbn [remove_others]. csimpl. case_bool_decide as Hkeep; simpl.
  { apply IH. }
  munfold.
  pose proof (effects_remove_uuid u w) as Heff1. unfold on_index in *.
  destruct (remove_uuid u (index w)) as [[[]|e] ix1] eqn:Hrm; [|done].
  simpl in Heff1.
  set (w1 := set_index (fun _ => ix1) w) in *.
  pose proof (effects_ssh (RmTree u) (dryrun args) w1) as Heff2.
  destruct (ssh (RmTree u) (dryrun args) w1) as [[[]|e] w2] eqn:Hssh.
  2:{ unfold ssh in Hssh. by destruct (dryrun args). }
  simpl in Heff2.
  destruct (remove_others args keep tmp w2) as [[removed'|e] w3] eqn:Hrest; [|done].
  intros [= <- <-]. apply IH in Hrest as (Heff3 & -> & Hby).
  split_and!; [|done|].
  - pose proof (effects_trans _ _ _ _ _ _ _ _ _
                  (effects_trans _ _ _ _ _ _ _ _ _ Heff1 Heff2) Heff3) as Heff.
    simpl in Heff. destruct (dryrun args); exact Heff.
  - intros u'. rewrite Hby.
    assert (index w2 = ix1) as ->.
    { unfold ssh in Hssh. destruct (dryrun args); by injection Hssh as <-. }
    rewrite (remove_uuid_by_uuid _ _ _ Hrm).
    destruct (decide (u' = u)) as [->|Hne].
    + rewrite lookup_delete_eq. rewrite (bool_decide_eq_true_2 (u ∈ u :: _)) by left.
      by case_bool_decide.
    + rewrite lookup_delete_ne by done.
      repeat case_bool_decide; try done; set_solver.
Qed.

Lemma present_group_inv members w r w1 :
  present_group members w = (r, w1) →
  index w1 = index w ∧
  (∃ out, effects w w1 out [] []) ∧
  match r with
  | Ret (Some tmp) => tmp = merge_sort sorts_before (candidates_of (index w) members)
  | Ret None => True
  | Raise e => e = ValueError ∨ e = RecursionError
  end.
Proof.
  unfold present_group, try_except_KeyError. munfold.
  destruct (collect_candidates members w) as [[tmp|e] w0] eqn:Hcol;
    apply collect_candidates_inv in Hcol as (Hix0 & [out0 Heff0] & Hr0).
  2:{ assert (∀ w2, effects w0 w2 [PrintShouldNotHappen] [] [] → index w2 = index w0 →
                (∃ out, effects w w2 out [] []) ∧ index w2 = index w) as Hhandled.
      { intros w2 Heff2 Hix2. split; [|congruence].
        exists (out0 ++ [PrintShouldNotHappen]). eapply effects_out_app; eauto. }
      destruct Hr0 as [->|[->| ->]]; intros [= <- <-].
      - split_and!; [done|eauto|tauto].
      - destruct (Hhandled _ (effects_print PrintShouldNotHappen w0) eq_refl).
        simpl. split_and!; done.
      - split_and!; [done|eauto|tauto]. }
  simpl in Hr0. rewrite Hr0. clear Hr0 tmp.
  destruct (present_candidates 0 _ w0) as [[[]|e] w2] eqn:Hpres;
    apply present_candidates_inv in Hpres as (Hix2 & [out2 Heff2] & Hr2).
  - intros [= <- <-]. split_and!; [congruence| |done].
    exists (out0 ++ out2). eapply effects_out_app; eauto.
  - assert (∃ out, effects w w2 out [] []) as Heff.
    { exists (out0 ++ out2). eapply effects_out_app; eauto. }
    destruct Hr2 as [-> | ->].
    + intros [= <- <-]. simpl. destruct Heff as [out Heff]. split_and!; [congruence| |done].
      exists (out ++ [PrintShouldNotHappen]).
      eapply effects_out_app; [exact Heff|apply (effects_print _ w2)].
    + intros [= <- <-]. split_and!; [congruence|done|tauto].
Qed.

Lemma resolve_group_unfold j total md5 members :
  resolve_group args j total md5 members =
  (print (PrintGroup j total (length members) md5);;
   presented ← present_group members;
   match presented with
   | None => mret (true, [])
   | Some tmp =>
       w ← get;
       i ← select_candidate (length tmp) (stdin w);
       if bool_decide (i = -1)%Z then print PrintSkippingFile;; mret (true, [])
       else if bool_decide (i = -2)%Z then print PrintCleanupStopped;; mret (false, [])
       else
         match tmp !! Z.to_nat i with
         | None => raise IndexError
         | Some (_, keep, _) =>
             removed ← remove_others args keep tmp;
             print (PrintRemoved (length tmp - 1));;
             mret (true, removed)
         end
   end).
Proof. reflexivity. Qed.

(** One group, when its handling ends: the commands sent are the removals
    of the uuids it reports. *)
Lemma resolve_group_effects j total md5 members w go_on removed w' :
  resolve_group args j total md5 members w = (Ret (go_on, removed), w') →
  ∃ out lines,
    effects w w' out (if dryrun args then [] else RmTree <$> removed) lines.
Proof.
  rewrite resolve_group_unfold. unfold print. munfold. cbv beta iota.
  pose proof (effects_print (PrintGroup j total (length members) md5) w) as Heff0.
  simpl in Heff0.
  destruct (present_group members _) as [[[tmp|]|e] w1] eqn:Hpres;
    apply present_group_inv in Hpres as (Hix1 & [out1 Heff1] & Hr1);
    [| |simpl; intros [=]].
  2:{ intros [= <- <- <-].
      exists ([PrintGroup j total (length members) md5] ++ out1), [].
      destruct (dryrun args); eapply effects_out_app; eauto. }
  assert (effects w w1 ([PrintGroup j total (length members) md5] ++ out1) [] []) as Heff01
    by (eapply effects_out_app; eauto).
  destruct (select_candidate (length tmp) (stdin w1) w1) as [[i|e] w2] eqn:Hsel; [|done].
  apply select_candidate_inv in Hsel as (Hix2 & (out2 & lines & Heff2) & Hi); [|done].
  assert (effects w w2 (([PrintGroup j total (length members) md5] ++ out1) ++ out2) [] lines)
    as Heff012 by (eapply effects_out_app; eauto).
  assert (∀ o, effects w (print o w2).2 ((([PrintGroup j total (length members) md5]
              ++ out1) ++ out2) ++ [o]) [] lines) as Hprint.
  { intros o. pose proof (effects_trans _ _ _ _ _ _ _ _ _ Heff012 (effects_print o w2)) as Hp.
    simpl in Hp. rewrite ?app_nil_r in Hp. exact Hp. }
  simpl in Hprint.
  case_bool_decide.
  { intros [= <- <- <-]. do 2 eexists. destruct (dryrun args); apply Hprint. }
  case_bool_decide.
  { intros [= <- <- <-]. do 2 eexists. destruct (dryrun args); apply Hprint. }
  destruct (tmp !! Z.to_nat i) as [[[lm keep] m]|]; [|done].
  destruct (remove_others args keep tmp w2) as [[removed'|e] w3] eqn:Hrm; [|done].
  apply remove_others_inv in Hrm as (Heff3 & _ & _).
  intros [= <- <- <-]. do 2 eexists.
  pose proof (effects_trans _ _ _ _ _ _ _ _ _
                (effects_trans _ _ _ _ _ _ _ _ _ Heff012 Heff3)
                (effects_print (PrintRemoved (length tmp - 1)) w3)) as Heff.
  rewrite !app_nil_r in Heff. simpl in Heff. exact Heff.
Qed.

Lemma resolve_groups_effects j total database duplicates acc w deleted_uuids w' :
  resolve_groups args j total database duplicates acc w = (Ret deleted_uuids, w') →
  ∃ new out lines,
    deleted_uuids = acc ++ new ∧
    effects w w' out (if dryrun args then [] else RmTree <$> new) lines.
Proof.
  revert j acc w. induction duplicates as [|md5 duplicates IH]; intros j acc w.
  { intros [= <- <-]. exists [], [], []. rewrite app_nil_r. split; [done|].
    destruct (dryrun args); apply effects_refl. }
  cbn [resolve_groups]. munfold.
  destruct (resolve_group args j total md5 _ w) as [[[go_on removed]|e] w1] eqn:Hgroup;
    [|done].
  apply resolve_group_effects in Hgroup as (out1 & lines1 & Heff1).
  destruct go_on.
  - intros Hrest. apply IH in Hrest as (new & out2 & lines2 & -> & Heff2).
    exists (removed ++ new), (out1 ++ out2), (lines1 ++ lines2).
    rewrite app_assoc. split; [done|].
    pose proof (effects_trans _ _ _ _ _ _ _ _ _ Heff1 Heff2) as Heff.
    destruct (dryrun args); [exact Heff|]. by rewrite fmap_app.
  - intros [= <- <-]. exists removed, out1, lines1. done.
Qed.

(** Reading the listing changes nothing unless a line is unreadable. *)
Lemma read_md5sums_ret results database duplicates w x w' :
  read_md5sums results database duplicates w = (Ret x, w') → w' = w.
Proof.
  revert database duplicates.
  induction results as [|[md5 u|line] rest IH]; intros database duplicates; simpl.
  - munfold. by intros [= _ <-].
  - apply IH.
  - unfold print. munfold. done.
Qed.

Lemma cleanup_duplicates_effects results w r w' :
  cleanup_duplicates args results w = (Ret r, w') →
  ∃ deleted_uuids out lines,
    r = bool_decide (0 < length deleted_uuids) ∧
    effects w w' out (Md5sums :: if dryrun args then [] else RmTree <$> deleted_uuids) lines.
Proof.
  unfold cleanup_duplicates.
  pose proof (effects_trans _ _ _ _ _ _ _ _ _ (effects_print PrintComputingMd5sum w)
                (effects_ssh Md5sums false (print PrintComputingMd5sum w).2)) as Heff0.
  simpl in Heff0. unfold ssh, print in *. munfold. cbv beta iota in *.
  destruct (read_md5sums results ∅ ∅ _) as [[[database duplicates]|e] w0] eqn:Hread; [|done].
  apply read_md5sums_ret in Hread as ->.
  cbv beta iota.
  destruct (resolve_groups args _ _ _ _ _ _) as [[deleted|e] w1] eqn:Hgroups; [|done].
  apply resolve_groups_effects in Hgroups as (new & out & lines & Hnew & Heff1).
  simpl in Hnew. subst new.
  intros [= <- <-].
  exists deleted, ([PrintComputingMd5sum] ++ out ++ [PrintRemovedTotal (length deleted)]), lines.
  split; [done|].
  pose proof (effects_trans _ _ _ _ _ _ _ _ _
                (effects_trans _ _ _ _ _ _ _ _ _ Heff0 Heff1)
                (effects_print (PrintRemovedTotal (length deleted)) w1)) as Heff.
  simpl in Heff. rewrite !app_nil_r in Heff. exact Heff.
Qed.

End Duplicates.

(** ** The [clean] mode *)

Section Clean.

Context `{Library}.
Variable args : Args.

Lemma ask_effects w b w' :
  ask args w = (Ret b, w') → ∃ lines, effects w w' [] [] lines.
Proof.
  unfold ask. destruct (yes args); munfold.
  - intros [= <- <-]. exists []. apply effects_refl.
  - destruct (input w) as [[s|e] w1] eqn:Hin; [|done].
    intros [= <- <-]. exists [s]. by apply effects_input.
Qed.

(** A pass that ends by asking and sending one batch removal. *)
Lemma confirm_batch_effects (l : list string) w r w' :
  (ok ← ask args; if ok : bool then ssh (RmBatch l) (dryrun args);; mret true
                  else mret false) w = (Ret r, w') →
  ∃ lines, effects w w' [] (if r && negb (dryrun args) then [RmBatch l] else []) lines.
Proof.
  munfold. destruct (ask args w) as [[ok|e] w1] eqn:Hask; [|done].
  apply ask_effects in Hask as [lines Heff]. destruct ok.
  - pose proof (effects_ssh (RmBatch l) (dryrun args) w1) as Hssh.
    unfold ssh in *. destruct (dryrun args); munfold; intros [= <- <-]; simpl in *;
      exists lines; pose proof (effects_trans _ _ _ _ _ _ _ _ _ Heff Hssh) as Ht;
      simpl in Ht; by rewrite app_nil_r in Ht.
  - intros [= <- <-]. exists lines. exact Heff.
Qed.

Lemma cleanup_deleted_effects w r w' :
  cleanup_deleted args w = (Ret r, w') →
  ∃ out lines l,
    effects w w' out (if r && negb (dryrun args) then [RmBatch l] else []) lines.
Proof.
  unfold cleanup_deleted.
  pose proof (effects_print PrintRemovingTrash w) as Heff0.
  unfold print in *. munfold. cbv beta iota in *.
  set (w0 := set_stdout _ w) in *.
  destruct (scan_deleted _) as [deleted_uuids|e]; [|done].
  destruct deleted_uuids as [|u l].
  - intros [= <- <-]. exists ([PrintRemovingTrash] ++ [PrintNoDeleted]), [], [].
    eapply effects_out_app; [exact Heff0|apply (effects_print _ w0)].
  - intros Hrun. apply confirm_batch_effects in Hrun as [lines Heff].
    exists ([PrintRemovingTrash] ++ []), lines, (u :: l).
    eapply effects_out_app; [exact Heff0|exact Heff].
Qed.

Lemma cleanup_orphaned_effects files w w' :
  cleanup_orphaned args files w = (Ret tt, w') →
  ∃ out lines cmds,
    effects w w' out (ListOrphans :: cmds) lines ∧
    (cmds = [] ∨ (cmds = [RmOrphans] ∧ dryrun args = false)).
Proof.
  unfold cleanup_orphaned.
  pose proof (effects_trans _ _ _ _ _ _ _ _ _ (effects_print PrintRemovingOrphans w)
                (effects_ssh ListOrphans false (print PrintRemovingOrphans w).2)) as Heff0.
  simpl in Heff0. unfold ssh, print in *. munfold. cbv beta iota in *.
  set (w0 := set_ssh_log (fun l => l ++ [ListOrphans]) _) in *.
  destruct (_ =? 1).
  { intros [= <-]. exists ([PrintRemovingOrphans] ++ [PrintNoOrphans]), [], [].
    split; [|by left].
    pose proof (effects_trans _ _ _ _ _ _ _ _ _ Heff0 (effects_print PrintNoOrphans w0)) as Ht.
    exact Ht. }
  destruct (dryrun args) eqn:Hdry.
  { intros [= <-]. exists [PrintRemovingOrphans], [], []. split; [done|by left]. }
  destruct (ask args w0) as [[ok|e] w1] eqn:Hask; [|done].
  apply ask_effects in Hask as [lines Heff1]. destruct ok.
  - intros [= <-]. exists [PrintRemovingOrphans], lines, [RmOrphans]. split; [|by right].
    pose proof (effects_trans _ _ _ _ _ _ _ _ _
                  (effects_trans _ _ _ _ _ _ _ _ _ Heff0 Heff1)
                  (effects_ssh RmOrphans false w1)) as Ht.
    simpl in Ht. by rewrite app_nil_r in Ht.
  - intros [= <-]. exists [PrintRemovingOrphans], lines, []. split; [|by left].
    exact (effects_trans _ _ _ _ _ _ _ _ _ Heff0 Heff1).
Qed.

Lemma cleanup_emptydir_effects w r w' :
  cleanup_emptydir args w = (Ret r, w') →
  ∃ out lines l,
    effects w w' out (if r && negb (dryrun args) then [RmBatch l] else []) lines.
Proof.
  unfold cleanup_emptydir. munfold.
  destruct (emptydir_loop _ 1 [] w) as [[deleted_uuids|e] w1] eqn:Hloop; [|done].
  apply emptydir_loop_inv in Hloop as [[out Heff] _].
  destruct deleted_uuids as [|u l].
  - unfold print. munfold. intros [= <- <-].
    exists (out ++ [PrintNoEmptyDirectories]), [], [].
    eapply effects_out_app; [exact Heff|apply (effects_print _ w1)].
  - intros Hrun. apply confirm_batch_effects in Hrun as [lines Heff'].
    exists out, lines, (u :: l).
    pose proof (effects_trans _ _ _ _ _ _ _ _ _ Heff Heff') as Ht.
    simpl in Ht. by rewrite app_nil_r in Ht.
Qed.

End Clean.

(** C9, as the code has it: the trash, duplicates and empty-collection
    passes return a boolean that (outside a dry run) tells whether the pass
    sent a removal to the device; the orphan pass returns nothing and its
    removal is not counted; the restart is sent exactly when the run is not
    a dry run and one of the three booleans is true. *)
Theorem clean_restart `{Library} (args : Args) (files : string)
    (results : list Md5Line) (w w' : World) :
  clean args files results w = (Ret tt, w') →
  ∃ r1 r2 r3 w1 w2 w3 w4 c1 c2 c3 c4,
    cleanup_deleted args w = (Ret r1, w1) ∧
    cleanup_orphaned args files w1 = (Ret tt, w2) ∧
    cleanup_duplicates args results w2 = (Ret r2, w3) ∧
    cleanup_emptydir args w3 = (Ret r3, w4) ∧
    ssh_log w1 = ssh_log w ++ c1 ∧ ssh_log w2 = ssh_log w1 ++ c2 ∧
    ssh_log w3 = ssh_log w2 ++ c3 ∧ ssh_log w4 = ssh_log w3 ++ c4 ∧
    RestartXochitl ∉ c1 ++ c2 ++ c3 ++ c4 ∧
    (if dryrun args then existsb is_removal (c1 ++ c2 ++ c3 ++ c4) = false
     else r1 = existsb is_removal c1 ∧ r2 = existsb is_removal c3 ∧
          r3 = existsb is_removal c4) ∧
    ssh_log w' = ssh_log w4 ++
      (if negb (dryrun args) && (r1 || r2 || r3) then [RestartXochitl] else []).
Proof.
  unfold clean. munfold.
  destruct (cleanup_deleted args w) as [[r1|e] w1] eqn:H1; [|done].
  destruct (cleanup_orphaned args files w1) as [[[]|e] w2] eqn:H2; [|done].
  destruct (cleanup_duplicates args results w2) as [[r2|e] w3] eqn:H3; [|done].
  destruct (cleanup_emptydir args w3) as [[r3|e] w4] eqn:H4; [|done].
  intros Hrestart.
  pose proof (cleanup_deleted_effects _ _ _ _ H1) as (o1 & l1 & b1 & [_ E1 _ _ _ _]).
  pose proof (cleanup_orphaned_effects _ _ _ _ H2) as (o2 & l2 & c2 & [_ E2 _ _ _ _] & Hc2).
  pose proof (cleanup_duplicates_effects _ _ _ _ _ H3)
    as (deleted & o3 & l3 & Hr2 & [_ E3 _ _ _ _]).
  pose proof (cleanup_emptydir_effects _ _ _ _ H4) as (o4 & l4 & b4 & [_ E4 _ _ _ _]).
  exists r1, r2, r3, w1, w2, w3, w4.
  exists (if r1 && negb (dryrun args) then [RmBatch b1] else []), (ListOrphans :: c2),
    (Md5sums :: (if dryrun args then [] else RmTree <$> deleted)),
    (if r3 && negb (dryrun args) then [RmBatch b4] else []).
  split_and!; [done..| | |].
  - assert (∀ l : list string, RestartXochitl ∉ RmTree <$> l) as Hrm.
    { intros l (u & Hu & _)%list_elem_of_fmap. discriminate. }
    rewrite !elem_of_app.
    destruct r1, r3, (dryrun args); simpl;
      destruct Hc2 as [->|[-> ?]]; try done;
      rewrite ?elem_of_cons, ?elem_of_nil; specialize (Hrm deleted); naive_solver.
  - destruct (dryrun args) eqn:Hdry.
    + rewrite !andb_false_r. simpl. by destruct Hc2 as [->|[-> ?]].
    + rewrite !andb_true_r. split_and!.
      * by destruct r1.
      * rewrite Hr2. simpl. destruct deleted; by simpl.
      * by destruct r3.
  - unfold ssh in Hrestart. destruct (negb (dryrun args) && (r1 || r2 || r3));
      injection Hrestart as <-; simpl; by rewrite ?app_nil_r.
Qed.

Lemma clean_restart_witness :
  ssh_log (clean (H := example_library) (mkArgs false true skip [] None) EmptyString
             [Md5Entry "9e107d9d" "d1"]
             (world_of (loaded [("f", collection_md "Papers" "");
                                ("d1", document_md "a.pdf" "")]) [])).2
  = [ListOrphans; Md5sums; RmBatch ["f"]; RestartXochitl].
Proof.
  destruct (clean_restart (H := example_library) (mkArgs false true skip [] None)
              EmptyString [Md5Entry "9e107d9d" "d1"]
              (world_of (loaded [("f", collection_md "Papers" "");
                                 ("d1", document_md "a.pdf" "")]) [])
              (clean (H := example_library) (mkArgs false true skip [] None) EmptyString
                 [Md5Entry "9e107d9d" "d1"]
                 (world_of (loaded [("f", collection_md "Papers" "");
                                    ("d1", document_md "a.pdf" "")]) [])).2)
    as (r1 & r2 & r3 & w1 & w2 & w3 & w4 & c1 & c2 & c3 & c4 & _).
  - vm_compute. reflexivity.
  - vm_compute. reflexivity.
Defined.

(** C9 as stated fails for the orphan pass: when it is the only pass that
    removes something, no restart is sent. The device holds one document
    with its metadata and two files without; the operator confirms the
    removal of the two. *)
Lemma orphans_removed_without_restart :
  ¬ restart_as_stated (H := example_library) (mkArgs false false skip [] None)
      two_orphans [Md5Entry "9e107d9d" "d1"]
      (world_of (loaded [("d1", document_md "a.pdf" "")]) ["y"]).
Proof.
  intros Hst.
  specialize (Hst
    (clean (H := example_library) (mkArgs false false skip [] None) two_orphans
       [Md5Entry "9e107d9d" "d1"]
       (world_of (loaded [("d1", document_md "a.pdf" "")]) ["y"])).2
    [ListOrphans; RmOrphans; Md5sums]).
  destruct Hst as [_ Hst]; [vm_compute; reflexivity..|].
  specialize (Hst eq_refl).
  repeat (apply elem_of_cons in Hst as [Hst|Hst]; [discriminate|]).
  by apply elem_of_nil in Hst.
Qed.

(** ** Pull *)

Section Pull.

Context `{Library}.

(** A name that is not in by-name is reported and gives no anchor. *)
Lemma pull_anchor_not_found doc w :
  get_metadata_by_name (index w) (List.last (Str.split "/" doc) EmptyString) = None →
  pull_anchor doc w = (Ret None, set_stdout (fun out => out ++ [PrintCannotFind doc]) w).
Proof. intros Hnone. unfold pull_anchor. munfold. by rewrite Hnone. Qed.

(** A name that is in by-name: line 753 reads the key ['type'] of the
    dictionary of the records of that name, whose keys are uuids. *)
Lemma pull_anchor_found doc w d :
  get_metadata_by_name (index w) (List.last (Str.split "/" doc) EmptyString) = Some d →
  d !! "type" = None →
  pull_anchor doc w = (Raise KeyError, w).
Proof.
  intros Hd Hty. unfold pull_anchor. munfold. rewrite Hd. unfold getitem. by rewrite Hty.
Qed.

(** The names that are not found do not stop the others. *)
Lemma pull_anchors_cons_not_found doc documents w :
  get_metadata_by_name (index w) (List.last (Str.split "/" doc) EmptyString) = None →
  pull_anchors (doc :: documents) w
  = pull_anchors documents (set_stdout (fun out => out ++ [PrintCannotFind doc]) w).
Proof.
  intros Hnone. cbn [pull_anchors]. munfold. rewrite (pull_anchor_not_found _ _ Hnone).
  by destruct (pull_anchors documents _) as [[]].
Qed.

End Pull.

(** C8, at an input where it fails: pulling a folder that exists. The
    name that is not found is reported and skipped; the name that is found
    raises [KeyError] before any node is built, and nothing is
    downloaded. *)
Theorem pull_existing_name_is_KeyError :
  let w := world_of (loaded [("f1", collection_md "Papers" "");
                             ("d1", document_md "notes" "f1")]) [] in
  let r := pull_from_remarkable (H := example_library)
             (mkArgs false false skip [] None) ["Missing"; "Papers"] w in
  r.1 = Raise KeyError ∧
  stdout r.2 = [PrintCannotFind "Missing"] ∧
  downloaded r.2 = [].
Proof. vm_compute. auto. Qed.

(** ** Duplicates: the order and the selection *)

Section Selection.

Context `{Library}.
Variable args : Args.

Global Instance sorts_before_total : Total sorts_before.
Proof.
  intros [[lm1 u1] m1] [[lm2 u2] m2]. unfold sorts_before. simpl.
  destruct (Z.lt_trichotomy lm1 lm2) as [?|[->|?]]; [right; left; lia| |left; left; lia].
  destruct (total String.le u1 u2); [right|left]; right; done.
Qed.

Lemma Sorted_weaken {A} (R R' : relation A) (l : list A) :
  (∀ a b, R a b → R' a b) → Sorted R l → Sorted R' l.
Proof.
  intros Himp. induction 1 as [|x l Hs IH Hhd]; constructor; [done|].
  destruct Hhd; constructor; auto.
Qed.

(** The candidates are presented later-first. *)
Lemma present_group_sorted members w tmp w1 :
  present_group members w = (Ret (Some tmp), w1) →
  Sorted sorts_before tmp ∧
  Sorted (fun a b : Candidate => (b.1.1 ≤ a.1.1)%Z) tmp ∧
  tmp ≡ₚ candidates_of (index w) members.
Proof.
  intros Hpres. apply present_group_inv in Hpres as (_ & _ & ->).
  split_and!.
  - apply Sorted_merge_sort, _.
  - eapply Sorted_weaken; [|apply Sorted_merge_sort, _].
    intros a b [?|[? _]]; lia.
  - apply merge_sort_Permutation.
Qed.

Local Arguments remove_others : simpl never.

(** The empty answer keeps the first candidate and removes the others. *)
Lemma resolve_group_default j total md5 members w w1 c0 c1 rest lines removed w2 :
  present_group members (print (PrintGroup j total (length members) md5) w).2
    = (Ret (Some (c0 :: c1 :: rest)), w1) →
  stdin w1 = EmptyString :: lines →
  remove_others args c0.1.2 (c0 :: c1 :: rest) (set_stdin (fun _ => lines) w1)
    = (Ret removed, w2) →
  resolve_group args j total md5 members w
    = (Ret (true, removed), (print (PrintRemoved (S (length rest))) w2).2) ∧
  removed = List.filter (fun u => negb (bool_decide (u = c0.1.2))) (c1 :: rest).*1.*2 ∧
  (∀ u, metadata_by_uuid (index w2) !! u =
        if bool_decide (u ∈ removed) then None else metadata_by_uuid (index w1) !! u).
Proof.
  intros Hpres Hin Hrm.
  pose proof (remove_others_inv _ _ _ _ _ _ Hrm) as (_ & Hremoved & Hby).
  assert (index (set_stdin (fun _ => lines) w1) = index w1) as Hix by done.
  rewrite Hix in Hby. clear Hix.
  split_and!; [|by rewrite Hremoved; simpl; rewrite bool_decide_eq_true_2|done].
  rewrite resolve_group_unfold. munfold.
  simpl in Hpres. simpl. rewrite Hpres. cbn [length]. rewrite Hin. simpl.
  destruct c0 as [[lm0 u0] m0]. cbn [fst snd] in Hrm. by rewrite Hrm.
Qed.

(** A group reduced to one candidate is kept without a question. *)
Lemma resolve_group_single j total md5 members w w1 c :
  present_group members (print (PrintGroup j total (length members) md5) w).2
    = (Ret (Some [c]), w1) →
  resolve_group args j total md5 members w
    = (Ret (true, []),
       (print (PrintRemoved 0) (print PrintOnlyOneCandidate w1).2).2).
Proof.
  intros Hpres. rewrite resolve_group_unfold. munfold.
  simpl in Hpres. simpl. rewrite Hpres. simpl.
  destruct (stdin w1); simpl; destruct c as [[lm u] m]; simpl;
    unfold remove_others; simpl; by rewrite bool_decide_eq_true_2.

Qed.

End Selection.

(** C5, at an input where it fails: two files of one fingerprint whose
    records are both in the trash, hence in no index. No candidate is
    left, the operator is asked all the same, and the empty answer reads
    [tmp[0]] of an empty list: [IndexError] ends the pass. With the three
    timestamps of the specification the empty answer keeps the newest, and
    a group reduced to one candidate is kept without reading an answer. *)
Theorem duplicates_without_metadata_is_IndexError :
  let args := mkArgs false false skip [] None in
  let run records results lines :=
    cleanup_duplicates (H := example_library) args results
      (world_of (loaded records) lines) in
  let trashed := [("t1", trashed_md "scan.pdf"); ("t2", trashed_md "scan.pdf")] in
  let three := [("d1", document_at "a.pdf" "" "300"); ("d2", document_at "b.pdf" "" "100");
                ("d3", document_at "c.pdf" "" "200")] in
  (run trashed [Md5Entry "9e107d9d" "t1"; Md5Entry "9e107d9d" "t2"] [EmptyString]).1
    = Raise IndexError ∧
  ((run three [Md5Entry "9e107d9d" "d1"; Md5Entry "9e107d9d" "d2"; Md5Entry "9e107d9d" "d3"]
      [EmptyString]).1 = Ret true ∧
   ssh_log (run three
              [Md5Entry "9e107d9d" "d1"; Md5Entry "9e107d9d" "d2"; Md5Entry "9e107d9d" "d3"]
              [EmptyString]).2 = [Md5sums; RmTree "d3"; RmTree "d2"]) ∧
  ((run three [Md5Entry "9e107d9d" "t1"; Md5Entry "9e107d9d" "d2"] [EmptyString]).1
     = Ret false ∧
   stdin (run three [Md5Entry "9e107d9d" "t1"; Md5Entry "9e107d9d" "d2"] [EmptyString]).2
     = [EmptyString]).
Proof. vm_compute. auto. Qed.

(** [Folder.build] on a folder of the index: a sub-folder and a document
    whose name gets [.pdf]. *)
Lemma build_expands_children :
  let ix := loaded [("f1", collection_md "Papers" "");
                    ("f2", collection_md "Drafts" "f1");
                    ("d1", document_md "notes" "f2")] in
  (fun n => (name n, node_id n, node_class n)) <$>
    (default [] (subnodes <$>
       match build (H := example_library) ix None (Folder ix "Papers" None) with
       | Ret n => Some n
       | Raise _ => None
       end))
  = [("Papers", Some "f1", FolderClass); ("Drafts", Some "f2", FolderClass);
     ("notes.pdf", Some "d1", DocumentClass)].
Proof. vm_compute. reflexivity. Qed.

(** ** The empty-collection pass on a chain *)

Lemma chain_uuid_inj i j : chain_uuid i = chain_uuid j → i = j.
Proof. unfold chain_uuid. intros Heq. by simplify_eq. Qed.

Lemma chain_uuid_not_empty i : chain_uuid i ≠ "".
Proof. done. Qed.

Lemma chain_uuid_not_trash i : chain_uuid i ≠ "trash".
Proof. done. Qed.

Lemma chain_parent_S i : 1 ≤ i → chain_parent (S i) = chain_uuid i.
Proof. by destruct i; [lia|]. Qed.

Lemma chain_md_not_skipped i : skipped (chain_md i) = false.
Proof.
  unfold skipped, chain_md, collection_md. simpl.
  apply bool_decide_eq_false_2. intros [= Heq]. destruct i as [|[|i]]; try done.
Qed.

Lemma chain_by_uuid_Some k u m :
  chain_by_uuid k !! u = Some m ↔ ∃ i, 1 ≤ i ≤ k ∧ u = chain_uuid i ∧ m = chain_md i.
Proof.
  induction k as [|k IH]; simpl.
  - rewrite lookup_empty. split; [done|]. intros (i & ? & _). lia.
  - rewrite lookup_insert. case_decide as Hu.
    + split.
      * intros [= <-]. exists (S k). split_and!; [lia|lia|done..].
      * intros (i & Hi & -> & ->). apply chain_uuid_inj in Hu. by subst.
    + rewrite IH. split; intros (i & Hi & -> & ->); exists i; split_and!; try done; try lia.
      destruct (decide (i = S k)) as [->|]; [done|lia].
Qed.

Lemma chain_by_uuid_fresh k i : k < i → chain_by_uuid k !! chain_uuid i = None.
Proof.
  intros Hlt. destruct (chain_by_uuid k !! chain_uuid i) eqn:Hl; [|done].
  apply chain_by_uuid_Some in Hl as (j & Hj & ->%chain_uuid_inj & _). lia.
Qed.

Lemma chain_by_uuid_size k : size (chain_by_uuid k) = k.
Proof.
  induction k as [|k IH]; simpl; [apply map_size_empty|].
  rewrite map_size_insert_None by (apply chain_by_uuid_fresh; lia). by rewrite IH.
Qed.

Lemma chain_by_uuid_delete k :
  delete (chain_uuid (S k)) (chain_by_uuid (S k)) = chain_by_uuid k.
Proof.
  simpl. rewrite delete_insert_eq. apply delete_id, chain_by_uuid_fresh. lia.
Qed.

Lemma fullpath_rec_root fuel by_uuid m :
  parent m = Some "" → fullpath_rec fuel by_uuid m = Ret ("/" +:+ visibleName m).
Proof. intros Hp. destruct fuel; simpl; by rewrite Hp. Qed.

Lemma fullpath_rec_step fuel by_uuid m p pm :
  parent m = Some p → p ≠ "" → by_uuid !! p = Some pm →
  fullpath_rec (S fuel) by_uuid m =
  match fullpath_rec fuel by_uuid pm with
  | Ret path => Ret (path +:+ "/" +:+ visibleName m)
  | Raise e => Raise e
  end.
Proof.
  intros Hp Hne Hpm. simpl. rewrite Hp, bool_decide_eq_false_2 by done.
  unfold getitem. by rewrite Hpm.
Qed.

(** The path of collection [i] resolves in the chain that holds it. *)
Lemma chain_fullpath fuel k i :
  1 ≤ i ≤ k → i ≤ S fuel →
  fullpath_rec fuel (chain_by_uuid k) (chain_md i) = Ret (chain_path i).
Proof.
  revert i. induction fuel as [|fuel IH]; intros i Hi Hfuel.
  - assert (i = 1) as -> by lia. by rewrite fullpath_rec_root.
  - destruct i as [|[|i]]; [lia|by rewrite fullpath_rec_root|].
    rewrite (fullpath_rec_step _ _ _ (chain_uuid (S i)) (chain_md (S i)));
      [|done|apply chain_uuid_not_empty|].
    + rewrite IH by lia. done.
    + apply chain_by_uuid_Some. exists (S i). split_and!; [lia|lia|done..].
Qed.

(** It does not resolve when the chain above it is longer than the calls
    that are left. *)
Lemma chain_fullpath_deep fuel k i :
  1 ≤ i ≤ k → S fuel < i →
  fullpath_rec fuel (chain_by_uuid k) (chain_md i) = Raise RecursionError.
Proof.
  revert i. induction fuel as [|fuel IH]; intros i Hi Hfuel.
  - destruct i as [|[|i]]; [lia..|]. done.
  - destruct i as [|[|i]]; [lia..|].
    rewrite (fullpath_rec_step _ _ _ (chain_uuid (S i)) (chain_md (S i)));
      [|done|apply chain_uuid_not_empty|].
    + rewrite IH by lia. done.
    + apply chain_by_uuid_Some. exists (S i). split_and!; [lia|lia|done..].
Qed.

(** [fullpath] on the chain: collection [i] resolves exactly when
    [fullpath] nests within the recursion limit. *)
Lemma chain_fullpath_within k i ix :
  metadata_by_uuid ix = chain_by_uuid k → 1 ≤ i ≤ k → i + 2 ≤ recursion_limit →
  fullpath ix (chain_md i) = Ret (chain_path i).
Proof.
  intros Hu Hi Hlim. unfold fullpath. rewrite Hu. apply chain_fullpath; [done|].
  unfold recursion_limit in *. lia.
Qed.

Lemma chain_fullpath_beyond k i ix :
  metadata_by_uuid ix = chain_by_uuid k → 1 ≤ i ≤ k → recursion_limit < i + 2 →
  fullpath ix (chain_md i) = Raise RecursionError.
Proof.
  intros Hu Hi Hlim. unfold fullpath. rewrite Hu. apply chain_fullpath_deep; [done|].
  unfold recursion_limit in *. lia.
Qed.

Lemma chain_name_inj i j : chain_name i = chain_name j → i = j.
Proof. unfold chain_name. intros Heq. by simplify_eq. Qed.

Lemma chain_records_S n :
  chain_records (S n) = chain_records n ++ [(chain_uuid (S n), chain_md (S n))].
Proof. unfold chain_records. by rewrite seq_S, fmap_app. Qed.

(** Loading the chain succeeds and leaves the chain in the index. *)
Lemma retrieve_chain n :
  ∃ ix, retrieve_metadata (chain_records n) empty_index = (Ret tt, ix) ∧
        chain_left n ix ∧
        (∀ nm p, is_Some (metadata_by_name_and_parent ix !! (nm, p)) →
                 ∃ i, 1 ≤ i ≤ n ∧ nm = chain_name i ∧ p = chain_parent i).
Proof.
  induction n as [|n (ix & Hload & [Hby_uuid Hby_parent] & Hnap)].
  { exists empty_index. split_and!; [done| |].
    - split; [done|]. intros i Hi. cbn [empty_index metadata_by_parent].
      rewrite lookup_empty. destruct (decide (i < 0)); [lia|done].
    - intros nm p. simpl. rewrite lookup_empty. by intros []. }
  unfold retrieve_metadata in *. rewrite chain_records_S, for_each_app, Hload.
  rewrite for_each_cons.
  assert (parent (chain_md (S n)) = Some (chain_parent (S n))) as Hparent by done.
  rewrite (load_record_unfold _ _ _ ix (chain_md_not_skipped (S n)) Hparent).
  cbv zeta.
  destruct (metadata_by_name_and_parent ix !! _) as [v|] eqn:Hcollide.
  { destruct (Hnap _ _ (mk_is_Some _ _ Hcollide)) as (i & Hi & Heq%chain_name_inj & _). lia. }
  eexists. split; [reflexivity|]. split_and!.
  - split; simpl.
    + by rewrite Hby_uuid.
    + intros i Hi. unfold insert_nested.
      destruct (decide (chain_parent (S n) = chain_uuid i)) as [Heq|Hne].
      * rewrite Heq, lookup_insert_eq.
        destruct n as [|n]; [by apply eq_sym, chain_uuid_not_empty in Heq|].
        rewrite chain_parent_S in Heq by lia. apply chain_uuid_inj in Heq. subst i.
        rewrite Hby_parent by lia.
        rewrite decide_False, decide_True by lia. done.
      * rewrite lookup_insert_ne by done. rewrite Hby_parent by done.
        destruct n as [|n].
        -- by repeat case_decide; try lia.
        -- rewrite chain_parent_S in Hne by lia.
           assert (i ≠ S n) by (by intros ->).
           repeat case_decide; try done; lia.
  - intros nm p. simpl. rewrite lookup_insert. case_decide as Hkey.
    + injection Hkey as <- <-. intros _. exists (S n). split_and!; [lia|lia|done..].
    + intros (i & Hi & -> & ->)%Hnap. exists i. split_and!; [lia|lia|done..].
Qed.

Lemma loaded_chain n : chain_left n (loaded (chain_records n)).
Proof.
  destruct (retrieve_chain n) as (ix & Hload & Hchain & _).
  unfold loaded. by rewrite Hload.
Qed.

Lemma filter_unique {A} (f : A → bool) (l : list A) (x : A) :
  NoDup l → x ∈ l → f x = true → (∀ y, y ∈ l → f y = true → y = x) →
  List.filter f l = [x].
Proof.
  induction l as [|a l IH]; intros Hnd Hin Hfx Huniq.
  - by apply elem_of_nil in Hin.
  - apply NoDup_cons in Hnd as [Hnotin Hnd]. simpl.
    destruct (f a) eqn:Hfa.
    + assert (a = x) as -> by (apply Huniq; [left|done]).
      f_equal. apply filter_none. intros y Hy.
      destruct (f y) eqn:Hfy; [|done].
      assert (y = x) as -> by (apply Huniq; [by right|done]). done.
    + apply IH; [done| |done|].
      * apply elem_of_cons in Hin as [->|]; [congruence|done].
      * intros y Hy. apply Huniq. by right.
Qed.

Lemma chain_md_type i : type_ (chain_md i) = "CollectionType".
Proof. done. Qed.

(** In the chain of [k + 1] collections the innermost is the one empty
    collection. *)
Lemma chain_empty_collections k ix :
  chain_left (S k) ix →
  empty_collections ix = [(chain_uuid (S k), chain_md (S k))].
Proof.
  intros [Hu Hp]. unfold empty_collections. apply filter_unique.
  - apply NoDup_map_to_list.
  - apply elem_of_map_to_list. rewrite Hu. apply lookup_insert_eq.
  - unfold is_empty_collection. cbn [fst snd].
    rewrite Hp by lia. rewrite decide_False by lia.
    rewrite chain_md_type. by rewrite !bool_decide_eq_true_2.
  - intros [u m] Hin Hem. apply elem_of_map_to_list in Hin. rewrite Hu in Hin.
    apply chain_by_uuid_Some in Hin as (i & Hi & -> & ->).
    unfold is_empty_collection in Hem. cbn [fst snd] in Hem.
    apply andb_true_iff in Hem as [_ Hnone%bool_decide_eq_true].
    rewrite Hp in Hnone by lia.
    destruct (decide (i < S k)); [done|]. by replace i with (S k) by lia.
Qed.

(** Removing the innermost collection leaves the chain one shorter. *)
Lemma chain_remove_innermost k ix :
  chain_left (S k) ix →
  ∃ ix', remove_uuid (chain_uuid (S k)) ix = (Ret tt, ix') ∧ chain_left k ix'.
Proof.
  intros [Hu Hp].
  assert (metadata_by_uuid ix !! chain_uuid (S k) = Some (chain_md (S k))) as Hlook.
  { rewrite Hu. apply lookup_insert_eq. }
  pose proof (remove_uuid_cases ix _ _ Hlook) as Hcase.
  change (parent (chain_md (S k))) with (Some (chain_parent (S k))) in Hcase.
  cbv iota in Hcase.
  destruct k as [|k].
  - rewrite decide_True in Hcase by done.
    eexists. split; [exact Hcase|]. split; simpl.
    + rewrite Hu. apply (chain_by_uuid_delete 0).
    + intros i Hi. rewrite Hp by done. by repeat case_decide; try lia.
  - rewrite chain_parent_S in Hcase by lia.
    rewrite decide_False in Hcase by apply chain_uuid_not_empty.
    specialize (Hcase {[chain_uuid (S (S k)) := chain_md (S (S k))]}).
    rewrite Hp, decide_True in Hcase by lia.
    specialize (Hcase eq_refl).
    rewrite lookup_singleton_eq in Hcase. specialize (Hcase (mk_is_Some _ _ eq_refl)).
    eexists. split; [exact Hcase|]. unfold removed_from_parent. split; simpl.
    + rewrite Hu. apply (chain_by_uuid_delete (S k)).
    + intros i Hi. rewrite delete_singleton_eq, decide_True by done.
      rewrite lookup_delete. case_decide as Heq.
      * apply chain_uuid_inj in Heq. subst i. by rewrite decide_False by lia.
      * rewrite Hp by done. assert (i ≠ S k) by (by intros ->).
        repeat case_decide; try done; lia.
Qed.

(** The loop on the chain of [k] collections: [k] turns that each remove
    the innermost collection left, then the turn that finds none. *)
Lemma chain_loop k fuel it acc w :
  k < fuel → k + 2 ≤ recursion_limit → chain_left k (index w) →
  ∃ w', emptydir_loop fuel it acc w = (Ret (acc ++ chain_innermost_first k), w') ∧
        stdout w' = stdout w ++ chain_trace it k ∧
        metadata_by_uuid (index w') = ∅ ∧
        ssh_log w' = ssh_log w ∧ stdin w' = stdin w.
Proof.
  revert fuel it acc w. induction k as [|k IH]; intros fuel it acc w Hfuel Hlim Hchain;
    (destruct fuel as [|fuel]; [lia|]); cbn [emptydir_loop]; unfold print; munfold;
    cbv beta iota.
  - destruct Hchain as [Hu _]. cbn [index set_stdout chain_by_uuid] in *.
    rewrite Hu, map_to_list_empty.
    simpl. eexists. split; [by rewrite app_nil_r|]. by simpl.
  - set (w0 := set_stdout (fun out => out ++ [PrintIteration it]) w).
    assert (empty_collections (index w0) = [(chain_uuid (S k), chain_md (S k))]) as Hem
      by (by apply chain_empty_collections).
    assert (fullpath (index w0) (chain_md (S k)) = Ret (chain_path (S k))) as Hpath.
    { destruct Hchain as [Hu _]. apply (chain_fullpath_within (S k)); [done|lia|done]. }
    destruct (scan_empty_ok (map_to_list (metadata_by_uuid (index w0))) w0)
      as (found & ws & Hscan).
    { fold (empty_collections (index w0)). rewrite Hem. repeat constructor. eauto. }
    rewrite Hscan.
    apply scan_empty_inv in Hscan as (Hixs & [outs [_ Hssh Hstdin _ _ _]] & -> & paths & Hout & Hpaths).
    fold (empty_collections (index w0)) in Hpaths |- *. rewrite Hem in Hpaths |- *.
    apply Forall2_cons_inv_l in Hpaths as (path & paths' & Hpath' & ->%Forall2_nil_inv_l & ->).
    cbn [fst snd] in Hpath'. rewrite Hpath in Hpath'. injection Hpath' as <-.
    cbn [fmap list_fmap for_each]. munfold. unfold on_index.
    destruct (chain_remove_innermost k (index ws)) as (ix' & Hrm & Hchain').
    { by rewrite Hixs. }
    cbn [fst]. rewrite Hrm. cbv beta iota.
    destruct (IH fuel (S it) (acc ++ [chain_uuid (S k)]) (set_index (fun _ => ix') ws))
      as (w' & Hloop & Hout' & Hu' & Hssh' & Hstdin'); [lia|lia|done|].
    exists w'. simpl in Hloop. rewrite Hloop. split_and!.
    + by rewrite <- app_assoc.
    + rewrite Hout'. cbn [stdout set_index]. rewrite Hout. cbn [stdout w0 set_stdout].
      by rewrite <- !app_assoc.
    + done.
    + rewrite Hssh'. cbn [ssh_log set_index]. rewrite Hssh. by rewrite app_nil_r.
    + rewrite Hstdin'. cbn [stdin set_index]. simpl in Hstdin. done.
Qed.

(** A scan ends at the first empty collection whose path does not
    resolve, before printing it. *)
Lemma scan_empty_raises items w e :
  match List.filter (is_empty_collection (index w)) items with
  | [] => False
  | x :: _ => fullpath (index w) x.2 = Raise e
  end →
  scan_empty items w = (Raise e, w).
Proof.
  induction items as [|[u m] items IH]; [done|]. cbn [List.filter scan_empty].
  destruct (is_empty_collection (index w) (u, m)) eqn:Hem.
  - cbn [snd]. intros Hpath. unfold is_empty_collection in Hem. cbn [fst snd] in Hem.
    apply andb_true_iff in Hem as [Hty%bool_decide_eq_true Hd%bool_decide_eq_true].
    rewrite bool_decide_eq_false_2 by (by intros ?).
    munfold. by rewrite Hd, Hpath.
  - intros Hrest. unfold is_empty_collection in Hem. cbn [fst snd] in Hem.
    destruct (decide (type_ m = "CollectionType")) as [Hty|Hty].
    2:{ rewrite bool_decide_eq_true_2 by done. by apply IH. }
    rewrite bool_decide_eq_false_2 by (by intros ?).
    munfold. destruct (metadata_by_parent (index w) !! u) eqn:Hd; [by apply IH|].
    apply andb_false_iff in Hem as [Hem|Hem]; apply bool_decide_eq_false in Hem; tauto.
Qed.

(** On a chain too long for [fullpath], the first scan ends the pass:
    after the line of the first turn, nothing is printed or removed. *)
Lemma chain_too_deep args k w :
  recursion_limit < k + 2 → chain_left k (index w) →
  cleanup_emptydir args w = (Raise RecursionError, (print (PrintIteration 1) w).2).
Proof.
  intros Hlim Hchain. destruct k as [|k]; [unfold recursion_limit in Hlim; lia|].
  unfold cleanup_emptydir. munfold. cbn [emptydir_loop]. unfold print. munfold.
  cbv beta iota.
  set (w0 := set_stdout (fun out => out ++ [PrintIteration 1]) w).
  rewrite (scan_empty_raises _ w0 RecursionError); [done|].
  fold (empty_collections (index w0)).
  rewrite (chain_empty_collections k) by done. cbn [snd].
  destruct Hchain as [Hu _]. apply (chain_fullpath_beyond (S k)); [done|lia|done].
Qed.

(** ** The empty-collection pass: the last scan and the second run *)

Lemma scan_empty_none items w :
  List.filter (is_empty_collection (index w)) items = [] →
  scan_empty items w = (Ret [], w).
Proof.
  induction items as [|[u m] items IH]; [done|]. cbn [List.filter scan_empty].
  destruct (is_empty_collection (index w) (u, m)) eqn:Hem; [done|].
  intros Hrest. unfold is_empty_collection in Hem. cbn [fst snd] in Hem.
  destruct (decide (type_ m = "CollectionType")) as [Hty|Hty].
  2:{ rewrite bool_decide_eq_true_2 by done. by apply IH. }
  rewrite bool_decide_eq_false_2 by (by intros ?).
  munfold. destruct (metadata_by_parent (index w) !! u) eqn:Hd; [by apply IH|].
  apply andb_false_iff in Hem as [Hem|Hem]; apply bool_decide_eq_false in Hem; tauto.
Qed.

Lemma emptydir_loop_nothing fuel it acc w :
  empty_collections (index w) = [] →
  emptydir_loop (S fuel) it acc w = (Ret acc, (print (PrintIteration it) w).2).
Proof.
  intros Hnone. cbn [emptydir_loop]. unfold print. munfold. cbv beta iota.
  rewrite scan_empty_none by done. done.
Qed.

Lemma cleanup_emptydir_nothing args w :
  empty_collections (index w) = [] →
  cleanup_emptydir args w
  = (Ret false, (print PrintNoEmptyDirectories (print (PrintIteration 1) w).2).2).
Proof.
  intros Hnone. unfold cleanup_emptydir. munfold.
  by rewrite emptydir_loop_nothing.
Qed.

(** When the pass ends, no empty collection is left in the index. *)
Lemma cleanup_emptydir_fixpoint args w r w' :
  cleanup_emptydir args w = (Ret r, w') → empty_collections (index w') = [].
Proof.
  unfold cleanup_emptydir. munfold.
  destruct (emptydir_loop _ 1 [] w) as [[deleted|e] w1] eqn:Hloop; [|done].
  apply emptydir_loop_inv in Hloop as [_ (new & _ & _ & Hnone)].
  destruct deleted as [|u l].
  - unfold print. munfold. by intros [= <- <-].
  - unfold ask, input, ssh. destruct (yes args), (dryrun args); munfold;
      try (intros [= <- <-]; exact Hnone);
      destruct (stdin w1); try done; simpl;
      case_bool_decide; intros [= <- <-]; exact Hnone.
Qed.

Lemma chain_innermost_first_length n : length (chain_innermost_first n) = n.
Proof. induction n; simpl; congruence. Qed.

Lemma chain_trace_iterations it k :
  List.filter is_iteration_line (chain_trace it k) = PrintIteration <$> seq it (S k).
Proof.
  revert it. induction k as [|k IH]; intros it; [done|].
  cbn [chain_trace List.filter is_iteration_line]. rewrite IH. done.
Qed.

Lemma chain_trace_empties it k :
  length (List.filter is_empty_line (chain_trace it k)) = k.
Proof.
  revert it. induction k as [|k IH]; intros it; [done|].
  cbn [chain_trace List.filter is_iteration_line is_empty_line length]. by rewrite IH.
Qed.

(** C6: a scan leaves the index as it was and finds the collections that
    were empty when it began; the pass ends only when a scan finds none;
    on the chain of [n] nested collections, as long as [fullpath] of the
    innermost nests within the recursion limit, the loop removes the [n]
    collections, the innermost first, one per turn, and takes [n + 1]
    turns: the last one finds none and ends the loop; on a longer chain the
    first scan ends the pass with [RecursionError] and nothing is removed;
    a second run removes nothing, asks nothing and sends nothing. *)
Theorem emptydir_fixpoint (args : Args) :
  (∀ items w r w', scan_empty items w = (r, w') →
     index w' = index w ∧
     ∀ found, r = Ret found →
       found = (List.filter (is_empty_collection (index w)) items).*1) ∧
  (∀ w r w', cleanup_emptydir args w = (Ret r, w') →
     empty_collections (index w') = []) ∧
  (∀ n lines,
     n + 2 ≤ recursion_limit →
     let w := world_of (loaded (chain_records n)) lines in
     ∃ w', emptydir_loop (S (size (metadata_by_uuid (index w)))) 1 [] w
           = (Ret (chain_innermost_first n), w') ∧
       length (chain_innermost_first n) = n ∧
       metadata_by_uuid (index w') = ∅ ∧
       stdout w' = chain_trace 1 n ∧
       List.filter is_iteration_line (stdout w') = PrintIteration <$> seq 1 (S n) ∧
       length (List.filter is_empty_line (stdout w')) = n) ∧
  (∀ n lines,
     recursion_limit < n + 2 →
     let w := world_of (loaded (chain_records n)) lines in
     cleanup_emptydir args w = (Raise RecursionError, (print (PrintIteration 1) w).2)) ∧
  (∀ w r w', cleanup_emptydir args w = (Ret r, w') →
     cleanup_emptydir args w'
     = (Ret false, (print PrintNoEmptyDirectories (print (PrintIteration 1) w').2).2)).
Proof.
  split_and!.
  - intros items w r w' Hscan. apply scan_empty_inv in Hscan as (Hix & _ & Hr).
    split; [done|]. intros found ->. by destruct Hr.
  - apply cleanup_emptydir_fixpoint.
  - intros n lines Hlim w.
    destruct (chain_loop n (S (size (metadata_by_uuid (index w)))) 1 [] w)
      as (w' & Hloop & Hout & Hu & _).
    { pose proof (loaded_chain n) as [Hsize _]. subst w. cbn [index world_of].
      rewrite Hsize, chain_by_uuid_size. lia. }
    { done. }
    { apply loaded_chain. }
    exists w'. simpl in Hout. rewrite Hout.
    split_and!; [done|apply chain_innermost_first_length|done|done| |].
    + apply chain_trace_iterations.
    + apply chain_trace_empties.
  - intros n lines Hlim w. apply (chain_too_deep args n); [done|apply loaded_chain].
  - intros w r w' Hrun. apply cleanup_emptydir_nothing.
    eapply cleanup_emptydir_fixpoint; eauto.
Qed.

Lemma emptydir_fixpoint_witness :
  3 + 2 ≤ recursion_limit ∧
  ∃ w', emptydir_loop 4 1 [] (world_of (loaded (chain_records 3)) [])
        = (Ret [chain_uuid 3; chain_uuid 2; chain_uuid 1], w') ∧
    length (chain_innermost_first 3) = 3 ∧
    metadata_by_uuid (index w') = ∅ ∧
    stdout w' = chain_trace 1 3 ∧
    List.filter is_iteration_line (stdout w') = PrintIteration <$> seq 1 4 ∧
    length (List.filter is_empty_line (stdout w')) = 3.
Proof.
  assert (3 + 2 ≤ recursion_limit) as Hlim by (unfold recursion_limit; lia).
  split; [exact Hlim|].
  exact (proj1 (proj2 (proj2 (emptydir_fixpoint (mkArgs false true skip [] None))))
           3 [] Hlim).
Defined.

(** C6 as stated fails in the number of turns: the chain of two
    collections takes three, two that remove a collection and the one that
    finds none. *)
Lemma chain_takes_one_more_turn : ¬ turns_as_stated 2.
Proof.
  intros Hst.
  destruct (Hst [] [chain_uuid 2; chain_uuid 1]
              (emptydir_loop 3 1 [] (world_of (loaded (chain_records 2)) [])).2)
    as [_ Hturns].
  - vm_compute. reflexivity.
  - vm_compute in Hturns. discriminate.
Qed.

(** ** The identities in a tree *)

Lemma Forall_flat_map {A B} (Q : B → Prop) (f : A → list B) (l : list A) :
  Forall Q (flat_map f l) ↔ Forall (fun x => Forall Q (f x)) l.
Proof.
  induction l as [|x l IH]; simpl.
  - split; constructor.
  - rewrite Forall_app, Forall_cons, IH. done.
Qed.

Lemma ids_in_unfold P n :
  ids_in P n ↔ (∀ v, node_id n = Some v → P v) ∧ Forall (ids_in P) (children n).
Proof.
  unfold ids_in. rewrite subnodes_unfold, Forall_cons, Forall_flat_map. done.
Qed.

Lemma ids_in_leaf P n :
  children n = [] → (∀ v, node_id n = Some v → P v) → ids_in P n.
Proof. intros Hch Hid. apply ids_in_unfold. rewrite Hch. by split. Qed.

Lemma ids_in_set_children P n chs :
  (∀ v, node_id n = Some v → P v) → Forall (ids_in P) chs →
  ids_in P (set_children n chs).
Proof. intros Hid Hchs. apply ids_in_unfold. by split. Qed.

Lemma ids_in_root P n v : ids_in P n → node_id n = Some v → P v.
Proof. intros [Hid _]%ids_in_unfold. apply Hid. Qed.

Lemma ids_in_Node_init ix cls ft nm parent :
  ids_in (indexed ix) (Node_init ix cls ft nm parent).
Proof.
  apply ids_in_leaf; [apply Node_init_children|]. apply Node_init_indexed.
Qed.

(** The identities in a tree, read off its occurrences. *)
Lemma occurrences_ids P up above n :
  ids_in P n ↔
  Forall (fun o : list string * Node => ∀ v, node_id o.2 = Some v → P v)
         (occurrences up above n).
Proof.
  revert up above. induction n as [n IH] using Node_ind_children. intros up above.
  rewrite ids_in_unfold, occurrences_unfold, Forall_cons, Forall_flat_map.
  cbn [snd]. split; intros [Hid Hchs]; (split; [done|]);
    rewrite Forall_forall in IH; rewrite Forall_forall in Hchs |- *;
    intros ch Hch; specialize (Hchs ch Hch); by eapply IH.
Qed.

Lemma Forall_List_filter {A} (Q : A → Prop) (f : A → bool) (l : list A) :
  Forall Q l → Forall Q (List.filter f l).
Proof.
  induction 1 as [|x l Hx Hl IH]; simpl; [constructor|].
  destruct (f x); [by constructor|done].
Qed.

Section TreeIdentities.

Context `{Library}.

(** Pruning brings no identity into a tree. *)
Lemma curb_ids P up node excludelist :
  ids_in P node → ids_in P (curb up node excludelist).(curb_node).
Proof.
  intros Hids.
  destruct (curb_tree_occurrences excludelist up [] node eq_refl) as (_ & Hnode & _).
  destruct (curb_excluded _); [by rewrite Hnode|].
  apply (occurrences_ids P up []). rewrite Hnode.
  by apply Forall_List_filter, occurrences_ids.
Qed.

Lemma apply_excludes_ids P args root :
  Forall (ids_in P) root → Forall (ids_in P) (apply_excludes args root).
Proof.
  unfold apply_excludes. induction 1 as [|r root Hr Hroot IH]; simpl; [constructor|].
  pose proof (curb_ids P None r (exclude_patterns args) Hr) as Hcurb. unfold curb in Hcurb.
  destruct (curb_tree None r (exclude_patterns args)) as [v [b r']]. simpl in Hcurb.
  destruct b; simpl; [done|by constructor].
Qed.

End TreeIdentities.

Lemma FsEntry_ind_entries (P : FsEntry → Prop) :
  (∀ nm entries, Forall P entries → P (FsDir nm entries)) →
  (∀ nm, P (FsFile nm)) → (∀ nm, P (FsOther nm)) →
  ∀ e, P e.
Proof.
  intros Hdir Hfile Hother. fix IH 1. intros [nm entries|nm|nm]; [|done..].
  apply Hdir. induction entries as [|e entries IHe]; constructor; [apply IH|apply IHe].
Qed.

Section Push.

Context `{Library}.
Variable args : Args.

Lemma construct_dir_unfold path nm entries parent :
  construct_node_tree_from_disk args path (FsDir nm entries) parent =
  (w ← get;
   let node := Folder (index w) nm parent in
   let me := as_parent (parent_full_path <$> parent) node in
   chs ← construct_listdir args path me entries [];
   match chs with
   | [] => print (PrintEmptyDirectoryIgnored path);; mret None
   | _ => mret (Some (set_children node chs))
   end).
Proof. reflexivity. Qed.

Lemma apply_if_exists_inv node w r w' :
  apply_if_exists args node w = (r, w') →
  index w' = index w ∧
  ∃ node', r = Ret node' ∧ children node' = children node ∧
    (node_id node' = node_id node ∨ ∃ k, node_id node' = Some (uuid4 k)).
Proof.
  unfold apply_if_exists. destruct (node_exists node).
  2:{ intros [= <- <-]. split; [done|]. exists node. auto. }
  destruct (if_exists args); munfold; unfold gen_did; intros [= <- <-];
    (split; [done|]); eexists; (split; [reflexivity|]); (split; [done|]);
    simpl; eauto.
Qed.

(** The tree read from disk carries identities of the index or new ones,
    and reading it leaves the index as it was. *)
Lemma construct_ids entry : ∀ path parent w r w',
  construct_node_tree_from_disk args path entry parent w = (r, w') →
  index w' = index w ∧
  match r with
  | Ret (Some n) => ids_in (known (index w)) n
  | _ => True
  end.
Proof.
  induction entry as [nm entries IH|nm|nm] using FsEntry_ind_entries;
    intros path parent w r w'.
  - rewrite construct_dir_unfold. munfold. cbv zeta.
    set (node := Folder (index w) nm parent).
    set (me := as_parent (parent_full_path <$> parent) node).
    assert (∀ chs w0 r0 w1,
              construct_listdir args path me entries chs w0 = (r0, w1) →
              Forall (ids_in (known (index w0))) chs →
              index w1 = index w0 ∧
              match r0 with
              | Ret chs' => Forall (ids_in (known (index w0))) chs'
              | Raise _ => True
              end) as Hlist.
    { clear -IH. induction entries as [|f entries IHe]; intros chs w0 r0 w1.
      { intros [= <- <-]. done. }
      apply Forall_cons in IH as [IHf IH]. specialize (IHe IH).
      cbn [construct_listdir]. munfold.
      destruct (construct_node_tree_from_disk args _ f (Some me) w0)
        as [[child|e] w2] eqn:Hf; apply IHf in Hf as [Hix Hchild].
      2:{ intros [= <- <-]. done. }
      intros Hrest Hchs. rewrite <- Hix in *.
      destruct child as [c|]; apply IHe in Hrest as [Hix' Hr]; try done.
      apply Forall_app. split; [done|]. by constructor. }
    destruct (construct_listdir args path me entries [] w) as [[chs|e] w1] eqn:Hdir;
      apply Hlist in Hdir as [Hix Hchs]; try done.
    2:{ by intros [= <- <-]. }
    destruct chs as [|c chs]; unfold print; munfold; intros [= <- <-]; [done|].
    split; [done|]. apply ids_in_set_children; [|done].
    intros v Hv. left. eapply Node_init_indexed. exact Hv.
  - cbn [construct_node_tree_from_disk]. destruct (supported_suffix _).
    + munfold.
      destruct (apply_if_exists args _ w) as [r1 w1] eqn:Hpol.
      apply apply_if_exists_inv in Hpol as (Hix & node' & -> & Hch & Hid).
      intros [= <- <-]. split; [done|].
      apply ids_in_leaf.
      * rewrite Hch. apply Node_init_children.
      * intros v Hv. destruct Hid as [Hid|[k Hid]].
        -- left. rewrite Hid in Hv. eapply Node_init_indexed. exact Hv.
        -- right. exists k. congruence.
    + unfold print. munfold. by intros [= <- <-].
  - cbn [construct_node_tree_from_disk]. unfold print. munfold. by intros [= <- <-].
Qed.

Lemma construct_documents_ids documents : ∀ parent w r w',
  construct_documents args documents parent w = (r, w') →
  index w' = index w ∧
  match r with
  | Ret nodes => Forall (ids_in (known (index w))) nodes
  | Raise _ => True
  end.
Proof.
  induction documents as [|[path entry] documents IH]; intros parent w r w'.
  { intros [= <- <-]. done. }
  cbn [construct_documents]. munfold.
  destruct (construct_node_tree_from_disk args path entry parent w)
    as [[node|e] w1] eqn:Hnode; apply construct_ids in Hnode as [Hix Hn].
  2:{ by intros [= <- <-]. }
  destruct (construct_documents args documents parent w1) as [[nodes|e] w2] eqn:Hrest;
    apply IH in Hrest as [Hix' Hnodes]; intros [= <- <-]; (split; [congruence|]); [|done].
  rewrite Hix in Hnodes. destruct node; [by constructor|done].
Qed.

Lemma construct_destination_ids folders : ∀ folder parent documents w r w',
  construct_destination args (index w) folder folders parent documents w = (r, w') →
  index w' = index w ∧
  match r with
  | Ret node => ids_in (known (index w)) node
  | Raise _ => True
  end.
Proof.
  induction folders as [|folder' folders IH]; intros folder parent documents w r w';
    cbn [construct_destination]; munfold.
  - destruct (construct_documents args documents _ w) as [[nodes|e] w1] eqn:Hdocs;
      apply construct_documents_ids in Hdocs as [Hix Hnodes]; intros [= <- <-];
      (split; [done|]); [|done].
    apply ids_in_set_children; [|done]. intros v Hv. left. eapply Node_init_indexed, Hv.
  - destruct (construct_destination args (index w) folder' folders _ documents w)
      as [[ch|e] w1] eqn:Hch; apply IH in Hch as [Hix Hids]; intros [= <- <-];
      (split; [done|]); [|done].
    apply ids_in_set_children; [|by constructor].
    intros v Hv. left. eapply Node_init_indexed, Hv.
Qed.

(** Every identity in the roots of a push is one of the index or one
    [gen_did] made. *)
Lemma push_ids documents w roots w' :
  push_to_remarkable args documents w = (Ret roots, w') →
  Forall (ids_in (known (index w))) roots.
Proof.
  unfold push_to_remarkable. munfold.
  assert (∀ r1 w1, construct_documents args documents None w = (r1, w1) →
            match r1 with
            | Ret root => (Ret (apply_excludes args root), w1)
            | Raise e => (Raise e, w1)
            end = (Ret roots, w') → Forall (ids_in (known (index w))) roots) as Hplain.
  { intros r1 w1 Hdocs. apply construct_documents_ids in Hdocs as [_ Hr].
    destruct r1; [|done]. intros [= <- <-]. by apply apply_excludes_ids. }
  destruct (destination args) as [[|c dest]|]; try (by eapply Hplain; destruct (construct_documents _ _ _ _) as [[]]).
  - destruct (construct_documents args documents None w) as [r1 w1] eqn:Hdocs.
    eapply Hplain; eauto.
  - destruct (Str.split "/" (String c dest)) as [|folder folders].
    { intros [= <- <-]. constructor. }
    destruct (construct_destination args (index w) folder folders None documents w)
      as [[r1|e] w1] eqn:Hdest; apply construct_destination_ids in Hdest as [_ Hr];
      [|done].
    pose proof (apply_excludes_ids (known (index w)) args [r1]
                  ltac:(by constructor)) as Hroot.
    intros [= <- <-]. exact Hroot.
  - destruct (construct_documents args documents None w) as [r1 w1] eqn:Hdocs.
    eapply Hplain; eauto.
Qed.

End Push.

Lemma mapM_result_inv {A B} (f : A → result B) (l : list A) (ys : list B) :
  mapM f l = Ret ys → Forall2 (fun x y => f x = Ret y) l ys.
Proof.
  revert ys. induction l as [|x l IH]; intros ys; simpl.
  - intros [= <-]. constructor.
  - munfold. destruct (f x) as [y|e] eqn:Hx; [|done].
    destruct (mapM f l) as [k|e]; [|done]. intros [= <-]. constructor; auto.
Qed.

Section PullIdentities.

Context `{Library}.
Variable args : Args.

Lemma get_metadata_by_parent_indexed ix p uuid metadata :
  (uuid, metadata) ∈ map_to_list (get_metadata_by_parent ix p) → indexed ix uuid.
Proof.
  intros Hin%elem_of_map_to_list. unfold get_metadata_by_parent in Hin.
  destruct p as [p|]; [|by rewrite lookup_empty in Hin].
  destruct (metadata_by_parent ix !! p) as [d|] eqn:Hd; simpl in Hin;
    [|by rewrite lookup_empty in Hin].
  right; right; left. exists p, d. eauto.
Qed.

Lemma Forall2_elem_of_right {A B} (R : A → B → Prop) (l : list A) (k : list B) y :
  Forall2 R l k → y ∈ k → ∃ x, x ∈ l ∧ R x y.
Proof.
  induction 1 as [|x y' l k Hxy _ IH]; [by intros ?%elem_of_nil|].
  intros [->|Hin]%elem_of_cons.
  - exists x. split; [left|done].
  - destruct (IH Hin) as (x' & Hx' & HR). exists x'. split; [by right|done].
Qed.

(** Expanding a folder brings in identities of by-parent only. *)
Lemma Folder_build_ids ix fuel : ∀ up self t,
  Folder_build fuel ix up self = Ret t →
  ids_in (indexed ix) self → ids_in (indexed ix) t.
Proof.
  induction fuel as [|fuel IH]; intros up self t; [done|].
  cbn [Folder_build]. munfold.
  destruct (mapM _ _) as [chs|e] eqn:Hchs; [|done].
  intros [= <-] [Hid Hold]%ids_in_unfold.
  apply ids_in_set_children; [done|]. apply Forall_app. split; [done|].
  apply mapM_result_inv in Hchs. apply Forall_forall. intros ch Hch.
  destruct (Forall2_elem_of_right _ _ _ _ Hchs Hch) as ([uuid metadata] & Hin & Hbuild).
  apply get_metadata_by_parent_indexed in Hin.
  cbv beta iota zeta in Hbuild.
  match type of Hbuild with
  | match node_class ?c with _ => _ end = _ =>
      assert (ids_in (indexed ix) c) as Hc; [|destruct (node_class c)]
  end.
  - apply ids_in_leaf.
    + case_bool_decide; apply Node_init_children.
    + case_bool_decide; simpl; by intros v [= <-].
  - eapply IH; eauto.
  - by injection Hbuild as <-.
Qed.

Lemma build_ids ix up self t :
  build ix up self = Ret t → ids_in (indexed ix) self → ids_in (indexed ix) t.
Proof.
  unfold build. destruct (node_class self).
  - apply Folder_build_ids.
  - by intros [= <-].
Qed.

Lemma pull_anchor_ids doc w r w' :
  pull_anchor doc w = (r, w') →
  index w' = index w ∧ downloaded w' = downloaded w ∧
  match r with
  | Ret (Some (up, node)) => ids_in (indexed (index w)) node
  | _ => True
  end.
Proof.
  unfold pull_anchor, dict_eq_str. munfold.
  destruct (get_metadata_by_name _ _) as [metadata|].
  - destruct (getitem metadata "type") as [ty|e]; intros [= <- <-]; [|done].
    split_and!; [done..|]. apply ids_in_Node_init.
  - unfold print. munfold. by intros [= <- <-].
Qed.

Lemma pull_anchors_ids documents : ∀ w r w',
  pull_anchors documents w = (r, w') →
  index w' = index w ∧ downloaded w' = downloaded w ∧
  match r with
  | Ret anchors => Forall (fun a => ids_in (indexed (index w)) a.2) anchors
  | Raise _ => True
  end.
Proof.
  induction documents as [|doc documents IH]; intros w r w'.
  { by intros [= <- <-]. }
  cbn [pull_anchors]. munfold.
  destruct (pull_anchor doc w) as [[a|e] w1] eqn:Ha;
    apply pull_anchor_ids in Ha as (Hix & Hdl & Hids).
  2:{ by intros [= <- <-]. }
  destruct (pull_anchors documents w1) as [[anchors|e] w2] eqn:Hrest;
    apply IH in Hrest as (Hix' & Hdl' & Hanchors); intros [= <- <-];
    (split_and!; [congruence|congruence|]); [|done].
  rewrite Hix in Hanchors. destruct a as [[up node]|]; [by constructor|done].
Qed.

Lemma pull_download_ids a w r w' :
  pull_download args a w = (r, w') →
  ids_in (indexed (index w)) a.2 →
  index w' = index w ∧
  ∃ new, downloaded w' = downloaded w ++ new ∧
         Forall (ids_in (indexed (index w))) new.
Proof.
  destruct a as [up node]. unfold pull_download. munfold. cbn [snd].
  destruct (build (index w) _ node) as [node'|e] eqn:Hbuild.
  2:{ intros [= <- <-] _. split; [done|]. exists []. by rewrite app_nil_r. }
  intros Hrun Hnode. pose proof (build_ids _ _ _ _ Hbuild Hnode) as Hnode'.
  pose proof (curb_ids _ (parent_full_path <$> up) node' (exclude_patterns args) Hnode')
    as Hcurb. unfold curb in Hcurb.
  destruct (curb_tree _ node' _) as [v [b node'']]. simpl in Hcurb.
  destruct b; injection Hrun as <- <-; (split; [done|]).
  - exists []. by rewrite app_nil_r.
  - exists [node'']. split; [done|]. by constructor.
Qed.

Lemma for_each_pull_download_ids anchors : ∀ w r w',
  for_each anchors (pull_download args) w = (r, w') →
  Forall (fun a => ids_in (indexed (index w)) a.2) anchors →
  index w' = index w ∧
  ∃ new, downloaded w' = downloaded w ++ new ∧
         Forall (ids_in (indexed (index w))) new.
Proof.
  induction anchors as [|a anchors IH]; intros w r w'.
  { intros [= <- <-] _. split; [done|]. exists []. by rewrite app_nil_r. }
  rewrite for_each_cons. intros Hrun [Ha Hanchors]%Forall_cons.
  destruct (pull_download args a w) as [[[]|e] w1] eqn:Hdl;
    apply pull_download_ids in Hdl as (Hix & new & Hnew & Hids); try done.
  2:{ injection Hrun as <- <-. eauto. }
  apply IH in Hrun as (Hix' & new' & Hnew' & Hids'); [|by rewrite Hix].
  split; [congruence|]. exists (new ++ new'). split.
  - by rewrite Hnew', Hnew, app_assoc.
  - apply Forall_app. split; [done|]. by rewrite Hix in Hids'.
Qed.

(** Every identity in a tree handed to the download is one of the
    index. *)
Lemma pull_ids documents w r w' :
  pull_from_remarkable args documents w = (r, w') →
  ∃ new, downloaded w' = downloaded w ++ new ∧
         Forall (ids_in (indexed (index w))) new.
Proof.
  unfold pull_from_remarkable.
  assert ((anchors ← pull_anchors documents; for_each anchors (pull_download args)) w
          = (r, w') →
          ∃ new, downloaded w' = downloaded w ++ new ∧
                 Forall (ids_in (indexed (index w))) new) as Hrun.
  { munfold.
    destruct (pull_anchors documents w) as [[anchors|e] w1] eqn:Ha;
      apply pull_anchors_ids in Ha as (Hix & Hdl & Hanchors).
    - intros Hrun. apply for_each_pull_download_ids in Hrun as (_ & new & Hnew & Hids);
        [|by rewrite Hix].
      exists new. rewrite Hix in Hids. split; [congruence|done].
    - intros [= <- <-]. exists []. rewrite app_nil_r. done. }
  destruct (if_exists args); try exact Hrun;
    intros [= <- <-]; exists []; by rewrite app_nil_r.
Qed.

End PullIdentities.

(** ** Soft-deleted records *)

Lemma skipped_true m :
  skipped m = true ↔ deleted m = Some true ∨ parent m = Some "trash".
Proof.
  unfold skipped. rewrite orb_true_iff, bool_decide_eq_true.
  destruct (deleted m) as [[]|]; simpl; naive_solver.
Qed.

(** C2: a record that is deleted or in the trash is in none of the four
    indices once the snapshot is loaded (identifiers being distinct, as
    file names are); identity resolution never answers it; a tree built
    for a push carries its identifier only if [gen_did] happened to
    return it, and a tree built for a pull never carries it. *)
Theorem soft_deleted_invisible `{Library} (records : list (string * Metadata))
    (u : string) (m : Metadata) :
  NoDup records.*1 → (u, m) ∈ records →
  deleted m = Some true ∨ parent m = Some "trash" →
  let ix := loaded records in
  (metadata_by_uuid ix !! u = None ∧
   (∀ n d, metadata_by_name ix !! n = Some d → d !! u = None) ∧
   (∀ p d, metadata_by_parent ix !! p = Some d → d !! u = None) ∧
   (∀ k v, metadata_by_name_and_parent ix !! k = Some v → v.1 ≠ u)) ∧
  (∀ cls ft nm parent, node_id (Node_init ix cls ft nm parent) ≠ Some u) ∧
  (∀ args documents w roots w',
     index w = ix → push_to_remarkable args documents w = (Ret roots, w') →
     ∀ root n, root ∈ roots → n ∈ subnodes root → node_id n = Some u →
     ∃ k, u = uuid4 k) ∧
  (∀ args documents w r w',
     index w = ix → pull_from_remarkable args documents w = (r, w') →
     ∃ new, downloaded w' = downloaded w ++ new ∧
       ∀ root n, root ∈ new → n ∈ subnodes root → node_id n ≠ Some u).
Proof.
  intros Hnd Hin Hskip%skipped_true ix.
  pose proof (loaded_not_indexed records u m Hnd Hin Hskip) as Hnot.
  fold ix in Hnot. split_and!.
  - destruct (metadata_by_uuid ix !! u) eqn:Hl; [|done]. destruct Hnot. left. eauto.
  - intros n d Hd. destruct (d !! u) eqn:Hl; [|done].
    destruct Hnot. right; left. eauto.
  - intros p d Hd. destruct (d !! u) eqn:Hl; [|done].
    destruct Hnot. right; right; left. eauto.
  - intros k [u' m'] Hl ?. simpl in *. subst u'.
    destruct Hnot. right; right; right. eauto.
  - intros cls ft nm parent Hid. by apply Node_init_indexed in Hid.
  - intros args documents w roots w' Hix Hpush root n Hroot Hn Hid.
    apply push_ids in Hpush. rewrite Forall_forall in Hpush.
    specialize (Hpush root Hroot). unfold ids_in in Hpush.
    rewrite Forall_forall in Hpush.
    destruct (Hpush n Hn u Hid) as [Hindexed|Hgen]; [|done].
    rewrite Hix in Hindexed. done.
  - intros args documents w r w' Hix Hpull.
    apply pull_ids in Hpull as (new & Hnew & Hids). exists new. split; [done|].
    intros root n Hroot Hn Hid. rewrite Forall_forall in Hids.
    specialize (Hids root Hroot). unfold ids_in in Hids.
    rewrite Forall_forall in Hids. rewrite Hix in Hids. exact (Hnot (Hids n Hn u Hid)).
Qed.

Lemma soft_deleted_invisible_witness :
  metadata_by_uuid
    (loaded [("f1", collection_md "Papers" "");
             ("d1", mkMetadata "old.pdf" (Some "f1") "1700000000000" "DocumentType" (Some true));
             ("d2", trashed_md "scan.pdf")]) !! "d1" = None.
Proof.
  refine (proj1 (proj1 (soft_deleted_invisible (H := example_library)
    [("f1", collection_md "Papers" "");
     ("d1", mkMetadata "old.pdf" (Some "f1") "1700000000000" "DocumentType" (Some true));
     ("d2", trashed_md "scan.pdf")]
    "d1" (mkMetadata "old.pdf" (Some "f1") "1700000000000" "DocumentType" (Some true))
    _ _ _))).
  - simpl. repeat (apply NoDup_cons; split; [|]); try apply NoDup_nil_2;
      intros Hin; repeat (apply elem_of_cons in Hin as [Hin|Hin]; [discriminate|]);
      by apply elem_of_nil in Hin.
  - right; left.
  - left. reflexivity.
Defined.
(** * Further properties *)

Ltac xunfold :=
  unfold mbind, MX_bind, mret, MX_ret, failure, reading, earlier, on_world, record_op,
    outcome_of_result in *.

(** ** Loading: what the lookups find *)

Lemma insert_nested_same k u v d :
  ∃ d', insert_nested k u v d !! k = Some d' ∧ d' !! u = Some v.
Proof.
  unfold insert_nested. eexists. rewrite lookup_insert_eq. split; [done|].
  by rewrite lookup_insert_eq.
Qed.

Lemma insert_nested_other k u v d k' d' u' m' :
  d !! k' = Some d' → d' !! u' = Some m' → u' ≠ u →
  ∃ d'', insert_nested k u v d !! k' = Some d'' ∧ d'' !! u' = Some m'.
Proof.
  intros Hk Hu Hne. unfold insert_nested.
  destruct (decide (k' = k)) as [->|Hkk].
  - rewrite lookup_insert_eq, Hk. simpl. eexists. split; [done|].
    by rewrite lookup_insert_ne.
  - rewrite lookup_insert_ne by done. eauto.
Qed.

(** The step of the loader on a record that asks for a free key. *)
Lemma load_record_free u m p ix :
  skipped m = false → parent m = Some p →
  metadata_by_name_and_parent ix !! (visibleName m, p) = None →
  load_record (u, m) ix =
  (Ret tt, set_by_name_and_parent <[(visibleName m, p) := (u, m)]>
             (set_by_parent (insert_nested p u m)
                (set_by_name (insert_nested (visibleName m) u m)
                   (set_by_uuid <[u:=m]> ix)))).
Proof. intros Hs Hp Hfree. rewrite (load_record_unfold u m p) by done. by rewrite Hfree. Qed.

Lemma load_record_found u m p ix ix' :
  skipped m = false → parent m = Some p →
  load_record (u, m) ix = (Ret tt, ix') →
  found_everywhere ix' u m p.
Proof.
  intros Hs Hp. rewrite (load_record_unfold u m p) by done.
  destruct (metadata_by_name_and_parent ix !! (visibleName m, p)).
  { by destruct (fullpath _ m). }
  intros [= <-]. split; simpl.
  - unfold get_metadata_by_uuid. simpl. by rewrite lookup_insert_eq.
  - unfold get_metadata_by_name. simpl. apply insert_nested_same.
  - destruct (insert_nested_same p u m (metadata_by_parent ix)) as (d & Hd & Hu).
    by rewrite Hd.
  - by rewrite lookup_insert_eq.
Qed.

Lemma load_record_keeps_found e ix ix' u m p :
  found_everywhere ix u m p →
  e.1 ≠ u →
  load_record e ix = (Ret tt, ix') →
  found_everywhere ix' u m p.
Proof.
  destruct e as [u2 m2]. intros [Hu [d [Hn Hdn]] Hpar Hnp] Hne. simpl in Hne.
  destruct (skipped m2) eqn:Hs.
  { unfold load_record. rewrite Hs. intros [= <-]. split; eauto. }
  destruct (parent m2) as [p2|] eqn:Hp.
  2:{ unfold load_record. rewrite Hs, Hp. by munfold. }
  rewrite (load_record_unfold u2 m2 p2) by done.
  destruct (metadata_by_name_and_parent ix !! (visibleName m2, p2)) eqn:Hk.
  { by destruct (fullpath _ m2). }
  intros [= <-]. split; simpl.
  - unfold get_metadata_by_uuid in *. simpl. by rewrite lookup_insert_ne.
  - unfold get_metadata_by_name in *. simpl.
    eapply insert_nested_other; eauto.
  - simpl in Hpar. destruct (metadata_by_parent ix !! p) as [dp|] eqn:Hdp; simpl in Hpar.
    + destruct (insert_nested_other p2 u2 m2 _ p dp u m Hdp Hpar ltac:(done))
        as (d'' & Hd'' & Hu''). by rewrite Hd''.
    + by rewrite lookup_empty in Hpar.
  - simpl in Hnp. rewrite lookup_insert_ne; [done|].
    intros Heq. rewrite Heq in Hk. by rewrite Hk in Hnp.
Qed.

Lemma retrieve_metadata_keeps_found records : ∀ ix ix' u m p,
  found_everywhere ix u m p →
  u ∉ records.*1 →
  retrieve_metadata records ix = (Ret tt, ix') →
  found_everywhere ix' u m p.
Proof.
  unfold retrieve_metadata.
  induction records as [|e records IH]; intros ix ix' u m p Hf Hnot; simpl.
  - by intros [= <-].
  - munfold. destruct (load_record e ix) as [[[]|?] ix1] eqn:He; [|done].
    apply not_elem_of_cons in Hnot as [Hne Hnot].
    apply IH; [|done]. eapply load_record_keeps_found; eauto.
Qed.

Lemma load_record_new_key e ix ix' k :
  metadata_by_name_and_parent ix !! k = None →
  k ∉ filing_keys [e] →
  load_record e ix = (Ret tt, ix') →
  metadata_by_name_and_parent ix' !! k = None.
Proof.
  destruct e as [u m]. intros Hk Hnot. unfold filing_keys in Hnot. simpl in Hnot.
  destruct (skipped m) eqn:Hs.
  { unfold load_record. rewrite Hs. by intros [= <-]. }
  destruct (parent m) as [p|] eqn:Hp.
  2:{ unfold load_record. rewrite Hs, Hp. by munfold. }
  simpl in Hnot. rewrite (load_record_unfold u m p) by done.
  destruct (metadata_by_name_and_parent ix !! (visibleName m, p)).
  { by destruct (fullpath _ m). }
  intros [= <-]. simpl. rewrite lookup_insert_ne; [done|].
  intros <-. apply Hnot. by left.
Qed.

Lemma filing_keys_cons e records :
  filing_keys (e :: records) = filing_keys [e] ++ filing_keys records.
Proof. unfold filing_keys. simpl. by destruct (if skipped e.2 then _ else _). Qed.

(** Records with distinct identifiers that ask for distinct free keys all
    load, and each is then found by the four lookups. *)
Lemma retrieve_metadata_loads records : ∀ ix,
  NoDup records.*1 →
  (∀ u m, (u, m) ∈ records → skipped m = false → is_Some (parent m)) →
  NoDup (filing_keys records) →
  (∀ k, k ∈ filing_keys records → metadata_by_name_and_parent ix !! k = None) →
  ∃ ix', retrieve_metadata records ix = (Ret tt, ix') ∧
    ∀ u m p, (u, m) ∈ records → skipped m = false → parent m = Some p →
      found_everywhere ix' u m p.
Proof.
  induction records as [|[u m] records IH]; intros ix Hnd Hpar Hkeys Hfree.
  { exists ix. split; [done|]. intros u m p Hin. by apply elem_of_nil in Hin. }
  rewrite fmap_cons in Hnd. apply NoDup_cons in Hnd as [Hu Hnd].
  rewrite filing_keys_cons in Hkeys. apply NoDup_app in Hkeys as (Hk1 & Hk12 & Hk2).
  assert (∃ ix1, load_record (u, m) ix = (Ret tt, ix1) ∧
            (∀ k, k ∈ filing_keys records → metadata_by_name_and_parent ix1 !! k = None))
    as (ix1 & Hload & Hfree1).
  { destruct (skipped m) eqn:Hs.
    { exists ix. split; [unfold load_record; by rewrite Hs|].
      intros k Hk. apply Hfree. rewrite filing_keys_cons. apply elem_of_app. by right. }
    destruct (Hpar u m ltac:(left) Hs) as [p Hp].
    assert ((visibleName m, p) ∈ filing_keys [(u, m)]) as Hkey.
    { unfold filing_keys. simpl. rewrite Hs, Hp. simpl. by left. }
    eexists. split.
    { apply load_record_free; [done..|]. apply Hfree.
      rewrite filing_keys_cons. apply elem_of_app. by left. }
    intros k Hk. simpl. rewrite lookup_insert_ne.
    - apply Hfree. rewrite filing_keys_cons. apply elem_of_app. by right.
    - intros <-. by apply (Hk12 _ Hkey). }
  destruct (IH ix1 Hnd) as (ix' & Hrest & Hfound); [|done..|].
  { intros u' m' Hin. apply (Hpar u'). by right. }
  exists ix'. split.
  { unfold retrieve_metadata in *. rewrite for_each_cons, Hload. exact Hrest. }
  intros u' m' p' Hin Hs Hp. apply elem_of_cons in Hin as [[= -> ->]|Hin].
  - eapply retrieve_metadata_keeps_found; [|exact Hu|exact Hrest].
    eapply load_record_found; eauto.
  - by apply Hfound.
Qed.

Lemma load_record_no_parent u m ix :
  skipped m = false → parent m = None →
  load_record (u, m) ix =
  (Raise KeyError,
   set_by_name (insert_nested (visibleName m) u m) (set_by_uuid <[u:=m]> ix)).
Proof. intros Hs Hp. unfold load_record. rewrite Hs, Hp. by munfold. Qed.

Lemma retrieve_metadata_no_parent records : ∀ ix u m,
  (u, m) ∈ records → skipped m = false → parent m = None →
  ∃ e ix', retrieve_metadata records ix = (Raise e, ix').
Proof.
  unfold retrieve_metadata.
  induction records as [|e0 records IH]; intros ix u m Hin Hs Hp.
  { by apply elem_of_nil in Hin. }
  rewrite for_each_cons.
  destruct (load_record e0 ix) as [[[]|e] ix1] eqn:Hload; [|eauto].
  apply elem_of_cons in Hin as [<-|Hin]; [|eauto].
  by rewrite load_record_no_parent in Hload.
Qed.

(** ** [remove_uuid] on an identifier that is not there *)

Lemma remove_uuid_absent u ix :
  metadata_by_uuid ix !! u = None → remove_uuid u ix = (Raise KeyError, ix).
Proof. intros Hu. unfold remove_uuid. munfold. unfold getitem. by rewrite Hu. Qed.

(** ** Pruning twice, pruning by no pattern *)

Section CurbAgain.

Context `{Library}.
Variable excludelist : list string.

Lemma curb_list_fixed up (chs : list Node) :
  Forall (fun ch => ∀ up v n',
            curb_tree up ch excludelist = (v, (false, n')) →
            ∃ v', curb_tree up n' excludelist = (v', (false, n'))) chs →
  ∀ v unc, curb_list up chs excludelist = (v, unc) →
  ∃ v', curb_list up unc excludelist = (v', unc).
Proof.
  induction chs as [|ch chs IHchs]; intros Hall v unc.
  { intros [= <- <-]. eauto. }
  apply Forall_cons in Hall as [Hch Hall]. cbn [curb_list].
  destruct (curb_tree (Some up) ch excludelist) as [v1 [b1 ch']] eqn:Hcurb.
  destruct (curb_list up chs excludelist) as [v2 unc2] eqn:Hrest.
  destruct (IHchs Hall _ _ eq_refl) as [v2' Hfix2].
  destruct b1; intros [= <- <-]; [eauto|].
  destruct (Hch _ _ _ Hcurb) as [v1' Hfix1].
  cbn [curb_list]. rewrite Hfix1, Hfix2. eauto.
Qed.

Lemma curb_tree_fixed node : ∀ up v n',
  curb_tree up node excludelist = (v, (false, n')) →
  ∃ v', curb_tree up n' excludelist = (v', (false, n')).
Proof.
  induction node as [node IH] using Node_ind_children. intros up v n'.
  rewrite curb_tree_unfold. cbv zeta.
  destruct (excluded excludelist (get_full_path up node)) eqn:Hex; [done|].
  destruct (curb_list _ (children node) excludelist) as [v0 unc] eqn:Hlist.
  intros [= <- <-].
  destruct (curb_list_fixed _ _ IH _ _ Hlist) as [v' Hfix].
  rewrite curb_tree_unfold. cbv zeta.
  rewrite get_full_path_set_children, Hex, children_set_children, Hfix.
  rewrite set_children_set_children. eauto.
Qed.

End CurbAgain.

Lemma set_children_children n : set_children n (children n) = n.
Proof. by destruct n. Qed.



(** X1: records with distinct identifiers, each with a parent key and no
    two under one parent with one name, all load; every record that is
    neither deleted nor in the trash is then found by each of the four
    lookups, and the dictionaries hold nothing else. *)
Theorem retrieve_metadata_round_trip (records : list (string * Metadata)) :
  NoDup records.*1 →
  (∀ u m, (u, m) ∈ records → skipped m = false → is_Some (parent m)) →
  NoDup (filing_keys records) →
  ∃ ix, retrieve_metadata records empty_index = (Ret tt, ix) ∧
    (∀ u m p, (u, m) ∈ records → skipped m = false → parent m = Some p →
       found_everywhere ix u m p) ∧
    index_from (fun u m => (u, m) ∈ records ∧ skipped m = false) ix.
Proof.
  intros Hnd Hpar Hkeys.
  destruct (retrieve_metadata_loads records empty_index Hnd Hpar Hkeys)
    as (ix & Hload & Hfound).
  { intros k _. apply lookup_empty. }
  exists ix. split_and!; [done..|].
  pose proof (retrieve_metadata_from records) as Hfrom. by rewrite Hload in Hfrom.
Qed.

Lemma retrieve_metadata_round_trip_witness :
  ∃ ix, retrieve_metadata [("f1", collection_md "Papers" "");
                           ("d1", document_md "notes.pdf" "f1");
                           ("d2", trashed_md "old.pdf")] empty_index = (Ret tt, ix) ∧
    (∀ u m p, (u, m) ∈ [("f1", collection_md "Papers" "");
                        ("d1", document_md "notes.pdf" "f1");
                        ("d2", trashed_md "old.pdf")] →
       skipped m = false → parent m = Some p → found_everywhere ix u m p) ∧
    index_from (fun u m => (u, m) ∈ [("f1", collection_md "Papers" "");
                                     ("d1", document_md "notes.pdf" "f1");
                                     ("d2", trashed_md "old.pdf")] ∧ skipped m = false) ix.
Proof.
  apply (retrieve_metadata_round_trip
           [("f1", collection_md "Papers" ""); ("d1", document_md "notes.pdf" "f1");
            ("d2", trashed_md "old.pdf")]).
  - apply (bool_decide_unpack _). vm_compute. reflexivity.
  - intros u m Hin _.
    repeat (apply elem_of_cons in Hin as [Hin|Hin]; [injection Hin as -> ->; simpl; eauto|]).
    by apply elem_of_nil in Hin.
  - apply (bool_decide_unpack _). vm_compute. reflexivity.
Defined.

(** X2: a record that is neither deleted nor in the trash and has no
    parent key stops the loader with [KeyError] at line 220, after it was
    filed by identifier and by name; a listing that holds such a record
    never loads. *)
Theorem retrieve_metadata_needs_parent (records : list (string * Metadata))
    (ix : Index) (u : string) (m : Metadata) :
  (u, m) ∈ records → skipped m = false → parent m = None →
  load_record (u, m) ix =
    (Raise KeyError,
     set_by_name (insert_nested (visibleName m) u m) (set_by_uuid <[u:=m]> ix)) ∧
  ∃ e ix', retrieve_metadata records ix = (Raise e, ix').
Proof.
  intros Hin Hs Hp. split; [by apply load_record_no_parent|].
  by eapply retrieve_metadata_no_parent.
Qed.

Lemma retrieve_metadata_needs_parent_witness :
  load_record ("a", mkMetadata "x.pdf" None "1700000000000" "DocumentType" None) empty_index =
    (Raise KeyError,
     set_by_name
       (insert_nested "x.pdf" "a"
          (mkMetadata "x.pdf" None "1700000000000" "DocumentType" None))
       (set_by_uuid <["a" := mkMetadata "x.pdf" None "1700000000000" "DocumentType" None]>
          empty_index)) ∧
  ∃ e ix', retrieve_metadata
             [("f1", collection_md "Papers" "");
              ("a", mkMetadata "x.pdf" None "1700000000000" "DocumentType" None)]
             empty_index = (Raise e, ix').
Proof.
  apply (retrieve_metadata_needs_parent
           [("f1", collection_md "Papers" "");
            ("a", mkMetadata "x.pdf" None "1700000000000" "DocumentType" None)]
           empty_index "a" (mkMetadata "x.pdf" None "1700000000000" "DocumentType" None)).
  - right. left.
  - reflexivity.
  - reflexivity.
Defined.

(** X3: [remove_uuid] raises [KeyError] and changes nothing when the
    identifier is not in by-id; so a second removal of an identifier
    always raises. *)
Theorem remove_uuid_twice (ix : Index) (u : string) :
  (metadata_by_uuid ix !! u = None → remove_uuid u ix = (Raise KeyError, ix)) ∧
  (∀ ix', remove_uuid u ix = (Ret tt, ix') → remove_uuid u ix' = (Raise KeyError, ix')).
Proof.
  split; [apply remove_uuid_absent|].
  intros ix' Hrm. apply remove_uuid_absent.
  by apply remove_uuid_gone in Hrm as (m & _ & Hgone & _).
Qed.

Lemma remove_uuid_twice_witness :
  remove_uuid "a" (set_by_uuid (delete "a") (loaded [("a", document_md "x.pdf" "")]))
  = (Raise KeyError, set_by_uuid (delete "a") (loaded [("a", document_md "x.pdf" "")])).
Proof.
  apply (proj2 (remove_uuid_twice (loaded [("a", document_md "x.pdf" "")]) "a")).
  vm_compute. reflexivity.
Defined.

(** X4: pruning is idempotent: a tree that [curb_tree] returned is
    returned unchanged, and not excluded, by a second pass with the same
    patterns. *)
Theorem curb_tree_idempotent `{Library} (excludelist : list string)
    (up : option string) (node n' : Node) (v : list string) :
  curb_tree up node excludelist = (v, (false, n')) →
  (curb_tree up n' excludelist).2 = (false, n').
Proof.
  intros Hcurb. destruct (curb_tree_fixed excludelist node up v n' Hcurb) as [v' Hfix].
  by rewrite Hfix.
Qed.

Lemma curb_tree_idempotent_witness :
  (curb_tree (H := example_library) None
     (set_children (Folder empty_index "Papers" None)
        [Document empty_index "b.pdf" ".pdf" None])
     ["Papers/a"]).2
  = (false, set_children (Folder empty_index "Papers" None)
              [Document empty_index "b.pdf" ".pdf" None]).
Proof.
  apply (curb_tree_idempotent (H := example_library) ["Papers/a"] None
           (set_children (Folder empty_index "Papers" None)
              [Document empty_index "a.pdf" ".pdf" None;
               Document empty_index "b.pdf" ".pdf" None])
           _ ["Papers"; "Papers/a.pdf"; "Papers/b.pdf"]).
  vm_compute. reflexivity.
Defined.


(** ** The cleanup passes and the command line *)

Section Prompts.

Variable args : Args.

Lemma ask_yes w : yes args = true → ask args w = (Ret true, w).
Proof. intros Hyes. unfold ask. by rewrite Hyes. Qed.

Lemma confirm_batch_yes (l : list string) w r w' :
  yes args = true →
  (ok ← ask args; if ok : bool then ssh (RmBatch l) (dryrun args);; mret true
                  else mret false) w = (r, w') →
  stdin w' = stdin w.
Proof.
  intros Hyes. munfold. rewrite (ask_yes w Hyes).
  unfold ssh. destruct (dryrun args); munfold; by intros [= <- <-].
Qed.

Lemma cleanup_deleted_yes w r w' :
  yes args = true → cleanup_deleted args w = (r, w') → stdin w' = stdin w.
Proof.
  intros Hyes. unfold cleanup_deleted, print. munfold. cbv beta iota.
  set (w0 := set_stdout _ w).
  destruct (scan_deleted _) as [deleted_uuids|e]; [|by intros [= <- <-]].
  destruct deleted_uuids as [|u l]; [by intros [= <- <-]|].
  intros Hrun. by apply confirm_batch_yes in Hrun.
Qed.

Lemma cleanup_orphaned_yes files w r w' :
  yes args = true → cleanup_orphaned args files w = (r, w') → stdin w' = stdin w.
Proof.
  intros Hyes. unfold cleanup_orphaned, print, ssh. munfold. cbv beta iota.
  destruct (_ =? 1); [by intros [= <- <-]|].
  destruct (dryrun args); [by intros [= <- <-]|].
  rewrite ask_yes by done. by intros [= <- <-].
Qed.

Lemma cleanup_emptydir_yes w r w' :
  yes args = true → cleanup_emptydir args w = (r, w') → stdin w' = stdin w.
Proof.
  intros Hyes. unfold cleanup_emptydir. munfold.
  destruct (emptydir_loop _ 1 [] w) as [r1 w1] eqn:Hloop.
  apply emptydir_loop_inv in Hloop as [[out [_ _ Hin _ _ _]] _]. simpl in Hin.
  destruct r1 as [deleted_uuids|e]; [|by intros [= <- <-]].
  destruct deleted_uuids as [|u l].
  - unfold print. munfold. by intros [= <- <-].
  - intros Hrun. apply confirm_batch_yes in Hrun; [|done]. congruence.
Qed.

End Prompts.

(** The duplicates pass reads the command line through [--dry-run] only. *)
Section DuplicatesArgs.

Context `{Library}.
Variables args1 args2 : Args.
Hypothesis same_dryrun : dryrun args1 = dryrun args2.

Lemma remove_others_args keep tmp : ∀ w,
  remove_others args1 keep tmp w = remove_others args2 keep tmp w.
Proof.
  induction tmp as [|[[lm u] md] tmp IH]; intros w; [done|].
  cbn [remove_others]. destruct (bool_decide (u = keep)); [apply IH|].
  rewrite same_dryrun. munfold.
  destruct (on_index (remove_uuid u) w) as [[[]|e] w1]; [|done].
  destruct (ssh (RmTree u) (dryrun args2) w1) as [[[]|e] w2]; [|done].
  by rewrite IH.
Qed.

Lemma resolve_group_args j total md5 members w :
  resolve_group args1 j total md5 members w = resolve_group args2 j total md5 members w.
Proof.
  unfold resolve_group. munfold.
  destruct (print _ w) as [[[]|e] w0]; [|done].
  destruct (try_except_KeyError _ _ w0) as [[[tmp|]|e] w1]; [|done..].
  destruct (select_candidate _ _ w1) as [[i|e] w2]; [|done].
  repeat case_bool_decide; try done.
  destruct (tmp !! Z.to_nat i) as [[[lm keep] md]|]; [|done].
  by rewrite remove_others_args.
Qed.

Lemma resolve_groups_args database duplicates : ∀ j total acc w,
  resolve_groups args1 j total database duplicates acc w
  = resolve_groups args2 j total database duplicates acc w.
Proof.
  induction duplicates as [|md5 rest IH]; intros j total acc w; [done|].
  cbn [resolve_groups]. munfold. rewrite resolve_group_args.
  destruct (resolve_group args2 _ _ _ _ w) as [[[go_on removed]|e] w1]; [|done].
  destruct go_on; [apply IH|done].
Qed.

Lemma cleanup_duplicates_args results w :
  cleanup_duplicates args1 results w = cleanup_duplicates args2 results w.
Proof.
  unfold cleanup_duplicates. munfold.
  destruct (print _ w) as [[[]|e] w0]; [|done].
  destruct (ssh Md5sums false w0) as [[[]|e] w1]; [|done].
  destruct (read_md5sums results ∅ ∅ w1) as [[[database duplicates]|e] w2]; [|done].
  by rewrite resolve_groups_args.
Qed.

End DuplicatesArgs.

(** ** The trash pass on a loaded index *)

Lemma scan_deleted_not_skipped items :
  Forall (fun e : string * Metadata => skipped e.2 = false) items →
  scan_deleted items = Ret [] ∨ scan_deleted items = Raise KeyError.
Proof.
  induction items as [|[u m] items IH]; intros Hall; [by left|].
  apply Forall_cons in Hall as [Hm Hall]. simpl in Hm. cbn [scan_deleted].
  unfold skipped in Hm. apply orb_false_iff in Hm as [Hdel _].
  destruct (deleted m) as [[]|]; simpl in *; [done| |by right].
  destruct (IH Hall) as [-> | ->]; [by left|by right].
Qed.

Lemma cleanup_deleted_loaded args records w r w' :
  index w = loaded records →
  cleanup_deleted args w = (r, w') →
  ssh_log w' = ssh_log w ∧ stdin w' = stdin w ∧ index w' = index w ∧
  (r = Ret false ∧ stdout w' = stdout w ++ [PrintRemovingTrash; PrintNoDeleted] ∨
   r = Raise KeyError ∧ stdout w' = stdout w ++ [PrintRemovingTrash]).
Proof.
  intros Hix. unfold cleanup_deleted, print. munfold. cbv beta iota.
  cbn [index set_stdout]. rewrite Hix.
  destruct (scan_deleted_not_skipped (map_to_list (metadata_by_uuid (loaded records))))
    as [-> | ->].
  { apply Forall_forall. intros [u m] Hin%elem_of_map_to_list. simpl.
    by apply (from_by_uuid _ _ (loaded_from records)) in Hin as [_ Hs]. }
  - intros [= <- <-]. simpl. split_and!; try done. left. split; [done|].
    by rewrite <- app_assoc.
  - intros [= <- <-]. simpl. split_and!; try done. by right.
Qed.

(** X6: with [--yes] the trash, orphan and empty-collection passes never
    read standard input, however they end. *)
Theorem yes_never_prompts (args : Args) :
  yes args = true →
  (∀ w r w', cleanup_deleted args w = (r, w') → stdin w' = stdin w) ∧
  (∀ files w r w', cleanup_orphaned args files w = (r, w') → stdin w' = stdin w) ∧
  (∀ w r w', cleanup_emptydir args w = (r, w') → stdin w' = stdin w).
Proof.
  intros Hyes. split_and!.
  - intros w r w'. by apply cleanup_deleted_yes.
  - intros files w r w'. by apply cleanup_orphaned_yes.
  - intros w r w'. by apply cleanup_emptydir_yes.
Qed.

Lemma yes_never_prompts_witness :
  stdin (cleanup_emptydir (mkArgs false true skip [] None)
           (world_of (loaded (chain_records 2)) ["n"])).2 = ["n"].
Proof.
  refine (proj2 (proj2 (yes_never_prompts (mkArgs false true skip [] None) _))
            (world_of (loaded (chain_records 2)) ["n"]) _ _ _).
  - reflexivity.
  - apply surjective_pairing.
Defined.

(** X7: the duplicates pass reads the command line through [--dry-run]
    only: two command lines that agree on it give the same run. So
    [--yes] does not answer the selection prompt of a group. *)
Theorem cleanup_duplicates_ignores_yes `{Library} (args1 args2 : Args)
    (results : list Md5Line) (w : World) :
  dryrun args1 = dryrun args2 →
  cleanup_duplicates args1 results w = cleanup_duplicates args2 results w.
Proof. intros Hdry. by apply cleanup_duplicates_args. Qed.

Lemma cleanup_duplicates_ignores_yes_witness :
  cleanup_duplicates (H := example_library) (mkArgs false true skip [] None)
    [Md5Entry "9e107d9d" "d1"; Md5Entry "9e107d9d" "d2"]
    (world_of (loaded [("d1", document_at "a.pdf" "" "100");
                       ("d2", document_at "b.pdf" "" "200")]) [])
  = cleanup_duplicates (H := example_library) (mkArgs false false skip [] None)
      [Md5Entry "9e107d9d" "d1"; Md5Entry "9e107d9d" "d2"]
      (world_of (loaded [("d1", document_at "a.pdf" "" "100");
                         ("d2", document_at "b.pdf" "" "200")]) []).
Proof.
  apply (cleanup_duplicates_ignores_yes (H := example_library)
           (mkArgs false true skip [] None) (mkArgs false false skip [] None)).
  reflexivity.
Defined.

(** X8: on the index [retrieve_metadata] leaves, the trash pass finds
    nothing to remove: the loader skipped every record marked deleted, so
    the pass prints that no deleted file was found and answers [False],
    or raises [KeyError] on a record without the key [deleted]; it sends
    nothing to the device and reads no input. *)
Theorem cleanup_deleted_after_load (args : Args)
    (records : list (string * Metadata)) (w : World) (r : result bool) (w' : World) :
  index w = loaded records →
  cleanup_deleted args w = (r, w') →
  ssh_log w' = ssh_log w ∧ stdin w' = stdin w ∧ index w' = index w ∧
  (r = Ret false ∧ stdout w' = stdout w ++ [PrintRemovingTrash; PrintNoDeleted] ∨
   r = Raise KeyError ∧ stdout w' = stdout w ++ [PrintRemovingTrash]).
Proof. apply cleanup_deleted_loaded. Qed.

Lemma cleanup_deleted_after_load_witness :
  let w := world_of (loaded [("f1", collection_md "Papers" "");
                             ("d1", mkMetadata "old.pdf" (Some "f1") "1700000000000"
                                      "DocumentType" (Some true))]) [] in
  let run := cleanup_deleted (mkArgs false true skip [] None) w in
  ssh_log run.2 = ssh_log w ∧ stdin run.2 = stdin w ∧ index run.2 = index w ∧
  (run.1 = Ret false ∧ stdout run.2 = stdout w ++ [PrintRemovingTrash; PrintNoDeleted] ∨
   run.1 = Raise KeyError ∧ stdout run.2 = stdout w ++ [PrintRemovingTrash]).
Proof.
  intros w run.
  apply (cleanup_deleted_after_load (mkArgs false true skip [] None)
           [("f1", collection_md "Papers" "");
            ("d1", mkMetadata "old.pdf" (Some "f1") "1700000000000"
                     "DocumentType" (Some true))] w run.1 run.2).
  - reflexivity.
  - apply surjective_pairing.
Defined.

(** ** The orphan pass on a listing of one line *)

Lemma split_go_length sep cur s :
  length (Str.split_go sep cur s) = S (str_count sep s).
Proof.
  revert cur. induction s as [|c s IH]; intros cur; [done|].
  cbn [Str.split_go str_count]. case_bool_decide; simpl; by rewrite IH.
Qed.

Lemma split_length sep s : length (Str.split sep s) = S (str_count sep s).
Proof. apply split_go_length. Qed.

Lemma cleanup_orphaned_one_line args files w :
  str_count "010" files = 0 →
  ∃ w', cleanup_orphaned args files w = (Ret tt, w') ∧
    stdout w' = stdout w ++ [PrintRemovingOrphans; PrintNoOrphans] ∧
    ssh_log w' = ssh_log w ++ [ListOrphans] ∧
    stdin w' = stdin w ∧ index w' = index w.
Proof.
  intros Hcount. unfold cleanup_orphaned, print, ssh. munfold. cbv beta iota.
  rewrite split_length, Hcount. simpl. eexists. split; [done|]. simpl.
  by rewrite <- app_assoc.
Qed.

(** ** Reading the listing of fingerprints *)

Lemma files_of_cons e entries md5 :
  files_of (e :: entries) md5 =
  (if bool_decide (e.1 = md5) then [e.2] else []) ++ files_of entries md5.
Proof. unfold files_of. simpl. by case_bool_decide. Qed.

Lemma read_md5sums_groups entries : ∀ database duplicates w,
  ∃ database' duplicates',
    read_md5sums (readable entries) database duplicates w = (Ret (database', duplicates'), w) ∧
    ∀ md5,
      database' !! md5 =
        (if decide (files_of entries md5 = []) then database !! md5
         else Some (default [] (database !! md5) ++ files_of entries md5)) ∧
      (md5 ∈ duplicates' ↔
       md5 ∈ duplicates ∨
       files_of entries md5 ≠ [] ∧
       2 ≤ length (default [] (database !! md5) ++ files_of entries md5)).
Proof.
  induction entries as [|[m0 u0] entries IH]; intros database duplicates w.
  { exists database, duplicates. split; [done|]. intros md5. split; [done|].
    unfold files_of. simpl. naive_solver. }
  cbn [readable fmap list_fmap fst snd read_md5sums].
  set (members := default [] (database !! m0) ++ [u0]).
  set (duplicates1 := if 2 <=? length members then {[m0]} ∪ duplicates else duplicates).
  destruct (IH (<[m0 := members]> database) duplicates1 w)
    as (database' & duplicates' & Hrun & Hspec).
  exists database', duplicates'. split; [exact Hrun|].
  intros md5. destruct (Hspec md5) as [Hdb Hdup]. rewrite files_of_cons. cbn [fst snd].
  assert (md5 ∈ duplicates1 ↔ md5 ∈ duplicates ∨ md5 = m0 ∧ 2 ≤ length members) as Hd1.
  { subst duplicates1. destruct (2 <=? length members) eqn:Hlen.
    - apply Nat.leb_le in Hlen. set_solver.
    - apply Nat.leb_gt in Hlen. split; [by left|]. intros [?|[_ ?]]; [done|lia]. }
  destruct (decide (m0 = md5)) as [->|Hne].
  - rewrite bool_decide_eq_true_2 by done. rewrite lookup_insert_eq in Hdb, Hdup.
    simpl in Hdb, Hdup. split.
    + rewrite decide_False by done. rewrite Hdb.
      destruct (decide (files_of entries md5 = [])) as [->|_].
      * done.
      * subst members. by rewrite <- app_assoc.
    + rewrite Hdup, Hd1. subst members. rewrite <- !app_assoc. simpl.
      rewrite !length_app. simpl.
      destruct (files_of entries md5) as [|f fs]; simpl; naive_solver lia.
  - rewrite bool_decide_eq_false_2 by done. simpl.
    rewrite lookup_insert_ne in Hdb, Hdup by done. split; [done|].
    rewrite Hdup, Hd1. naive_solver.
Qed.

Lemma read_md5sums_unreadable entries line rest : ∀ database duplicates w,
  read_md5sums (readable entries ++ Md5Unreadable line :: rest) database duplicates w
  = (Raise ValueError, (print (PrintLine line) w).2).
Proof.
  induction entries as [|[m0 u0] entries IH]; intros database duplicates w.
  - simpl. unfold print. by munfold.
  - cbn [readable fmap list_fmap app fst snd read_md5sums]. apply IH.
Qed.

(** ** The selection prompt *)

Lemma select_candidate_bounds `{Library} len : ∀ lines w r w',
  stdin w = lines →
  select_candidate len lines w = (r, w') →
  match r with
  | Ret i => (i = -1 ∨ i = -2 ∨ 0 ≤ i < Z.max 1 (Z.of_nat len))%Z
  | Raise e => e = EOFError ∧ stdin w' = []
  end.
Proof.
  induction lines as [|s lines IH]; intros w r w' Hin.
  - cbn [select_candidate]. destruct (len =? 1) eqn:Hlen.
    + unfold print. munfold. intros [= <- <-]. lia.
    + munfold. by intros [= <- <-].
  - cbn [select_candidate]. destruct (len =? 1) eqn:Hlen.
    { unfold print. munfold. intros [= <- <-]. lia. }
    munfold. cbv beta iota.
    set (w1 := set_stdin (fun _ => lines) w).
    assert (stdin w1 = lines) as Hin1 by done.
    repeat case_bool_decide; try (intros [= <- <-]; lia).
    destruct (int_of_str s) as [i|].
    + case_bool_decide.
      * intros [= <- <-]. lia.
      * unfold print. munfold. cbv beta iota. apply IH. done.
    + unfold print. munfold. cbv beta iota. apply IH. done.
Qed.

(** ** An empty collection whose parent is not in the index *)

Lemma fullpath_missing_parent ix m p :
  parent m = Some p → p ≠ "" → metadata_by_uuid ix !! p = None →
  fullpath ix m = Raise KeyError.
Proof.
  intros Hp Hne Hnone. unfold fullpath.
  change (recursion_limit - 3) with (S (recursion_limit - 4)). cbn [fullpath_rec].
  rewrite Hp.
  rewrite bool_decide_eq_false_2 by done. unfold getitem. by rewrite Hnone.
Qed.

Lemma scan_empty_missing_parent u m p items : ∀ w,
  (u, m) ∈ items →
  type_ m = "CollectionType" → metadata_by_parent (index w) !! u = None →
  parent m = Some p → p ≠ "" → metadata_by_uuid (index w) !! p = None →
  ∃ e w', scan_empty items w = (Raise e, w').
Proof.
  induction items as [|[u0 m0] items IH]; intros w Hin Hty Hch Hp Hne Hnone.
  { by apply elem_of_nil in Hin. }
  cbn [scan_empty]. case_bool_decide as Hty0.
  { apply elem_of_cons in Hin as [[= -> ->]|Hin]; [done|]. by apply IH. }
  munfold. destruct (metadata_by_parent (index w) !! u0) eqn:Hch0.
  { apply elem_of_cons in Hin as [[= -> ->]|Hin]; [congruence|]. by apply IH. }
  destruct (fullpath (index w) m0) as [path|e] eqn:Hpath; [|eauto].
  apply elem_of_cons in Hin as [[= -> ->]|Hin].
  { by rewrite (fullpath_missing_parent _ _ p) in Hpath. }
  unfold print. munfold. cbv beta iota.
  destruct (IH (set_stdout (fun out => out ++ [PrintEmpty path]) w)) as (e & w' & Hrun);
    [done..|].
  rewrite Hrun. eauto.
Qed.

Lemma cleanup_emptydir_missing_parent args u m p w :
  metadata_by_uuid (index w) !! u = Some m →
  type_ m = "CollectionType" → metadata_by_parent (index w) !! u = None →
  parent m = Some p → p ≠ "" → metadata_by_uuid (index w) !! p = None →
  ∃ e w', cleanup_emptydir args w = (Raise e, w') ∧
    (e = KeyError ∨ e = RecursionError) ∧
    ssh_log w' = ssh_log w ∧ index w' = index w.
Proof.
  intros Hu Hty Hch Hp Hne Hnone. unfold cleanup_emptydir. munfold.
  cbn [emptydir_loop]. unfold print at 1. munfold. cbv beta iota.
  set (w0 := set_stdout _ w).
  destruct (scan_empty_missing_parent u m p (map_to_list (metadata_by_uuid (index w0))) w0)
    as (e & w' & Hscan); [by apply elem_of_map_to_list|done..|].
  rewrite Hscan. exists e, w'. split; [done|].
  apply scan_empty_inv in Hscan as (Hix & [out [_ Hssh _ _ _ _]] & He).
  split_and!; [done| |done]. rewrite Hssh. simpl. by rewrite app_nil_r.
Qed.

(** X9: a listing of orphans that holds no line break, as it does when
    exactly one file has no metadata, is taken for an empty one: the
    orphan pass prints that no orphan file was found, asks nothing and
    sends no removal. *)
Theorem cleanup_orphaned_single_line (args : Args) (files : string) (w : World) :
  str_count "010" files = 0 →
  ∃ w', cleanup_orphaned args files w = (Ret tt, w') ∧
    stdout w' = stdout w ++ [PrintRemovingOrphans; PrintNoOrphans] ∧
    ssh_log w' = ssh_log w ++ [ListOrphans] ∧
    stdin w' = stdin w ∧ index w' = index w.
Proof. apply cleanup_orphaned_one_line. Qed.

Lemma cleanup_orphaned_single_line_witness :
  ∃ w', cleanup_orphaned (mkArgs false true skip [] None) "0a1b.thumbnails"
          (world_of empty_index []) = (Ret tt, w') ∧
    stdout w' = stdout (world_of empty_index []) ++ [PrintRemovingOrphans; PrintNoOrphans] ∧
    ssh_log w' = ssh_log (world_of empty_index []) ++ [ListOrphans] ∧
    stdin w' = stdin (world_of empty_index []) ∧
    index w' = index (world_of empty_index []).
Proof.
  apply (cleanup_orphaned_single_line (mkArgs false true skip [] None) "0a1b.thumbnails"
           (world_of empty_index [])).
  reflexivity.
Defined.

(** X10: [cleanup_duplicates] groups the listing by fingerprint: when
    every line is readable, the database maps each fingerprint of the
    listing to its files in the order of the listing and holds no other
    key, and a fingerprint is marked as duplicated exactly when it has two
    files or more; the first unreadable line is printed and ends the pass
    with [ValueError]. *)
Theorem read_md5sums_groups_by_fingerprint (entries : list (string * string)) (w : World) :
  (∃ database duplicates,
     read_md5sums (readable entries) ∅ ∅ w = (Ret (database, duplicates), w) ∧
     ∀ md5,
       database !! md5 =
         (if decide (files_of entries md5 = []) then None else Some (files_of entries md5)) ∧
       (md5 ∈ duplicates ↔ 2 ≤ length (files_of entries md5))) ∧
  (∀ line rest,
     read_md5sums (readable entries ++ Md5Unreadable line :: rest) ∅ ∅ w
     = (Raise ValueError, (print (PrintLine line) w).2)).
Proof.
  split; [|intros; apply read_md5sums_unreadable].
  destruct (read_md5sums_groups entries ∅ ∅ w) as (database & duplicates & Hrun & Hspec).
  exists database, duplicates. split; [done|]. intros md5.
  destruct (Hspec md5) as [Hdb Hdup]. rewrite lookup_empty in Hdb, Hdup. simpl in *.
  split; [done|]. rewrite Hdup. split.
  - intros [Hin|[_ Hlen]]; [by apply elem_of_empty in Hin|done].
  - intros Hlen. right. split; [|done]. intros Hnil. rewrite Hnil in Hlen. simpl in Hlen. lia.
Qed.

(** X11: the selection prompt of a group of one candidate or more answers
    [-1] (skip), [-2] (stop) or an index of the list of candidates,
    whatever is typed; it ends otherwise only by [EOFError], when
    standard input is used up. *)
Theorem select_candidate_in_bounds `{Library} (len : nat) (lines : list string)
    (w : World) (r : result Z) (w' : World) :
  1 ≤ len → stdin w = lines →
  select_candidate len lines w = (r, w') →
  match r with
  | Ret i => (i = -1 ∨ i = -2 ∨ 0 ≤ i < Z.of_nat len)%Z
  | Raise e => e = EOFError ∧ stdin w' = []
  end.
Proof.
  intros Hlen Hin Hrun. pose proof (select_candidate_bounds len lines w r w' Hin Hrun) as Hb.
  destruct r as [i|e]; [|done]. lia.
Qed.

Lemma select_candidate_in_bounds_witness :
  match (select_candidate (H := example_library) 3 ["7"; "x"; "2"]
           (world_of empty_index ["7"; "x"; "2"])).1 with
  | Ret i => (i = -1 ∨ i = -2 ∨ 0 ≤ i < Z.of_nat 3)%Z
  | Raise e =>
      e = EOFError ∧
      stdin (select_candidate (H := example_library) 3 ["7"; "x"; "2"]
               (world_of empty_index ["7"; "x"; "2"])).2 = []
  end.
Proof.
  apply (select_candidate_in_bounds (H := example_library) 3 ["7"; "x"; "2"]
           (world_of empty_index ["7"; "x"; "2"])).
  - lia.
  - reflexivity.
  - apply surjective_pairing.
Defined.

(** X12: an empty collection whose parent is not in by-id, as when the
    parent is in the trash, stops the empty-collection pass: the first
    scan raises when it prints the path of the collection, before
    anything is removed from the index or from the device. *)
Theorem cleanup_emptydir_missing_parent_raises (args : Args) (u p : string)
    (m : Metadata) (w : World) :
  metadata_by_uuid (index w) !! u = Some m →
  type_ m = "CollectionType" → metadata_by_parent (index w) !! u = None →
  parent m = Some p → p ≠ "" → metadata_by_uuid (index w) !! p = None →
  ∃ e w', cleanup_emptydir args w = (Raise e, w') ∧
    (e = KeyError ∨ e = RecursionError) ∧
    ssh_log w' = ssh_log w ∧ index w' = index w.
Proof. apply cleanup_emptydir_missing_parent. Qed.

Lemma cleanup_emptydir_missing_parent_raises_witness :
  ∃ e w', cleanup_emptydir (mkArgs false true skip [] None)
            (world_of (loaded [("t1", mkMetadata "Old" (Some "trash") "1700000000000"
                                        "CollectionType" (Some false));
                               ("s1", collection_md "Drafts" "t1")]) []) = (Raise e, w') ∧
    (e = KeyError ∨ e = RecursionError) ∧
    ssh_log w' = [] ∧
    index w' = loaded [("t1", mkMetadata "Old" (Some "trash") "1700000000000"
                                "CollectionType" (Some false));
                       ("s1", collection_md "Drafts" "t1")].
Proof.
  apply (cleanup_emptydir_missing_parent_raises (mkArgs false true skip [] None) "s1" "t1"
           (collection_md "Drafts" "t1")
           (world_of (loaded [("t1", mkMetadata "Old" (Some "trash") "1700000000000"
                                       "CollectionType" (Some false));
                              ("s1", collection_md "Drafts" "t1")]) [])).
  - vm_compute. reflexivity.
  - reflexivity.
  - vm_compute. reflexivity.
  - reflexivity.
  - discriminate.
  - vm_compute. reflexivity.
Defined.

(** ** The tree read from disk *)

Lemma building_refl args w : building args w w.
Proof. by split. Qed.

Lemma building_trans args w1 w2 w3 :
  building args w1 w2 → building args w2 w3 → building args w1 w3.
Proof.
  intros [? ? ? ? ? Hn1] [? ? ? ? ? Hn2]. split; try congruence; [lia|].
  intros Hpol. rewrite Hn2, Hn1; done.
Qed.

Lemma building_print args o w : building args w (print o w).2.
Proof. by split. Qed.

Lemma node_class_set_children n chs : node_class (set_children n chs) = node_class n.
Proof. done. Qed.

Lemma subnodes_leaf n : children n = [] → subnodes n = [n].
Proof. intros Hch. rewrite subnodes_unfold, Hch. done. Qed.

Section Construct.

Context `{Library}.
Variable args : Args.

Lemma apply_if_exists_shape node w :
  ∃ node' w', apply_if_exists args node w = (Ret node', w') ∧
    building args w w' ∧
    node_class node' = node_class node ∧ children node' = children node ∧
    name node' = name node ∧
    (node_exists node = false → node' = node ∧ w' = w).
Proof.
  unfold apply_if_exists. destruct (node_exists node) eqn:Hex.
  2:{ exists node, w. split_and!; try done; try apply building_refl. }
  destruct (if_exists args) eqn:Hpol; munfold; unfold gen_did;
    eexists _, _; (split; [reflexivity|]); split_and!; try done;
    try apply building_refl.
  split; simpl; try done; lia.
Qed.

Lemma Document_new ix nm suffix p :
  parent_id p = None → new_node (Document ix nm suffix (Some p)).
Proof. intros Hp. unfold Document, Node_init. simpl. rewrite Hp. done. Qed.

Lemma Folder_new ix nm p : parent_id p = None → new_node (Folder ix nm (Some p)).
Proof. intros Hp. unfold Folder, Node_init. simpl. rewrite Hp. done. Qed.

Lemma Document_facts ix nm suffix parent :
  let n := Document ix nm suffix parent in
  children n = [] ∧ (node_id n = None ↔ node_exists n = false) ∧
  gets_modified n = false ∧ render_doc_only n = false ∧ node_class n = DocumentClass.
Proof. unfold Document, Node_init. by repeat case_match. Qed.

Lemma Node_init_class ix cls ft nm parent :
  node_class (Node_init ix cls ft nm parent) = cls.
Proof. unfold Node_init. by repeat case_match. Qed.

Lemma Node_init_id_exists ix cls ft nm parent :
  let n := Node_init ix cls ft nm parent in
  (node_id n = None ↔ node_exists n = false) ∧ gets_modified n = false ∧
  render_doc_only n = false.
Proof. unfold Node_init. by repeat case_match. Qed.

(** Reading an entry of the disk never fails; it gives a node exactly
    for an entry that holds an accepted file, and the tree has no folder
    without children. *)
Lemma construct_shape entry : ∀ path parent w,
  ∃ r w', construct_node_tree_from_disk args path entry parent w = (Ret r, w') ∧
    building args w w' ∧
    (is_Some r ↔ uploadable entry = true) ∧
    (∀ n, r = Some n → no_empty_folder n).
Proof.
  induction entry as [nm entries IH|nm|nm] using FsEntry_ind_entries; intros path parent w.
  - rewrite construct_dir_unfold. munfold. cbv zeta.
    set (node := Folder (index w) nm parent).
    set (me := as_parent (parent_full_path <$> parent) node).
    assert (∀ chs w0, ∃ new w1,
              construct_listdir args path me entries chs w0 = (Ret (chs ++ new), w1) ∧
              building args w0 w1 ∧
              (new ≠ [] ↔ existsb uploadable entries = true) ∧
              Forall no_empty_folder new) as Hlist.
    { clear -IH. induction entries as [|f entries IHe]; intros chs w0.
      { exists [], w0. rewrite app_nil_r. split_and!; try done; try apply building_refl. }
      apply Forall_cons in IH as [IHf IH]. specialize (IHe IH).
      cbn [construct_listdir existsb]. munfold.
      destruct (IHf (path +:+ "/" +:+ entry_name f) (Some me) w0)
        as (child & w2 & -> & Hb & Hsome & Hshape).
      destruct child as [c|].
      - destruct (IHe (chs ++ [c]) w2) as (new & w1 & -> & Hb' & Hnew & Hall).
        exists (c :: new), w1. rewrite <- app_assoc. split_and!; try done.
        + by eapply building_trans.
        + split; [|done]. intros _. apply orb_true_iff. left. apply Hsome. eauto.
        + constructor; [by apply Hshape|done].
      - destruct (IHe chs w2) as (new & w1 & -> & Hb' & Hnew & Hall).
        exists new, w1. split_and!; try done.
        + by eapply building_trans.
        + rewrite Hnew. destruct (uploadable f) eqn:Hup; [|done].
          destruct (proj2 Hsome eq_refl) as [? [=]]. }
    destruct (Hlist [] w) as (new & w1 & -> & Hb & Hnew & Hall). simpl.
    cbn [uploadable]. fold (@uploadable H).
    destruct new as [|c new].
    + unfold print. munfold. eexists _, _. split; [reflexivity|]. split_and!.
      * eapply building_trans; [exact Hb|apply building_print].
      * split; [by intros [? [=]]|]. intros Hex. by apply Hnew in Hex.
      * by intros n [=].
    + eexists _, _. split; [reflexivity|]. split_and!; [done| |].
      * split; [|eauto]. intros _. by apply Hnew.
      * intros n [= <-]. unfold no_empty_folder. rewrite subnodes_unfold.
        rewrite children_set_children. constructor.
        -- rewrite node_class_set_children, children_set_children.
           unfold node, Folder. by rewrite Node_init_class.
        -- apply Forall_flat_map. exact Hall.
  - cbn [construct_node_tree_from_disk uploadable].
    destruct (supported_suffix (path_suffix nm)) eqn:Hsup.
    + munfold.
      destruct (apply_if_exists_shape (Document (index w) nm (path_suffix nm) parent) w)
        as (node' & w' & -> & Hb & Hcls & Hch & _).
      eexists _, _. split; [reflexivity|]. split_and!; [done| |].
      * split; eauto.
      * intros n [= <-]. unfold no_empty_folder.
        unfold Document in Hch, Hcls. rewrite Node_init_children in Hch.
        rewrite Node_init_class in Hcls.
        rewrite subnodes_leaf by done. constructor; [|done]. by rewrite Hcls.
    + unfold print. munfold. eexists _, _. split; [reflexivity|]. split_and!.
      * apply building_print.
      * split; [by intros [? [=]]|done].
      * by intros n [=].
  - cbn [construct_node_tree_from_disk uploadable]. unfold print. munfold.
    eexists _, _. split; [reflexivity|]. split_and!.
    + apply building_print.
    + split; [by intros [? [=]]|done].
    + by intros n [=].
Qed.

End Construct.

Section ConstructNew.

Context `{Library}.
Variable args : Args.

(** What holds of every node read from an entry of a directory holds of
    the children the loop of lines 604-607 gathers. *)
Lemma construct_listdir_Forall (Q : Node → Prop) path me entries : ∀ chs w0 chs' w1,
  Forall (fun f => ∀ path w c w',
            construct_node_tree_from_disk args path f (Some me) w = (Ret (Some c), w') →
            Q c) entries →
  construct_listdir args path me entries chs w0 = (Ret chs', w1) →
  Forall Q chs → Forall Q chs'.
Proof.
  induction entries as [|f entries IHe]; intros chs w0 chs' w1 Hall.
  { by intros [= <- <-]. }
  apply Forall_cons in Hall as [Hf Hall].
  cbn [construct_listdir]. munfold.
  destruct (construct_node_tree_from_disk args _ f (Some me) w0)
    as [[[c|]|e] w2] eqn:Hc; [| |done].
  - intros Hrest Hchs. eapply IHe; [done|exact Hrest|].
    apply Forall_app. split; [done|]. constructor; [|done]. by eapply Hf.
  - intros Hrest Hchs. eapply IHe; eauto.
Qed.

Lemma apply_if_exists_keeps_id node w node' w' :
  apply_if_exists args node w = (Ret node', w') →
  is_Some (node_id node) → is_Some (node_id node').
Proof.
  unfold apply_if_exists. destruct (node_exists node); [|by intros [= <- <-]].
  destruct (if_exists args); munfold; unfold gen_did; intros [= <- <-]; simpl; eauto.
Qed.

Lemma new_node_set_children n chs : new_node n → new_node (set_children n chs).
Proof. done. Qed.

(** Under a parent without identifier every node read from disk is new. *)
Lemma construct_under_new entry : ∀ path p w n w',
  parent_id p = None →
  construct_node_tree_from_disk args path entry (Some p) w = (Ret (Some n), w') →
  Forall new_node (subnodes n).
Proof.
  induction entry as [nm entries IH|nm|nm] using FsEntry_ind_entries;
    intros path p w n w' Hp.
  - rewrite construct_dir_unfold. munfold. cbv zeta.
    set (node := Folder (index w) nm (Some p)).
    set (me := as_parent (parent_full_path <$> Some p) node).
    assert (new_node node) as Hnode by by apply Folder_new.
    assert (parent_id me = None) as Hme by apply Hnode.
    destruct (construct_listdir args path me entries [] w) as [[chs|e] w1] eqn:Hdir;
      [|done].
    eapply (construct_listdir_Forall (fun c => Forall new_node (subnodes c))) in Hdir;
      [| |done].
    2:{ eapply Forall_impl; [exact IH|]. intros f Hf path0 w0 c w0' Hc. by eapply Hf. }
    destruct chs as [|c chs]; unfold print; munfold; intros [= <-].
    rewrite subnodes_unfold, children_set_children. constructor.
    + by apply new_node_set_children.
    + apply Forall_flat_map. exact Hdir.
  - cbn [construct_node_tree_from_disk]. destruct (supported_suffix _); [|done].
    munfold.
    pose proof (Document_new (index w) nm (path_suffix nm) p Hp) as Hnew.
    destruct (apply_if_exists_shape args (Document (index w) nm (path_suffix nm) (Some p)) w)
      as (node' & w1 & -> & _ & _ & Hch & _ & Hsame).
    destruct (Hsame (proj1 (proj2 Hnew))) as [-> ->].
    intros [= <-]. rewrite subnodes_leaf; [by constructor|].
    apply Node_init_children.
  - done.
Qed.

(** In a tree read from disk, a node without identifier has only new
    nodes below it. *)
Lemma construct_new_below_new entry : ∀ path parent w n w',
  construct_node_tree_from_disk args path entry parent w = (Ret (Some n), w') →
  new_below_new n.
Proof.
  induction entry as [nm entries IH|nm|nm] using FsEntry_ind_entries;
    intros path parent w n w'.
  - rewrite construct_dir_unfold. munfold. cbv zeta.
    set (node := Folder (index w) nm parent).
    set (me := as_parent (parent_full_path <$> parent) node).
    destruct (construct_listdir args path me entries [] w) as [[chs|e] w1] eqn:Hdir;
      [|done].
    pose proof Hdir as Hdir'.
    eapply (construct_listdir_Forall new_below_new) in Hdir; [| |done].
    2:{ eapply Forall_impl; [exact IH|]. intros f Hf path0 w0 c w0' Hc. by eapply Hf. }
    destruct chs as [|c chs]; unfold print; munfold; intros [= <-].
    unfold new_below_new. rewrite subnodes_unfold, children_set_children. constructor.
    + intros Hid. change (node_id node = None) in Hid.
      eapply (construct_listdir_Forall (fun c => Forall new_node (subnodes c))) in Hdir';
        [| |done].
      2:{ apply Forall_forall. intros f _ path0 w0 c0 w0' Hc.
          by eapply construct_under_new in Hc. }
      rewrite subnodes_unfold, children_set_children. constructor.
      * apply new_node_set_children.
        destruct (Node_init_id_exists (index w) FolderClass "folder" nm parent)
          as (Hex & Hgm & Hrdo).
        split_and!; [done|by apply Hex|done..].
      * apply Forall_flat_map. exact Hdir'.
    + apply Forall_flat_map. exact Hdir.
  - cbn [construct_node_tree_from_disk]. destruct (supported_suffix _); [|done].
    munfold. set (node := Document (index w) nm (path_suffix nm) parent).
    destruct (Document_facts (index w) nm (path_suffix nm) parent)
      as (Hch0 & Hex & Hgm & Hrdo & _).
    fold node in Hch0, Hex, Hgm, Hrdo.
    destruct (apply_if_exists_shape args node w)
      as (node' & w1 & Hpol & _ & _ & Hch & _ & Hsame).
    rewrite Hpol. intros [= <-].
    unfold new_below_new. rewrite subnodes_leaf by congruence.
    constructor; [|done]. intros Hid. rewrite subnodes_leaf by congruence.
    constructor; [|done].
    destruct (node_id node) as [v|] eqn:Hv.
    + apply apply_if_exists_keeps_id in Hpol; [|by rewrite Hv]. rewrite Hid in Hpol.
      by destruct Hpol.
    + destruct (Hsame (proj1 Hex eq_refl)) as [-> _].
      split_and!; [done|by apply Hex|done..].
  - done.
Qed.

(** Reading the documents given on the command line. *)
Lemma construct_documents_shape documents : ∀ parent w,
  ∃ nodes w', construct_documents args documents parent w = (Ret nodes, w') ∧
    building args w w' ∧
    Forall no_empty_folder nodes ∧ Forall new_below_new nodes.
Proof.
  induction documents as [|[path entry] documents IH]; intros parent w.
  { exists [], w. split_and!; try done; try apply building_refl. }
  cbn [construct_documents]. munfold.
  destruct (construct_shape args entry path parent w) as (r & w1 & Hrun & Hb & _ & Hshape).
  rewrite Hrun.
  destruct (IH parent w1) as (nodes & w2 & -> & Hb' & Hall & Hnew).
  eexists _, _. split; [reflexivity|]. split_and!.
  - by eapply building_trans.
  - destruct r as [n|]; [|done]. constructor; [by apply Hshape|done].
  - destruct r as [n|]; [|done]. constructor; [|done].
    by eapply construct_new_below_new.
Qed.

Lemma construct_destination_shape folders : ∀ ix folder parent documents w,
  ∃ node w', construct_destination args ix folder folders parent documents w = (Ret node, w') ∧
    building args w w' ∧ name node = folder.
Proof.
  induction folders as [|folder' folders IH]; intros ix folder parent documents w;
    cbn [construct_destination]; munfold.
  - destruct (construct_documents_shape documents
                (Some (as_parent (parent_full_path <$> parent) (Folder ix folder parent))) w)
      as (nodes & w' & -> & Hb & _).
    eexists _, _. split; [reflexivity|]. split; [done|].
    unfold Folder, Node_init. by repeat case_match.
  - destruct (IH ix folder'
                (Some (as_parent (parent_full_path <$> parent) (Folder ix folder parent)))
                documents w) as (ch & w' & -> & Hb & _).
    eexists _, _. split; [reflexivity|]. split; [done|].
    unfold Folder, Node_init. by repeat case_match.
Qed.

Lemma push_to_remarkable_building documents w :
  ∃ roots w', push_to_remarkable args documents w = (Ret roots, w') ∧ building args w w'.
Proof.
  unfold push_to_remarkable. munfold.
  assert (∃ roots w',
            match construct_documents args documents None w with
            | (Ret root, w1) => (Ret (apply_excludes args root), w1)
            | (Raise e, w1) => (Raise e, w1)
            end = (Ret roots, w') ∧ building args w w') as Hplain.
  { destruct (construct_documents_shape documents None w) as (nodes & w' & -> & Hb & _).
    eauto. }
  destruct (destination args) as [[|c dest]|]; [done| |done].
  destruct (Str.split "/" (String c dest)) as [|folder folders].
  { eexists _, _. split; [reflexivity|]. apply building_refl. }
  destruct (construct_destination_shape folders (index w) folder None documents w)
    as (node & w' & -> & Hb & _).
  eauto.
Qed.

End ConstructNew.


(** X14: in a tree read from disk, everything below a node that has no
    identifier is new: it has no identifier, does not exist on the device
    and is not marked as modified, whatever [--if-exists] says. The
    policy only reaches documents whose folders are all on the device. *)
Theorem construct_new_below `{Library} (args : Args) (path : string) (entry : FsEntry)
    (parent : option Parent) (w : World) (n : Node) (w' : World) :
  construct_node_tree_from_disk args path entry parent w = (Ret (Some n), w') →
  new_below_new n.
Proof. apply construct_new_below_new. Qed.

Lemma construct_new_below_witness :
  new_below_new
    (set_children (Folder (loaded [("d1", document_md "a.pdf" "")]) "New" None)
       [Document (loaded [("d1", document_md "a.pdf" "")]) "a.pdf" ".pdf"
          (Some (mkParent None "New"))]).
Proof.
  apply (construct_new_below (H := example_library) (mkArgs false false overwrite [] None)
           "New" (FsDir "New" [FsFile "a.pdf"]) None
           (world_of (loaded [("d1", document_md "a.pdf" "")]) [])
           _ (set_stdout (fun out => out)
                (world_of (loaded [("d1", document_md "a.pdf" "")]) []))).
  vm_compute. reflexivity.
Defined.

(** X15: building and pruning the trees of a push (lines 656-689), however
    it ends, changes neither the index, nor standard input, nor what was
    sent to the device, and downloads nothing; identifiers are generated
    only under [--if-exists duplicate]. *)
Theorem push_to_remarkable_builds `{Library} (args : Args)
    (documents : list (string * FsEntry)) (w : World) (r : result (list Node)) (w' : World) :
  push_to_remarkable args documents w = (r, w') → building args w w'.
Proof.
  destruct (push_to_remarkable_building args documents w) as (roots & w1 & -> & Hb).
  by intros [= <- <-].
Qed.

Lemma push_to_remarkable_builds_witness :
  let ix := loaded [("d1", document_md "a.pdf" "")] in
  let args := mkArgs false false duplicate ["^notes/old"] None in
  let documents := [("a.pdf", FsFile "a.pdf");
                    ("notes", FsDir "notes" [FsFile "b.pdf"; FsDir "old" [FsFile "c.pdf"]])] in
  building args (world_of ix [])
    (push_to_remarkable (H := example_library) args documents (world_of ix [])).2.
Proof.
  intros ix args documents.
  apply (push_to_remarkable_builds (H := example_library) args documents (world_of ix [])
           (push_to_remarkable (H := example_library) args documents (world_of ix [])).1).
  apply surjective_pairing.
Defined.

(** ** Pull *)

Section PullFrame.

Context `{Library}.
Variable args : Args.

Lemma pull_anchor_keeps doc w r w' :
  pull_anchor doc w = (r, w') → pull_keeps w w' ∧ downloaded w' = downloaded w.
Proof.
  unfold pull_anchor. munfold.
  destruct (get_metadata_by_name (index w) _) as [d|].
  - destruct (getitem d "type") as [ty|e]; by intros [= <- <-].
  - unfold print. munfold. by intros [= <- <-].
Qed.

Lemma pull_anchors_keeps documents : ∀ w r w',
  pull_anchors documents w = (r, w') → pull_keeps w w' ∧ downloaded w' = downloaded w.
Proof.
  induction documents as [|doc documents IH]; intros w r w'.
  { by intros [= <- <-]. }
  cbn [pull_anchors]. munfold.
  destruct (pull_anchor doc w) as [[a|e] w1] eqn:Ha;
    apply pull_anchor_keeps in Ha as [(? & ? & ? & ?) ?].
  2:{ by intros [= <- <-]. }
  destruct (pull_anchors documents w1) as [[anchors|e] w2] eqn:Hrest;
    apply IH in Hrest as [(? & ? & ? & ?) ?]; intros [= <- <-];
    unfold pull_keeps; split_and!; congruence.
Qed.

Lemma pull_download_keeps a w r w' : pull_download args a w = (r, w') → pull_keeps w w'.
Proof.
  destruct a as [up node]. unfold pull_download. munfold.
  destruct (build (index w) _ node) as [node'|e]; [|by intros [= <- <-]].
  destruct (curb_tree _ node' _) as [v [curbed node'']].
  destruct curbed; by intros [= <- <-].
Qed.

Lemma for_each_pull_download_keeps anchors : ∀ w r w',
  for_each anchors (pull_download args) w = (r, w') → pull_keeps w w'.
Proof.
  induction anchors as [|a anchors IH]; intros w r w'.
  { by intros [= <- <-]. }
  rewrite for_each_cons.
  destruct (pull_download args a w) as [[[]|e] w1] eqn:Ha;
    apply pull_download_keeps in Ha as (? & ? & ? & ?).
  2:{ by intros [= <- <-]. }
  intros Hrest. apply IH in Hrest as (? & ? & ? & ?).
  unfold pull_keeps; split_and!; congruence.
Qed.

Lemma pull_from_remarkable_keeps documents w r w' :
  pull_from_remarkable args documents w = (r, w') →
  pull_keeps w w' ∧
  (if_exists args = duplicate ∨ if_exists args = doconly → r = Raise AssertionError ∧ w' = w).
Proof.
  unfold pull_from_remarkable.
  assert ((anchors ← pull_anchors documents; for_each anchors (pull_download args)) w
          = (r, w') → pull_keeps w w') as Hrun.
  { munfold. destruct (pull_anchors documents w) as [[anchors|e] w1] eqn:Ha;
      apply pull_anchors_keeps in Ha as [(? & ? & ? & ?) ?].
    2:{ by intros [= <- <-]. }
    intros Hrest. apply for_each_pull_download_keeps in Hrest as (? & ? & ? & ?).
    unfold pull_keeps; split_and!; congruence. }
  destruct (if_exists args).
  - intros [= <- <-]. split; [done|]. auto.
  - intros Hr. split; [by apply Hrun|]. by intros [|].
  - intros Hr. split; [by apply Hrun|]. by intros [|].
  - intros [= <- <-]. split; [done|]. auto.
Qed.

Lemma mapM_result_intro {A B} (f : A → result B) (l : list A) (ys : list B) :
  Forall2 (fun x y => f x = Ret y) l ys → mapM f l = Ret ys.
Proof.
  induction 1 as [|x y l ys Hx _ IH]; [done|]. cbn [mapM]. by rewrite Hx, IH.
Qed.

(** On records that nest within the calls that are left, [Folder.build]
    returns the tree of the index. *)
Lemma Folder_build_deep ix fuel : ∀ d up self,
  nests_within ix d (node_id self) → d < fuel →
  ∃ chs, Folder_build fuel ix up self = Ret (set_children self (children self ++ chs)) ∧
    filed_under ix (node_id self) chs ∧
    Forall (mirrors ix) (flat_map subnodes chs).
Proof.
  induction fuel as [|fuel IH]; intros d up self Hnests Hd; [lia|].
  pose (me := as_parent up self).
  pose (child := fun '(uuid, metadata) =>
         let ch :=
           if bool_decide (type_ metadata = "CollectionType")
           then Folder ix (visibleName metadata) (Some me)
           else
             let nm := visibleName metadata in
             let nm := if Str.endswith ".pdf" nm then nm else nm +:+ ".pdf" in
             Document ix (path_name nm) (path_suffix nm) (Some me) in
         let ch := set_id ch (Some uuid) in
         match node_class ch with
         | FolderClass => Folder_build fuel ix (Some (parent_full_path me)) ch
         | DocumentClass => Ret ch
         end).
  assert (∀ l, (∀ e, e ∈ l → get_metadata_by_parent ix (node_id self) !! e.1 = Some e.2) →
            ∃ chs, Forall2 (fun e ch => child e = Ret ch) l chs ∧
                   Forall2 node_of_record l chs ∧
                   Forall (mirrors ix) (flat_map subnodes chs)) as Hchildren.
  { induction l as [|[uuid metadata] l IHl]; intros Hl.
    { exists []. split_and!; constructor. }
    destruct IHl as (chs & Hrun & Hrec & Hall).
    { intros e He. apply Hl. by right. }
    specialize (Hl (uuid, metadata) ltac:(left)). cbn [fst snd] in Hl.
    assert (∃ ch, child (uuid, metadata) = Ret ch ∧ node_of_record (uuid, metadata) ch ∧
                  Forall (mirrors ix) (subnodes ch)) as (ch & Hch & Hnode & Hsub).
    { unfold child, node_of_record. cbn [fst snd]. case_bool_decide as Hty.
      - replace (node_class (set_id (Folder ix (visibleName metadata) (Some me)) (Some uuid)))
          with FolderClass by (unfold Folder, Node_init; by repeat case_match).
        destruct d as [|d]; [by destruct (Hnests uuid metadata Hl Hty)|].
        destruct (IH d (Some (parent_full_path me))
                    (set_id (Folder ix (visibleName metadata) (Some me)) (Some uuid)))
          as (chs' & -> & Hfiled & Hall'); [by apply (Hnests uuid metadata)|lia|].
        eexists. split; [reflexivity|]. split.
        + unfold Folder, Node_init. by repeat case_match.
        + rewrite subnodes_unfold, children_set_children.
          replace (children (set_id (Folder ix (visibleName metadata) (Some me)) (Some uuid)))
            with (@nil Node) by (unfold Folder, Node_init; by repeat case_match).
          constructor; [|done]. unfold mirrors.
          rewrite node_class_set_children, children_set_children.
          replace (node_class (set_id (Folder ix (visibleName metadata) (Some me))
                                 (Some uuid)))
            with FolderClass by (unfold Folder, Node_init; by repeat case_match).
          exact Hfiled.
      - set (nm := if Str.endswith ".pdf" (visibleName metadata) then visibleName metadata
                   else visibleName metadata +:+ ".pdf").
        replace (node_class (set_id (Document ix (path_name nm) (path_suffix nm) (Some me))
                               (Some uuid)))
          with DocumentClass by (unfold Document, Node_init; by repeat case_match).
        eexists. split; [reflexivity|]. split.
        + unfold Document, Node_init. by repeat case_match.
        + rewrite subnodes_leaf by (unfold Document, Node_init; by repeat case_match).
          constructor; [|done]. unfold mirrors, Document, Node_init. by repeat case_match. }
    exists (ch :: chs). split_and!; [by constructor..|].
    cbn [flat_map]. by apply Forall_app. }
  destruct (Hchildren (map_to_list (get_metadata_by_parent ix (node_id self))))
    as (chs & Hrun & Hrec & Hall).
  { intros [u m] He. by apply elem_of_map_to_list in He. }
  exists chs. apply mapM_result_intro in Hrun.
  change (Folder_build (S fuel) ix up self)
    with (chs ← mapM child (map_to_list (get_metadata_by_parent ix (node_id self)));
          Ret (set_children self (children self ++ chs))).
  rewrite Hrun. split_and!; [done| |done].
  by exists (map_to_list (get_metadata_by_parent ix (node_id self))).
Qed.

End PullFrame.

(** X16: a pull changes neither the index, nor standard input, nor what
    was sent to the device, and generates no identifier, however it ends;
    under [--if-exists duplicate] or [doconly] it stops at the assertion
    of line 731 before doing anything. *)
Theorem pull_from_remarkable_frame `{Library} (args : Args) (documents : list string)
    (w : World) (r : result unit) (w' : World) :
  pull_from_remarkable args documents w = (r, w') →
  (index w' = index w ∧ stdin w' = stdin w ∧ ssh_log w' = ssh_log w ∧
   uuid_count w' = uuid_count w) ∧
  (if_exists args = duplicate ∨ if_exists args = doconly → r = Raise AssertionError ∧ w' = w).
Proof. apply pull_from_remarkable_keeps. Qed.

Lemma pull_from_remarkable_frame_witness :
  let w := world_of (loaded [("f1", collection_md "Papers" "")]) [] in
  let run := pull_from_remarkable (H := example_library)
               (mkArgs false false doconly [] None) ["Papers"] w in
  (index run.2 = index w ∧ stdin run.2 = stdin w ∧ ssh_log run.2 = ssh_log w ∧
   uuid_count run.2 = uuid_count w) ∧
  (doconly = duplicate ∨ doconly = doconly → run.1 = Raise AssertionError ∧ run.2 = w).
Proof.
  intros w run.
  apply (pull_from_remarkable_frame (H := example_library)
           (mkArgs false false doconly [] None) ["Papers"] w run.1 run.2).
  apply surjective_pairing.
Defined.

(** X17: on records that nest within the depth [Folder.build] reaches,
    [Folder.build] returns, and the tree it builds is that of the index:
    the folder gets, after the children it had, one child per record
    filed under its identifier in by-parent, a folder for a collection,
    otherwise a document named after the record, with [.pdf] appended when
    the name does not end so, each with the identifier of its record; the
    same holds of every folder below, and no document has a child. A
    folder without identifier gets no child. *)
Theorem Folder_build_mirrors_index `{Library} (ix : Index) (up : option string)
    (self : Node) (d : nat) :
  node_class self = FolderClass →
  nests_within ix d (node_id self) → d < build_depth →
  ∃ chs, build ix up self = Ret (set_children self (children self ++ chs)) ∧
    filed_under ix (node_id self) chs ∧
    Forall (mirrors ix) (flat_map subnodes chs) ∧
    (node_id self = None → chs = []).
Proof.
  intros Hcls Hnests Hd. unfold build. rewrite Hcls.
  destruct (Folder_build_deep ix build_depth d up self Hnests Hd)
    as (chs & Hrun & Hfiled & Hall).
  exists chs. split_and!; [done..|].
  intros Hid. destruct Hfiled as (records & Hperm & Hrec). rewrite Hid in Hperm.
  simpl in Hperm. rewrite map_to_list_empty in Hperm. apply Permutation_nil_r in Hperm.
  subst records. by apply Forall2_nil_inv_l in Hrec.
Qed.

Lemma Folder_build_mirrors_index_witness :
  let ix := loaded [("f1", collection_md "Papers" "");
                    ("f2", collection_md "Drafts" "f1");
                    ("d1", document_md "notes" "f2")] in
  let self := Folder ix "Papers" None in
  let drafts := set_id (Folder ix "Drafts" (Some (mkParent (Some "f1") "Papers")))
                  (Some "f2") in
  let notes := set_id (Document ix "notes.pdf" ".pdf"
                         (Some (mkParent (Some "f2") "Papers/Drafts"))) (Some "d1") in
  build (H := example_library) ix None self
    = Ret (set_children self [set_children drafts [notes]]) ∧
  ∃ chs, build (H := example_library) ix None self
           = Ret (set_children self (children self ++ chs)) ∧
    filed_under (H := example_library) ix (node_id self) chs ∧
    Forall (mirrors (H := example_library) ix) (flat_map subnodes chs) ∧
    (node_id self = None → chs = []).
Proof.
  intros ix self drafts notes. split; [vm_compute; reflexivity|].
  apply (Folder_build_mirrors_index (H := example_library) ix None self 1).
  - reflexivity.
  - assert (∀ id, get_metadata_by_parent ix (Some id) =
              if decide (id = "f1") then {[ "f2" := collection_md "Drafts" "f1" ]}
              else if decide (id = "f2") then {[ "d1" := document_md "notes" "f2" ]}
              else if decide (id = "") then {[ "f1" := collection_md "Papers" "" ]}
              else ∅) as Hix.
    { intros id. unfold get_metadata_by_parent.
      replace (metadata_by_parent ix)
        with (<["f1" := {[ "f2" := collection_md "Drafts" "f1" ]}]>
                (<["f2" := {[ "d1" := document_md "notes" "f2" ]}]>
                   (<["" := {[ "f1" := collection_md "Papers" "" ]}]>
                      (∅ : gmap string (gmap string Metadata)))))
        by (vm_compute; reflexivity).
      rewrite !lookup_insert, lookup_empty. by repeat case_decide. }
    cbn [nests_within]. intros u m. change (node_id self) with (Some "f1").
    rewrite (Hix "f1"), decide_True by done.
    intros [<- <-]%lookup_singleton_Some _ u' m'.
    rewrite (Hix "f2"), decide_False, decide_True by done.
    by intros [<- <-]%lookup_singleton_Some.
  - unfold build_depth, recursion_limit. lia.
Defined.

(** ** Rendering *)

Lemma placed_unfold parent n :
  placed parent n =
  (parent, n) :: match node_class n with
                 | FolderClass => flat_map (placed (Some (node_id n))) (children n)
                 | DocumentClass => []
                 end.
Proof. by destruct n. Qed.

Lemma visited_unfold n :
  visited n =
  n :: match node_class n with
       | FolderClass => flat_map visited (children n)
       | DocumentClass => []
       end.
Proof. by destruct n. Qed.



(** Writing a file makes no directory. *)
Lemma isdir_after_file id metadata (l : list PrepOp) :
  directories (l ++ [MetadataFile id metadata]) = directories l.
Proof. unfold directories. rewrite omap_app. simpl. by rewrite app_nil_r. Qed.



Section RenderProofs.

Context `{Library}.
Variable time_ms : nat → Z.

(** [render_common] for a node without identifier: the identifier is
    generated and nothing is in the way of the two files. *)
Lemma render_common_new parent self t :
  node_id self = None →
  render_common time_ms parent self t =
  let id := uuid4 (uuid_count (world t)) in
  (Done id,
   mkTransfer (set_uuid_count S (world t))
     (prepdir t ++
        [MetadataFile id (construct_metadata (time_ms (clock t)) (filetype self) (name self)
                            (parent_written parent));
         ContentFile id])
     (S (clock t))).
Proof.
  intros Hid. unfold render_common, read_clock, open_for_writing, path_isdir.
  rewrite Hid, bool_decide_eq_true_2 by done. xunfold. unfold gen_did.
  destruct parent; simpl; by rewrite <- app_assoc.
Qed.

(** [render_common] for a node that has its identifier. *)
Lemma render_common_old parent self t id :
  node_id self = Some id →
  render_common time_ms parent self t =
  let metadata :=
    MetadataFile id (construct_metadata (time_ms (clock t)) (filetype self) (name self)
                       (parent_written parent)) in
  if bool_decide (id +:+ ".metadata" ∈ directories (prepdir t))
  then (Failed IsADirectoryError, t)
  else if bool_decide (id +:+ ".content" ∈ directories (prepdir t))
  then (Failed IsADirectoryError,
        mkTransfer (world t) (prepdir t ++ [metadata]) (S (clock t)))
  else (Done id,
        mkTransfer (world t) (prepdir t ++ [metadata; ContentFile id]) (S (clock t))).
Proof.
  intros Hid. unfold render_common, read_clock, open_for_writing, path_isdir.
  rewrite Hid, bool_decide_eq_false_2 by done. xunfold. cbn [negb andb].
  destruct (bool_decide (id +:+ ".metadata" ∈ directories (prepdir t))); [done|].
  cbn [world prepdir clock].
  destruct parent as [parent_id|]; cbn [parent_written]; rewrite isdir_after_file;
    destruct (bool_decide (id +:+ ".content" ∈ directories (prepdir t))); try done;
    cbn [world prepdir clock]; by rewrite <- app_assoc.
Qed.

Lemma render_common_done parent self t id t' :
  render_common time_ms parent self t = (Done id, t') →
  id = match node_id self with
       | Some id => id
       | None => uuid4 (uuid_count (world t))
       end ∧
  t' = mkTransfer
         (match node_id self with
          | Some _ => world t
          | None => set_uuid_count S (world t)
          end)
         (prepdir t ++
            [MetadataFile id (construct_metadata (time_ms (clock t)) (filetype self)
                                (name self) (parent_written parent));
             ContentFile id])
         (S (clock t)).
Proof.
  destruct (node_id self) as [id0|] eqn:Hid.
  - rewrite (render_common_old _ _ _ id0) by done. cbv zeta.
    repeat case_bool_decide; try done. by intros [= <- <-].
  - rewrite render_common_new by done. by intros [= <- <-].
Qed.


Lemma render_unfold parent self t :
  render time_ms parent self t =
  if render_doc_only self then (Failed TypeError, t)
  else
    match node_class self with
    | DocumentClass => Document_render time_ms parent self t
    | FolderClass =>
        match (if node_exists self then mret self
               else id ← render_common time_ms parent self; mret (set_id self (Some id))) t with
        | (Done self', t1) =>
            match render_list time_ms (node_id self') (children self) t1 with
            | (Done chs, t2) => (Done (set_children self' chs), t2)
            | (Failed e, t2) => (Failed e, t2)
            end
        | (Failed e, t1) => (Failed e, t1)
        end
    end.
Proof.
  destruct self as [nm i e g c f r chs]. cbn [render render_doc_only node_class children].
  destruct r; [done|]. destruct c; [|done].
  unfold mbind at 1. unfold MX_bind at 1.
  match goal with
  | |- (let (_, _) := ?first in _) = _ => destruct first as [[self'|err] t1]; [|done]
  end.
  match goal with
  | |- context [mbind _ (?F chs)] =>
      assert (∀ l, F l = render_list time_ms (node_id self') l) as ->; [|done]
  end.
  induction l as [|ch l IHl]; [done|]. cbn [render_list]. by rewrite <- IHl.
Qed.

End RenderProofs.

Section RenderSpec.

Context `{Library}.
Variable time_ms : nat → Z.

Lemma Document_render_unfold parent self t :
  Document_render time_ms parent self t =
  if node_exists self then (Done self, t)
  else
    match render_common time_ms parent self t with
    | (Failed e, t1) => (Failed e, t1)
    | (Done id, t1) =>
        let new := bool_decide (node_id self = None) in
        if path_exists new id t1 then (Failed FileExistsError, t1)
        else
          let t2 := mkTransfer (world t1) (prepdir t1 ++ [Directory id]) (clock t1) in
          if path_exists new (id +:+ ".thumbnails") t2 then (Failed FileExistsError, t2)
          else
            (Done (set_id self (Some id)),
             mkTransfer (world t1)
               (prepdir t1 ++
                  [Directory id; Directory (id +:+ ".thumbnails"); CopyOf id (filetype self)])
               (clock t1))
    end.
Proof.
  unfold Document_render, makedirs. destruct (node_exists self); [done|]. xunfold.
  destruct (render_common time_ms parent self t) as [[id|e] t1]; [|done]. cbv zeta.
  destruct (path_exists _ id t1); [done|]. cbn [world prepdir clock].
  destruct (path_exists _ (id +:+ ".thumbnails") _); [done|]. cbn [world prepdir clock].
  by rewrite <- !app_assoc.
Qed.




Lemma Document_render_done parent self t n' t' :
  Document_render time_ms parent self t = (Done n', t') →
  if node_exists self then n' = self ∧ t' = t
  else
    let id := match node_id self with
              | Some id => id
              | None => uuid4 (uuid_count (world t))
              end in
    n' = set_id self (Some id) ∧
    t' = mkTransfer
           (match node_id self with
            | Some _ => world t
            | None => set_uuid_count S (world t)
            end)
           (prepdir t ++
              document_steps id (filetype self)
                (construct_metadata (time_ms (clock t)) (filetype self) (name self)
                   (parent_written parent)))
           (S (clock t)).
Proof.
  rewrite Document_render_unfold. destruct (node_exists self); [by intros [= <- <-]|].
  destruct (render_common time_ms parent self t) as [[id|e] t1] eqn:Hcommon; [|done].
  apply render_common_done in Hcommon as [-> ->]. cbv zeta.
  destruct (path_exists _ _ _); [done|]. destruct (path_exists _ _ _); [done|].
  intros [= <- <-]. split; [done|]. cbn [world prepdir clock]. unfold document_steps.
  by rewrite <- app_assoc.
Qed.


(** The first step of [Folder.render]. *)
Lemma Folder_step_done parent self t self' t1 :
  (if node_exists self then mret self
   else id ← render_common time_ms parent self; mret (set_id self (Some id))) t
  = (Done self', t1) →
  if node_exists self then self' = self ∧ t1 = t
  else
    let id := match node_id self with
              | Some id => id
              | None => uuid4 (uuid_count (world t))
              end in
    self' = set_id self (Some id) ∧
    t1 = mkTransfer
           (match node_id self with
            | Some _ => world t
            | None => set_uuid_count S (world t)
            end)
           (prepdir t ++
              [MetadataFile id (construct_metadata (time_ms (clock t)) (filetype self)
                                  (name self) (parent_written parent));
               ContentFile id])
           (S (clock t)).
Proof.
  destruct (node_exists self); [by intros [= <- <-]|].
  unfold mbind at 1. unfold MX_bind at 1.
  destruct (render_common time_ms parent self t) as [[id|e] t0] eqn:Hcommon; [|done].
  apply render_common_done in Hcommon as [-> ->]. by intros [= <- <-].
Qed.


Lemma render_list_cons parent_id ch rest t :
  render_list time_ms parent_id (ch :: rest) t =
  match render time_ms (Some parent_id) ch t with
  | (Done ch', t1) =>
      match render_list time_ms parent_id rest t1 with
      | (Done rest', t2) => (Done (ch' :: rest'), t2)
      | (Failed e, t2) => (Failed e, t2)
      end
  | (Failed e, t1) => (Failed e, t1)
  end.
Proof.
  cbn [render_list]. xunfold.
  destruct (render time_ms (Some parent_id) ch t) as [[ch'|e] t1]; [|done].
  by destruct (render_list time_ms parent_id rest t1) as [[rest'|e] t2].
Qed.



End RenderSpec.

Section RenderWritten.

Context `{Library}.
Variable time_ms : nat → Z.

Lemma render_list_written chs :
  Forall (fun n => ∀ parent t n' t',
            render time_ms parent n t = (Done n', t') → render_result parent n t n' t') chs →
  ∀ parent_id t chs' t',
    render_list time_ms parent_id chs t = (Done chs', t') →
    index (world t') = index (world t) ∧
    ∃ ops, prepdir t' = prepdir t ++ ops ∧
      Forall2 writes_metadata_of (List.filter is_metadata_file ops)
        (flat_map (to_upload (Some parent_id)) chs').
Proof.
  induction chs as [|ch chs IHchs]; intros Hall parent_id t chs' t'.
  { intros [= <- <-]. split; [done|]. exists []. rewrite app_nil_r. split; [done|constructor]. }
  apply Forall_cons in Hall as [Hch Hall]. rewrite render_list_cons.
  destruct (render time_ms (Some parent_id) ch t) as [[ch'|e] t1] eqn:Hrun; [|done].
  destruct (render_list time_ms parent_id chs t1) as [[rest'|e] t2] eqn:Hrest; [|done].
  intros [= <- <-].
  apply Hch in Hrun as (_ & _ & _ & _ & _ & _ & Hix1 & ops1 & Hops1 & Hw1).
  apply (IHchs Hall) in Hrest as (Hix2 & ops2 & Hops2 & Hw2).
  split; [congruence|].
  exists (ops1 ++ ops2). split.
  - by rewrite Hops2, Hops1, app_assoc.
  - rewrite List.filter_app. cbn [flat_map]. by apply Forall2_app.
Qed.

Lemma to_upload_unfold parent n :
  to_upload parent n =
  (if node_exists n then [] else [(parent, n)]) ++
  match node_class n with
  | FolderClass => flat_map (to_upload (Some (node_id n))) (children n)
  | DocumentClass => []
  end.
Proof.
  unfold to_upload at 1. rewrite placed_unfold. cbn [List.filter snd].
  assert (∀ l, List.filter (fun pm : option (option string) * Node => negb (node_exists pm.2))
                 (flat_map (placed (Some (node_id n))) l)
               = flat_map (to_upload (Some (node_id n))) l) as Hl.
  { induction l as [|c l IHl]; [done|]. cbn [flat_map]. by rewrite List.filter_app, IHl. }
  destruct (node_exists n), (node_class n); simpl; by rewrite ?Hl.
Qed.

Lemma render_written n : ∀ parent t n' t',
  render time_ms parent n t = (Done n', t') → render_result parent n t n' t'.
Proof.
  induction n as [n IH] using Node_ind_children. intros parent t n' t'.
  rewrite render_unfold. destruct (render_doc_only n); [done|].
  destruct (node_class n) eqn:Hcls.
  - pose proof (render_list_written _ IH) as Hlist.
    match goal with
    | |- context [match ?step t with _ => _ end] =>
        destruct (step t) as [[self'|e] t1] eqn:Hstep; [|done]
    end.
    apply Folder_step_done in Hstep.
    destruct (node_exists n) eqn:Hex; cbv zeta in Hstep; destruct Hstep as [-> ->].
    + destruct (render_list time_ms (node_id n) (children n) t) as [[chs'|e] t2] eqn:Hrun;
        [|done].
      intros [= <- <-]. apply Hlist in Hrun as (Hix & ops & Hops & Hw).
      unfold render_result. split_and!; try done; [congruence|].
      exists ops. split; [done|]. rewrite to_upload_unfold.
      rewrite node_class_set_children, Hcls, children_set_children.
      replace (node_exists (set_children n chs')) with true by done. exact Hw.
    + set (id := match node_id n with Some id => id | None => uuid4 _ end).
      match goal with
      | |- context [render_list _ ?pid _ ?t1] =>
          destruct (render_list time_ms pid (children n) t1) as [[chs'|e] t2] eqn:Hrun;
            [|done]
      end.
      intros [= <- <-]. apply Hlist in Hrun as (Hix & ops & Hops & Hw).
      simpl in Hops, Hix. unfold render_result. split_and!; try done.
      * intros [v Hv]. simpl. subst id. by rewrite Hv.
      * simpl in *. rewrite Hix. by destruct (node_id n).
      * eexists. split; [rewrite Hops, <- app_assoc; reflexivity|].
        rewrite to_upload_unfold.
        rewrite node_class_set_children. cbn [set_id node_class]. rewrite Hcls.
        rewrite children_set_children.
        replace (node_exists (set_children (set_id n (Some id)) chs')) with false by done.
        cbn [app List.filter is_metadata_file]. constructor; [|exact Hw].
        exists id, (time_ms (clock t)). split; [done|]. done.
  - intros Hrun. apply Document_render_done in Hrun.
    destruct (node_exists n) eqn:Hex; cbv zeta in Hrun; destruct Hrun as [-> ->].
    + unfold render_result. split_and!; try done; [congruence|].
      exists []. rewrite app_nil_r. split; [done|].
      rewrite to_upload_unfold, Hex, Hcls. constructor.
    + set (id := match node_id n with Some id => id | None => uuid4 _ end).
      unfold render_result. split_and!; try done.
      * intros [v Hv]. simpl. subst id. by rewrite Hv.
      * simpl. by destruct (node_id n).
      * eexists. split; [reflexivity|].
        rewrite to_upload_unfold. cbn [set_id node_class node_exists]. rewrite Hex, Hcls.
        cbn [app List.filter is_metadata_file document_steps]. constructor; [|constructor].
        exists id, (time_ms (clock t)). split; [done|]. done.
Qed.

Lemma render_list_existing chs :
  Forall (fun n => ∀ parent t,
            Forall (fun m => node_exists m = true ∧ render_doc_only m = false) (visited n) →
            render time_ms parent n t = (Done n, t)) chs →
  ∀ parent_id t,
    Forall (fun m => node_exists m = true ∧ render_doc_only m = false) (flat_map visited chs) →
    render_list time_ms parent_id chs t = (Done chs, t).
Proof.
  induction chs as [|ch chs IHchs]; intros Hall parent_id t Hex; [done|].
  apply Forall_cons in Hall as [Hch Hall]. cbn [flat_map] in Hex.
  apply Forall_app in Hex as [Hex1 Hex2].
  rewrite render_list_cons, Hch by done. by rewrite IHchs.
Qed.

Lemma render_existing n : ∀ parent t,
  Forall (fun m => node_exists m = true ∧ render_doc_only m = false) (visited n) →
  render time_ms parent n t = (Done n, t).
Proof.
  induction n as [n IH] using Node_ind_children. intros parent t.
  rewrite render_unfold, visited_unfold. intros [[Hex Hrdo] Hrest]%Forall_cons.
  rewrite Hrdo. destruct (node_class n).
  - rewrite Hex. unfold mret, MX_ret.
    rewrite (render_list_existing _ IH) by done. by rewrite set_children_children.
  - by rewrite Document_render_unfold, Hex.
Qed.

Lemma render_roots_existing root : ∀ t,
  Forall (fun m => node_exists m = true ∧ render_doc_only m = false) (flat_map visited root) →
  render_roots time_ms root t = (Done root, t).
Proof.
  induction root as [|r root IH]; intros t Hex; [done|].
  cbn [flat_map] in Hex. apply Forall_app in Hex as [Hex1 Hex2].
  cbn [render_roots]. xunfold. rewrite render_existing by done. by rewrite IH.
Qed.

End RenderWritten.

(** X18: rendering trees whose visited nodes all exist on the device (and
    have their own [render]) does nothing: no step in the transfer
    directory, no identifier generated, no reading of the clock; the trees
    are as they were. *)
Theorem render_skips_existing `{Library} (time_ms : nat → Z) (root : list Node)
    (t : Transfer) :
  Forall (fun m => node_exists m = true ∧ render_doc_only m = false) (flat_map visited root) →
  render_roots time_ms root t = (Done root, t).
Proof. apply render_roots_existing. Qed.

Lemma render_skips_existing_witness :
  let ix := loaded [("f1", collection_md "Papers" ""); ("d1", document_md "a.pdf" "f1")] in
  let root := [set_children (Folder ix "Papers" None)
                 [Document ix "a.pdf" ".pdf" (Some (mkParent (Some "f1") "Papers"))]] in
  render_roots (H := example_library) (fun n => 1700000000000 + Z.of_nat n)%Z root
    (mkTransfer (world_of ix []) [] 0)
  = (Done root, mkTransfer (world_of ix []) [] 0).
Proof.
  intros ix root.
  apply (render_skips_existing (H := example_library)
           (fun n => 1700000000000 + Z.of_nat n)%Z root (mkTransfer (world_of ix []) [] 0)).
  vm_compute. repeat constructor.
Defined.



(** X20: when [render] returns, the metadata files it wrote are, in
    order, those of the visited nodes that do not exist on the device:
    each under the identifier its node has afterwards, with the name of
    the node, the type its file type gives, and as parent the identifier
    of the folder above it (the empty string for a root). Every such node
    has an identifier afterwards; identifiers that were there are kept,
    and the index is not touched. *)
Theorem render_writes_metadata `{Library} (time_ms : nat → Z)
    (parent : option (option string)) (n : Node) (t : Transfer) (n' : Node) (t' : Transfer) :
  render time_ms parent n t = (Done n', t') →
  node_exists n' = node_exists n ∧ node_class n' = node_class n ∧
  name n' = name n ∧ filetype n' = filetype n ∧
  (node_exists n = false → is_Some (node_id n')) ∧
  (is_Some (node_id n) → node_id n' = node_id n) ∧
  index (world t') = index (world t) ∧
  ∃ ops, prepdir t' = prepdir t ++ ops ∧
    Forall2 writes_metadata_of (List.filter is_metadata_file ops) (to_upload parent n').
Proof. apply render_written. Qed.

Lemma render_writes_metadata_witness :
  let n' := set_children (set_id (Folder empty_index "New" None) (Some "generated-0"))
              [set_id (Document empty_index "a.pdf" ".pdf" (Some (mkParent None "New")))
                 (Some "generated-1")] in
  ∃ ops,
    [MetadataFile "generated-0" (construct_metadata 1700000000000 "folder" "New" (Some ""));
     ContentFile "generated-0";
     MetadataFile "generated-1"
       (construct_metadata 1700000000001 "pdf" "a.pdf" (Some "generated-0"));
     ContentFile "generated-1"; Directory "generated-1";
     Directory "generated-1.thumbnails"; CopyOf "generated-1" "pdf"] = [] ++ ops ∧
    Forall2 writes_metadata_of (List.filter is_metadata_file ops) (to_upload None n').
Proof.
  intros n'.
  refine (proj2 (proj2 (proj2 (proj2 (proj2 (proj2 (proj2
    (render_writes_metadata (H := example_library)
       (fun n => 1700000000000 + Z.of_nat n)%Z None
       (set_children (Folder empty_index "New" None)
          [Document empty_index "a.pdf" ".pdf" (Some (mkParent None "New"))])
       (mkTransfer (world_of empty_index []) [] 0) n'
       (mkTransfer (set_uuid_count (fun _ => 2) (world_of empty_index []))
          [MetadataFile "generated-0"
             (construct_metadata 1700000000000 "folder" "New" (Some ""));
           ContentFile "generated-0";
           MetadataFile "generated-1"
             (construct_metadata 1700000000001 "pdf" "a.pdf" (Some "generated-0"));
           ContentFile "generated-1"; Directory "generated-1";
           Directory "generated-1.thumbnails"; CopyOf "generated-1" "pdf"] 2) _)))))))).
  vm_compute. reflexivity.
Defined.

(** ** What each policy uploads *)

Section PolicyUploads.

Context `{Library}.
Variable time_ms : nat → Z.
Variable args : Args.







End PolicyUploads.





(** ** From the transfer directory back to the index *)

Lemma construct_metadata_read now ft nm p :
  read_metadata (construct_metadata now ft nm (Some p))
  = Some (mkMetadata nm (Some p) (pretty now)
            (if bool_decide (ft ∈ ["pdf"; "epub"]) then "DocumentType" else "CollectionType")
            (Some false)).
Proof. unfold construct_metadata. by case_bool_decide. Qed.

Lemma resolves_to_written ix nm parent :
  resolves_to ix nm parent
  = get_metadata_by_name_and_parent ix nm (parent_written (parent_id <$> parent)).
Proof. by destruct parent. Qed.

Lemma written_record_resolves now ft nm parent p u ix :
  parent_written (parent_id <$> parent) = Some p →
  p ≠ "trash" →
  metadata_by_name_and_parent ix !! (nm, p) = None →
  ∃ md ix',
    read_metadata (construct_metadata now ft nm (Some p)) = Some md ∧
    load_record (u, md) ix = (Ret tt, ix') ∧
    get_metadata_by_uuid ix' u = Some md ∧
    resolves_to ix' nm parent = Some (u, md).
Proof.
  intros Hpar Htrash Hfree. rewrite construct_metadata_read.
  set (md := mkMetadata _ _ _ _ _).
  assert (skipped md = false) as Hs.
  { unfold skipped. simpl. apply bool_decide_eq_false_2. by intros [= ->]. }
  exists md. eexists. split; [done|]. split.
  { by apply (load_record_free u md p). }
  split.
  - unfold get_metadata_by_uuid. simpl. by rewrite lookup_insert_eq.
  - rewrite resolves_to_written, Hpar. simpl. by rewrite lookup_insert_eq.
Qed.

(** X23: the metadata [render_common] writes for a node is read back by
    the loader as a record that is neither deleted nor in the trash
    (unless the parent is [trash]); loaded under a free name, it is the
    record a node of that name under that parent resolves to. So what a
    push uploaded is found as existing by the push after it. *)
Theorem written_metadata_resolves (now : Z) (ft nm : string) (parent : option Parent)
    (p u : string) (ix : Index) :
  parent_written (parent_id <$> parent) = Some p →
  p ≠ "trash" →
  metadata_by_name_and_parent ix !! (nm, p) = None →
  ∃ md ix',
    read_metadata (construct_metadata now ft nm (Some p)) = Some md ∧
    load_record (u, md) ix = (Ret tt, ix') ∧
    get_metadata_by_uuid ix' u = Some md ∧
    resolves_to ix' nm parent = Some (u, md).
Proof. apply written_record_resolves. Qed.

Lemma written_metadata_resolves_witness :
  ∃ md ix',
    read_metadata (construct_metadata 1700000000000 "pdf" "a.pdf" (Some "f1")) = Some md ∧
    load_record ("generated-0", md) (loaded [("f1", collection_md "Papers" "")])
      = (Ret tt, ix') ∧
    get_metadata_by_uuid ix' "generated-0" = Some md ∧
    resolves_to ix' "a.pdf" (Some (mkParent (Some "f1") "Papers")) = Some ("generated-0", md).
Proof.
  apply (written_metadata_resolves 1700000000000 "pdf" "a.pdf"
           (Some (mkParent (Some "f1") "Papers")) "f1" "generated-0"
           (loaded [("f1", collection_md "Papers" "")])).
  - reflexivity.
  - discriminate.
  - vm_compute. reflexivity.
Defined.

(** ** [get_toplevel_files] and the [backup] mode *)

Lemma toplevel_loop_done keys acc l :
  toplevel_loop keys acc = Done l → keys = [] ∧ l = acc.
Proof.
  destruct keys as [|key rest]; [by intros [= <-]|]. cbn [toplevel_loop].
  by destruct (unpack_pair key) as [[u md]|e].
Qed.

Lemma toplevel_loop_failed key rest acc :
  ∃ e, toplevel_loop (key :: rest) acc = Failed e ∧ (e = Exn ValueError ∨ e = TypeError).
Proof.
  cbn [toplevel_loop]. unfold unpack_pair.
  destruct key as [|u [|md [|c key]]]; simpl; eauto.
Qed.

Lemma get_toplevel_files_result ix :
  (get_metadata_by_parent ix (Some "") = ∅ ∧ get_toplevel_files ix = Done []) ∨
  (get_metadata_by_parent ix (Some "") ≠ ∅ ∧
   ∃ e, get_toplevel_files ix = Failed e ∧ (e = Exn ValueError ∨ e = TypeError)).
Proof.
  unfold get_toplevel_files.
  destruct (map_to_list (get_metadata_by_parent ix (Some ""))) as [|[key m] rest] eqn:Hl.
  - left. split; [|done]. by apply map_to_list_empty_iff.
  - right. split.
    + intros Hempty. rewrite Hempty, map_to_list_empty in Hl. done.
    + rewrite fmap_cons. apply toplevel_loop_failed.
Qed.

Lemma pull_nothing `{Library} args w :
  pull_from_remarkable args [] w = (Ret tt, w) ∨
  pull_from_remarkable args [] w = (Raise AssertionError, w).
Proof. unfold pull_from_remarkable. destruct (if_exists args); auto. Qed.

Lemma backup_result `{Library} args w r w' :
  backup args w = (r, w') →
  w' = w ∧
  (get_toplevel_files (index w) = Done [] ∨
   ∃ e, get_toplevel_files (index w) = Failed e ∧ r = Failed e ∧
        (e = Exn ValueError ∨ e = TypeError)).
Proof.
  unfold backup. xunfold.
  destruct (get_toplevel_files_result (index w)) as [[_ Hdone]|[_ (e & Hfail & He)]].
  - rewrite Hdone. destruct (pull_nothing args w) as [-> | ->]; intros [= <- <-]; auto.
  - rewrite Hfail. intros [= <- <-]. split; [done|]. right. eauto.
Qed.

(** X24: [get_toplevel_files] never returns a name. It iterates the
    dictionary of the records filed at the root, which yields their
    identifiers, and unpacks each into two variables: with no such record
    it returns the empty list, otherwise it raises [ValueError] (an
    identifier that has not two characters) or [TypeError] (one that has).
    So the [backup] mode downloads nothing and leaves everything as it
    was. *)
Theorem backup_downloads_nothing `{Library} (args : Args) (w : World) :
  ((get_metadata_by_parent (index w) (Some "") = ∅ ∧ get_toplevel_files (index w) = Done []) ∨
   (get_metadata_by_parent (index w) (Some "") ≠ ∅ ∧
    ∃ e, get_toplevel_files (index w) = Failed e ∧ (e = Exn ValueError ∨ e = TypeError))) ∧
  (∀ r w', backup args w = (r, w') → w' = w).
Proof.
  split; [apply get_toplevel_files_result|].
  intros r w' Hrun. by apply backup_result in Hrun as [-> _].
Qed.

Lemma backup_downloads_nothing_witness :
  (backup (H := example_library) (mkArgs false false skip [] None)
     (world_of (loaded [("f1", collection_md "Papers" "")]) [])).2
  = world_of (loaded [("f1", collection_md "Papers" "")]) [].
Proof.
  apply (proj2 (backup_downloads_nothing (H := example_library)
                  (mkArgs false false skip [] None)
                  (world_of (loaded [("f1", collection_md "Papers" "")]) []))
           (backup (H := example_library) (mkArgs false false skip [] None)
              (world_of (loaded [("f1", collection_md "Papers" "")]) [])).1).
  apply surjective_pairing.
Defined.

(** ** [print_tree] *)

Lemma length_append s1 s2 :
  String.length (s1 +:+ s2) = String.length s1 + String.length s2.
Proof. induction s1 as [|c s1 IH]; simpl; [done|]. by rewrite IH. Qed.

Lemma length_spaces n : String.length (spaces n) = n.
Proof. induction n as [|n IH]; simpl; [done|]. by rewrite IH. Qed.

Lemma length_str_take n s : String.length (str_take n s) = n `min` String.length s.
Proof.
  revert s. induction n as [|n IH]; intros [|c s]; simpl; try done. by rewrite IH.
Qed.

(** The part of a line before the note fills the columns the note leaves. *)
Lemma line_width (columns notelen : Z) (line : string) :
  (0 ≤ notelen)%Z → (notelen + 3 ≤ columns)%Z →
  Z.of_nat (String.length
    (ljust (if (columns - notelen <? Z.of_nat (String.length line))%Z
            then slice_to line (columns - notelen - 3) +:+ "..."
            else line) (columns - notelen))) = (columns - notelen)%Z.
Proof.
  intros Hnote Hcol. unfold ljust. rewrite length_append, length_spaces.
  destruct (columns - notelen <? Z.of_nat (String.length line))%Z eqn:Hlong.
  - apply Z.ltb_lt in Hlong. unfold slice_to.
    destruct (columns - notelen - 3 <? 0)%Z eqn:Hneg; [apply Z.ltb_lt in Hneg; lia|].
    rewrite length_append, length_str_take. simpl. lia.
  - apply Z.ltb_ge in Hlong. lia.
Qed.

Section PrintTreeProofs.

Variable columns : Z.
Variable colored : string → string → string.

Lemma print_tree_unfold node padding :
  print_tree columns colored node padding =
  (ljust (if (columns - (tree_note colored node).2
              <? Z.of_nat (String.length (padding +:+ name node)))%Z
          then slice_to (padding +:+ name node) (columns - (tree_note colored node).2 - 3)
               +:+ "..."
          else padding +:+ name node) (columns - (tree_note colored node).2)
   +:+ (tree_note colored node).1)
  :: flat_map (fun ch => print_tree columns colored ch (padding +:+ "  ")) (children node).
Proof.
  destruct node as [nm i e g c f r chs]. cbn [print_tree].
  by destruct (tree_note colored _).
Qed.

Lemma tree_note_length node :
  (0 ≤ (tree_note colored node).2 ≤ 24)%Z.
Proof. unfold tree_note. destruct (gets_modified node), (node_exists node); simpl; lia. Qed.

Lemma print_tree_lines node : ∀ padding,
  (27 ≤ columns)%Z →
  Forall2 (fun line m =>
             ∃ body, line = body +:+ (tree_note colored m).1 ∧
                     Z.of_nat (String.length body) = (columns - (tree_note colored m).2)%Z)
          (print_tree columns colored node padding) (subnodes node).
Proof.
  induction node as [node IH] using Node_ind_children. intros padding Hcol.
  rewrite print_tree_unfold, subnodes_unfold. constructor.
  - eexists. split; [reflexivity|].
    pose proof (tree_note_length node). apply line_width; lia.
  - induction (children node) as [|ch chs IHchs]; [constructor|].
    apply Forall_cons in IH as [Hch IH]. cbn [flat_map].
    apply Forall2_app; [by apply Hch|by apply IHchs].
Qed.

End PrintTreeProofs.

Lemma tree_note_plain node :
  Z.of_nat (String.length (tree_note (fun s _ => s) node).1) = (tree_note (fun s _ => s) node).2.
Proof. unfold tree_note. by destruct (gets_modified node), (node_exists node). Qed.

(** X25: on a terminal of 27 columns or more, [print_tree] prints one
    line per node of the tree, the root first, each made of a part that
    fills the columns its note leaves, cut with an ellipsis when the
    padded name is longer, followed by the note of the node; without
    colours every line has exactly the width of the terminal. *)
Theorem print_tree_fills_columns (columns : Z) (colored : string → string → string)
    (node : Node) (padding : string) :
  (27 ≤ columns)%Z →
  Forall2 (fun line m =>
             ∃ body, line = body +:+ (tree_note colored m).1 ∧
                     Z.of_nat (String.length body) = (columns - (tree_note colored m).2)%Z)
          (print_tree columns colored node padding) (subnodes node) ∧
  Forall (fun line => Z.of_nat (String.length line) = columns)
         (print_tree columns (fun s _ => s) node padding).
Proof.
  intros Hcol. split; [by apply print_tree_lines|].
  pose proof (print_tree_lines columns (fun s _ => s) node padding Hcol) as Hlines.
  eapply Forall2_Forall_l; [exact Hlines|].
  apply Forall_forall. intros m _ line (body & -> & Hlen).
  rewrite length_append, Nat2Z.inj_add, Hlen, tree_note_plain. lia.
Qed.

Lemma print_tree_fills_columns_witness :
  Forall (fun line => Z.of_nat (String.length line) = 40%Z)
    (print_tree 40 (fun s _ => s)
       (set_children (Folder empty_index "Papers" None)
          [Document empty_index "a-very-long-name-for-a-document-of-few-pages.pdf" ".pdf"
             (Some (mkParent None "Papers"))]) "").
Proof.
  refine (proj2 (print_tree_fills_columns 40 (fun s _ => s)
                   (set_children (Folder empty_index "Papers" None)
                      [Document empty_index "a-very-long-name-for-a-document-of-few-pages.pdf"
                         ".pdf" (Some (mkParent None "Papers"))]) "" _)).
  lia.
Defined.

(** ** [download] *)

Section DownloadProofs.

Variable args : Args.
Variable joinpath : string → string → string.

Lemma download_unfold self targetdir next :
  download args joinpath self targetdir next =
  match node_class self with
  | DocumentClass =>
      if dryrun args then PrintDownloadingTo (joinpath targetdir (name self)) next
      else
        Chdir targetdir
          (PathExists
             (if Str.endswith ".pdf" (Str.lower (name self)) then name self
              else name self +:+ ".pdf")
             (fun found => if found : bool then Raises NameError else next))
  | FolderClass =>
      if dryrun args
      then PrintCreatingDirectory (joinpath targetdir (name self))
             (download_list args joinpath (joinpath targetdir (name self))
                (children self) next)
      else Chdir targetdir
             (Makedirs (name self)
                (download_list args joinpath (joinpath targetdir (name self))
                   (children self) next))
  end.
Proof.
  destruct self as [nm i e g c f r chs]. cbn [download node_class name children].
  destruct c; [|done].
  match goal with
  | |- context [PrintCreatingDirectory _ (?F chs)] =>
      assert (∀ l, F l = download_list args joinpath
                           (joinpath targetdir
                              (name (mkNode nm i e g FolderClass f r chs))) l next)
        as ->; [|done]
  end.
  induction l as [|ch l IHl]; [done|]. cbn [download_list]. by rewrite <- IHl.
Qed.

Lemma download_list_fetches dir chs :
  Forall (fun ch => ∀ targetdir next,
            fetches (download args joinpath ch targetdir next) → fetches next) chs →
  ∀ next, fetches (download_list args joinpath dir chs next) → fetches next.
Proof.
  induction chs as [|ch chs IHchs]; intros Hall next; [done|].
  apply Forall_cons in Hall as [Hch Hall]. cbn [download_list].
  intros Hf%Hch. by apply IHchs.
Qed.

Lemma download_fetches self : ∀ targetdir next,
  fetches (download args joinpath self targetdir next) → fetches next.
Proof.
  induction self as [self IH] using Node_ind_children. intros targetdir next.
  rewrite download_unfold. destruct (node_class self).
  - destruct (dryrun args); simpl; by apply download_list_fetches.
  - destruct (dryrun args); simpl; [done|]. by intros [[]|].
Qed.

(** A run ends as what follows it may end, or by [NameError]. *)
Lemma download_list_may_end dir chs r :
  Forall (fun ch => ∀ targetdir next,
            may_end (download args joinpath ch targetdir next) r →
            may_end next r ∨ (r = Failed NameError ∧ dryrun args = false)) chs →
  ∀ next,
    may_end (download_list args joinpath dir chs next) r →
    may_end next r ∨ (r = Failed NameError ∧ dryrun args = false).
Proof.
  induction chs as [|ch chs IHchs]; intros Hall next; [by left|].
  apply Forall_cons in Hall as [Hch Hall]. cbn [download_list].
  intros [Hrest|Hname]%Hch; [by apply IHchs|by right].
Qed.

Lemma download_may_end self r : ∀ targetdir next,
  may_end (download args joinpath self targetdir next) r →
  may_end next r ∨ (r = Failed NameError ∧ dryrun args = false).
Proof.
  induction self as [self IH] using Node_ind_children. intros targetdir next.
  rewrite download_unfold.
  pose proof (download_list_may_end (joinpath targetdir (name self)) _ r IH next) as Hlist.
  clear IH. destruct (node_class self).
  - destruct (dryrun args) eqn:Hdry; simpl; exact Hlist.
  - destruct (dryrun args) eqn:Hdry; simpl; [by left|]. intros [->|Hnext]; auto.
Qed.

End DownloadProofs.

(** X26: [download] never requests a document from the device and never
    saves one, whatever the local file system answers: a document whose
    file is not there is passed over, and for one whose file is there the
    test of [if_exists], a name the module does not bind, raises
    [NameError]. A run in which the file system refuses nothing ends
    normally or by [NameError], the latter only outside a dry run. *)
Theorem download_never_fetches (args : Args) (joinpath : string → string → string)
    (self : Node) (targetdir : string) :
  ¬ fetches (download args joinpath self targetdir Returns) ∧
  ∀ r, may_end (download args joinpath self targetdir Returns) r →
       r = Done tt ∨ (r = Failed NameError ∧ dryrun args = false).
Proof.
  split.
  - intros Hf. by apply download_fetches in Hf.
  - intros r Hr. by apply download_may_end in Hr.
Qed.

(** ** When the selection of a group fails *)

Section GroupFailure.

Context `{Library}.
Variable args : Args.

Lemma remove_others_raises keep tmp : ∀ w e w',
  remove_others args keep tmp w = (Raise e, w') → e = KeyError.
Proof.
  induction tmp as [|[[lm u] md] tmp IH]; intros w e w'; [done|].
  cbn [remove_others]. destruct (bool_decide (u = keep)); [apply IH|].
  munfold. unfold on_index.
  destruct (remove_uuid u (index w)) as [[[]|e0] ix1] eqn:Hrm.
  2:{ apply remove_uuid_inv in Hrm as [-> _]. by intros [= <- _]. }
  unfold ssh. destruct (dryrun args); munfold;
    match goal with
    | |- context [remove_others args keep tmp ?w1] =>
        destruct (remove_others args keep tmp w1) as [[removed|e1] w2] eqn:Hrest;
          [done|]; apply IH in Hrest as ->; by intros [= <- _]
    end.
Qed.

Lemma resolve_group_IndexError j total md5 members w w' :
  resolve_group args j total md5 members w = (Raise IndexError, w') →
  candidates_of (index w) members = [] ∧ index w' = index w ∧ ssh_log w' = ssh_log w.
Proof.
  rewrite resolve_group_unfold. unfold print. munfold. cbv beta iota.
  set (w0 := set_stdout _ w).
  destruct (present_group members w0) as [[[tmp|]|e] w1] eqn:Hpres;
    apply present_group_inv in Hpres as (Hix1 & [out1 [_ Hssh1 _ _ _ _]] & Hr1);
    [|done|by destruct Hr1 as [-> | ->]].
  destruct (select_candidate (length tmp) (stdin w1) w1) as [[i|e] w2] eqn:Hsel.
  2:{ apply select_candidate_inv in Hsel as (_ & _ & ->); [|done]. done. }
  pose proof (select_candidate_bounds _ _ _ _ _ eq_refl Hsel) as Hi.
  apply select_candidate_inv in Hsel as (Hix2 & (out2 & lines & [_ Hssh2 _ _ _ _]) & _);
    [|done].
  case_bool_decide; [done|]. case_bool_decide; [done|].
  destruct (tmp !! Z.to_nat i) as [[[lm keep] m]|] eqn:Hlook.
  { destruct (remove_others args keep tmp w2) as [[removed|e] w3] eqn:Hrm; [done|].
    apply remove_others_raises in Hrm as ->. done. }
  intros [= <-]. apply lookup_ge_None in Hlook.
  assert (tmp = []) as ->.
  { destruct tmp as [|c tmp]; [done|]. cbn [length] in Hlook, Hi. cbv iota in Hi.
    exfalso. unfold Candidate in *. lia. }
  split_and!.
  - symmetry in Hr1. simpl in Hr1.
    assert (candidates_of (index w0) members ≡ₚ []) as Hperm.
    { rewrite <- Hr1. symmetry. apply merge_sort_Permutation. }
    by apply Permutation_nil_r in Hperm.
  - simpl in *. congruence.
  - simpl in *. rewrite Hssh2, Hssh1. by rewrite !app_nil_r.
Qed.

End GroupFailure.

(** X27: the handling of a group of duplicates raises [IndexError] only
    when it has no candidate at all, that is when no file of the group
    has a record in the index whose date is read; nothing was then
    removed from the index or sent to the device. With one candidate or
    more every selection is an index of the list. *)
Theorem resolve_group_IndexError_only_when_empty `{Library} (args : Args) (j total : nat)
    (md5 : string) (members : list string) (w w' : World) :
  resolve_group args j total md5 members w = (Raise IndexError, w') →
  candidates_of (index w) members = [] ∧ index w' = index w ∧ ssh_log w' = ssh_log w.
Proof. apply resolve_group_IndexError. Qed.

Lemma resolve_group_IndexError_only_when_empty_witness :
  candidates_of (H := example_library)
    (index (world_of (loaded [("t1", trashed_md "a.pdf"); ("t2", trashed_md "b.pdf")])
              [EmptyString])) ["t1"; "t2"] = [].
Proof.
  refine (proj1 (resolve_group_IndexError_only_when_empty (H := example_library)
                   (mkArgs false true skip [] None) 0 1 "9e107d9d" ["t1"; "t2"]
                   (world_of (loaded [("t1", trashed_md "a.pdf"); ("t2", trashed_md "b.pdf")])
                      [EmptyString])
                   (resolve_group (H := example_library) (mkArgs false true skip [] None)
                      0 1 "9e107d9d" ["t1"; "t2"]
                      (world_of (loaded [("t1", trashed_md "a.pdf");
                                         ("t2", trashed_md "b.pdf")]) [EmptyString])).2 _)).
  vm_compute. reflexivity.
Defined.

(** ** The destination of a push *)

Section Destination.

Context `{Library}.
Variable args : Args.







End Destination.



(** ** The order of the listing *)

Lemma insert_nested_commute k1 u1 v1 k2 u2 v2 d :
  u1 ≠ u2 →
  insert_nested k1 u1 v1 (insert_nested k2 u2 v2 d)
  = insert_nested k2 u2 v2 (insert_nested k1 u1 v1 d).
Proof.
  intros Hne. unfold insert_nested. destruct (decide (k1 = k2)) as [->|Hk].
  - rewrite !lookup_insert_eq. simpl. rewrite !insert_insert_eq.
    f_equal. by apply insert_insert_ne.
  - rewrite !lookup_insert_ne by done. by apply insert_insert_ne.
Qed.

Lemma filing_keys_Permutation l l' : l ≡ₚ l' → filing_keys l ≡ₚ filing_keys l'.
Proof. intros Hp. unfold filing_keys. by rewrite Hp. Qed.

Lemma loadable_Permutation l l' ix : l ≡ₚ l' → loadable l ix → loadable l' ix.
Proof.
  intros Hp [Hu Hpar Hk Hfree]. pose proof (filing_keys_Permutation _ _ Hp) as Hkp.
  split.
  - by rewrite <- Hp.
  - intros u m Hin. apply (Hpar u). by rewrite Hp.
  - by rewrite <- Hkp.
  - intros k Hin. apply Hfree. by rewrite Hkp.
Qed.

Lemma load_record_loadable e records ix :
  loadable (e :: records) ix →
  ∃ ix1, load_record e ix = (Ret tt, ix1) ∧ loadable records ix1.
Proof.
  destruct e as [u m]. intros [Hnd Hpar Hkeys Hfree].
  rewrite fmap_cons in Hnd. apply NoDup_cons in Hnd as [Hu Hnd].
  rewrite filing_keys_cons in Hkeys. apply NoDup_app in Hkeys as (Hk1 & Hk12 & Hk2).
  assert (∀ ix1, (∀ k, k ∈ filing_keys records → metadata_by_name_and_parent ix1 !! k = None) →
            loadable records ix1) as Hrest.
  { intros ix1 Hfree1. split; [done| |done..]. intros u' m' Hin. apply (Hpar u'). by right. }
  destruct (skipped m) eqn:Hs.
  { exists ix. split; [unfold load_record; by rewrite Hs|]. apply Hrest.
    intros k Hk. apply Hfree. rewrite filing_keys_cons. apply elem_of_app. by right. }
  destruct (Hpar u m ltac:(left) Hs) as [p Hp].
  assert ((visibleName m, p) ∈ filing_keys [(u, m)]) as Hkey.
  { unfold filing_keys. simpl. rewrite Hs, Hp. simpl. by left. }
  eexists. split.
  { apply load_record_free; [done..|]. apply Hfree.
    rewrite filing_keys_cons. apply elem_of_app. by left. }
  apply Hrest. intros k Hk. simpl. rewrite lookup_insert_ne.
  - apply Hfree. rewrite filing_keys_cons. apply elem_of_app. by right.
  - intros <-. by apply (Hk12 _ Hkey).
Qed.

Lemma load_record_swap e1 e2 records ix :
  loadable (e1 :: e2 :: records) ix →
  retrieve_metadata [e1; e2] ix = retrieve_metadata [e2; e1] ix.
Proof.
  intros Hl.
  assert (loadable (e2 :: e1 :: records) ix) as Hl'.
  { eapply loadable_Permutation; [|exact Hl]. apply perm_swap. }
  destruct e1 as [u1 m1], e2 as [u2 m2].
  unfold retrieve_metadata. cbn [for_each]. munfold.
  destruct (skipped m1) eqn:Hs1.
  { assert (∀ ix0, load_record (u1, m1) ix0 = (Ret tt, ix0)) as Hskip.
    { intros ix0. unfold load_record. by rewrite Hs1. }
    rewrite (Hskip ix). cbv beta iota.
    destruct (load_record (u2, m2) ix) as [[[]|e] ix1]; [|done].
    by rewrite (Hskip ix1). }
  destruct (skipped m2) eqn:Hs2.
  { assert (∀ ix0, load_record (u2, m2) ix0 = (Ret tt, ix0)) as Hskip.
    { intros ix0. unfold load_record. by rewrite Hs2. }
    rewrite (Hskip ix). cbv beta iota.
    destruct (load_record (u1, m1) ix) as [[[]|e] ix1]; [|done].
    by rewrite (Hskip ix1). }
  destruct Hl as [Hnd Hpar Hkeys Hfree].
  destruct (Hpar u1 m1 ltac:(left) Hs1) as [p1 Hp1].
  destruct (Hpar u2 m2 ltac:(right; left) Hs2) as [p2 Hp2].
  assert (u1 ≠ u2) as Hu.
  { rewrite !fmap_cons in Hnd. apply NoDup_cons in Hnd as [Hu _]. simpl in Hu.
    intros ->. apply Hu. by left. }
  assert (filing_keys ((u1, m1) :: (u2, m2) :: records)
          = (visibleName m1, p1) :: (visibleName m2, p2) :: filing_keys records) as Hfk.
  { unfold filing_keys. simpl. by rewrite Hs1, Hs2, Hp1, Hp2. }
  rewrite Hfk in Hkeys, Hfree.
  assert ((visibleName m1, p1) ≠ (visibleName m2, p2)) as Hk.
  { apply NoDup_cons in Hkeys as [Hk _]. intros Heq. apply Hk. rewrite Heq. by left. }
  rewrite (load_record_free u1 m1 p1 ix), (load_record_free u2 m2 p2 ix);
    [|done|done|apply Hfree; by right; left|done|done|apply Hfree; by left].
  rewrite (load_record_free u2 m2 p2), (load_record_free u1 m1 p1);
    [|done|done|simpl; rewrite lookup_insert_ne by done; apply Hfree; by left
     |done|done|simpl; rewrite lookup_insert_ne by done; apply Hfree; by right; left].
  cbv beta iota. f_equal.
  unfold set_by_name_and_parent, set_by_parent, set_by_name, set_by_uuid.
  simpl. f_equal.
  - by apply insert_insert_ne.
  - by apply insert_nested_commute.
  - by apply insert_nested_commute.
  - by apply insert_insert_ne.
Qed.

Lemma retrieve_metadata_app l1 l2 ix :
  retrieve_metadata (l1 ++ l2) ix =
  match retrieve_metadata l1 ix with
  | (Ret _, ix') => retrieve_metadata l2 ix'
  | (Raise e, ix') => (Raise e, ix')
  end.
Proof. apply for_each_app. Qed.

Lemma retrieve_metadata_Permutation l l' :
  l ≡ₚ l' → ∀ ix, loadable l ix → retrieve_metadata l ix = retrieve_metadata l' ix.
Proof.
  induction 1 as [|e l l' Hp IH|e1 e2 l|l l' l'' Hp1 IH1 Hp2 IH2]; intros ix Hl.
  - done.
  - destruct (load_record_loadable _ _ _ Hl) as (ix1 & Hload & Hl1).
    unfold retrieve_metadata in *. rewrite !for_each_cons, Hload. by apply IH.
  - change (e2 :: e1 :: l) with ([e2; e1] ++ l). change (e1 :: e2 :: l) with ([e1; e2] ++ l).
    rewrite !retrieve_metadata_app.
    rewrite (load_record_swap e2 e1 l ix); [done|]. exact Hl.
  - rewrite IH1 by done. apply IH2. by eapply loadable_Permutation.
Qed.

(** X29: when the records load without collision, the index does not
    depend on the order of the listing: two listings of the same records
    leave the four dictionaries equal. *)
Theorem retrieve_metadata_order_independent (records records' : list (string * Metadata)) :
  records ≡ₚ records' →
  loadable records empty_index →
  retrieve_metadata records empty_index = retrieve_metadata records' empty_index.
Proof. intros Hp Hl. by apply retrieve_metadata_Permutation. Qed.

Lemma retrieve_metadata_order_independent_witness :
  retrieve_metadata [("f1", collection_md "Papers" ""); ("d1", document_md "a.pdf" "f1")]
    empty_index
  = retrieve_metadata [("d1", document_md "a.pdf" "f1"); ("f1", collection_md "Papers" "")]
      empty_index.
Proof.
  apply (retrieve_metadata_order_independent
           [("f1", collection_md "Papers" ""); ("d1", document_md "a.pdf" "f1")]
           [("d1", document_md "a.pdf" "f1"); ("f1", collection_md "Papers" "")]).
  - apply perm_swap.
  - split.
    + apply (bool_decide_unpack _). vm_compute. reflexivity.
    + intros u m Hin _.
      repeat (apply elem_of_cons in Hin as [Hin|Hin];
              [injection Hin as -> ->; simpl; eauto|]).
      by apply elem_of_nil in Hin.
    + apply (bool_decide_unpack _). vm_compute. reflexivity.
    + intros k _. apply lookup_empty.
Defined.

(** ** A dry run of [download] *)

Section DownloadDryRun.

Variable args : Args.
Variable joinpath : string → string → string.
Hypothesis dry : dryrun args = true.

Lemma download_list_dry dir chs :
  Forall (fun ch => ∀ targetdir next,
            only_prints next →
            only_prints (download args joinpath ch targetdir next) ∧
            length (printed_paths (download args joinpath ch targetdir next))
            = length (visited ch) + length (printed_paths next)) chs →
  ∀ next, only_prints next →
    only_prints (download_list args joinpath dir chs next) ∧
    length (printed_paths (download_list args joinpath dir chs next))
    = length (flat_map visited chs) + length (printed_paths next).
Proof.
  induction chs as [|ch chs IHchs]; intros Hall next Hnext; [done|].
  apply Forall_cons in Hall as [Hch Hall]. cbn [download_list flat_map].
  destruct (IHchs Hall next Hnext) as [Hp Hlen].
  destruct (Hch dir _ Hp) as [Hp' Hlen']. split; [done|].
  rewrite Hlen', Hlen, length_app. lia.
Qed.

Lemma download_dry self : ∀ targetdir next,
  only_prints next →
  only_prints (download args joinpath self targetdir next) ∧
  length (printed_paths (download args joinpath self targetdir next))
  = length (visited self) + length (printed_paths next).
Proof.
  induction self as [self IH] using Node_ind_children. intros targetdir next Hnext.
  rewrite download_unfold, visited_unfold, dry. destruct (node_class self); simpl.
  - destruct (download_list_dry (joinpath targetdir (name self)) _ IH next Hnext)
      as [Hp Hlen].
    split; [done|]. by rewrite Hlen.
  - done.
Qed.

End DownloadDryRun.

(** X30: in a dry run [download] does nothing but print: it changes no
    directory, creates none and asks the file system nothing; it prints
    one path for the node and one for every node visited below it. *)
Theorem download_dry_run_only_prints (args : Args) (joinpath : string → string → string)
    (self : Node) (targetdir : string) :
  dryrun args = true →
  only_prints (download args joinpath self targetdir Returns) ∧
  length (printed_paths (download args joinpath self targetdir Returns))
  = length (visited self).
Proof.
  intros Hdry.
  destruct (download_dry args joinpath Hdry self targetdir Returns) as [Hp Hlen]; [done|].
  split; [done|]. rewrite Hlen. simpl. lia.
Qed.

Lemma download_dry_run_only_prints_witness :
  only_prints (download (mkArgs true false skip [] None) (fun d nm => d +:+ "/" +:+ nm)
                 (set_children (Folder empty_index "Papers" None)
                    [Document empty_index "a.pdf" ".pdf" (Some (mkParent None "Papers"))])
                 "/home/me" Returns).
Proof.
  refine (proj1 (download_dry_run_only_prints (mkArgs true false skip [] None)
                   (fun d nm => d +:+ "/" +:+ nm)
                   (set_children (Folder empty_index "Papers" None)
                      [Document empty_index "a.pdf" ".pdf" (Some (mkParent None "Papers"))])
                   "/home/me" _)).
  reflexivity.
Defined.
